(** * MDScatter: the cluster measurement and aggregation engine

    A shallow embedding of [scripts/cluster/clusterbatchanalyzer.py]
    (class [ClusterBatchAnalyzer]) and the properties of its coordination
    counter, volume estimators, charge aggregator, per-file worker, batch
    loop and statistics aggregator.

    Conventions of the embedding.
    - Python floats are read as real numbers ([R]): every statement about a
      volume, a distance, a mean or a norm is a statement of exact real
      arithmetic, not of IEEE rounding.
    - Formal charges and coordination numbers of the charge table are
      integers ([Z]); counts are [nat].
    - A Python [dict] is an insertion-ordered association list with unique
      keys ([PyDict]): the code iterates its dictionaries with [items()],
      so the order is part of the behaviour.
    - A raised exception is a value of [exn]; code that may raise returns a
      [result].  Printed diagnostics are collected in a log. *)

From Stdlib Require Import Reals Lra Lia ZArith List String Bool Permutation.
From Stdlib Require Import Sorted DecimalString.
Import ListNotations.

Set Implicit Arguments.

(** ** Decidable equality of dictionary keys *)

Class EqDec (A : Type) := eq_dec : forall x y : A, {x = y} + {x <> y}.

#[export] Instance string_EqDec : EqDec string := string_dec.
#[export] Instance Z_EqDec : EqDec Z := Z.eq_dec.
#[export] Instance nat_EqDec : EqDec nat := Nat.eq_dec.
#[export] Instance prod_EqDec {A B} `{EqDec A} `{EqDec B} : EqDec (A * B).
Proof. intros [a b] [a' b']. destruct (eq_dec a a'), (eq_dec b b'); [left | right ..]; congruence. Defined.

Definition eqb {A} `{EqDec A} (x y : A) : bool := if eq_dec x y then true else false.

Lemma eqb_refl {A} `{EqDec A} (x : A) : eqb x x = true.
Proof. unfold eqb. destruct (eq_dec x x); congruence. Qed.

Lemma eqb_neq {A} `{EqDec A} (x y : A) : x <> y -> eqb x y = false.
Proof. unfold eqb. destruct (eq_dec x y); congruence. Qed.

Lemma eqb_true {A} `{EqDec A} (x y : A) : eqb x y = true -> x = y.
Proof. unfold eqb. destruct (eq_dec x y); congruence. Qed.

(** [x in l] for a Python list [l]. *)
Definition mem {A} `{EqDec A} (x : A) (l : list A) : bool := existsb (eqb x) l.

Lemma mem_In {A} `{EqDec A} (x : A) l : mem x l = true <-> In x l.
Proof.
  unfold mem. rewrite existsb_exists. split.
  - intros [y [Hy He]]. apply eqb_true in He. now subst.
  - intros Hx. exists x. split; [assumption | apply eqb_refl].
Qed.

(** ** Python dictionaries: insertion-ordered, unique keys *)

Module PyDict.
Section Dict.
Context {K V : Type} `{EqDec K}.

Definition dict := list (K * V).

(** [d.get(k)] *)
Fixpoint get (k : K) (d : dict) : option V :=
  match d with
  | [] => None
  | (k', v) :: d' => if eq_dec k k' then Some v else get k d'
  end.

(** [k in d] *)
Definition has (k : K) (d : dict) : bool :=
  match get k d with Some _ => true | None => false end.

(** [d[k] = v]: overwrite in place, or append a new key at the end. *)
Fixpoint set (k : K) (v : V) (d : dict) : dict :=
  match d with
  | [] => [(k, v)]
  | (k', v') :: d' => if eq_dec k k' then (k', v) :: d' else (k', v') :: set k v d'
  end.

(** [d[k] = f(d[k])] on a [defaultdict] whose default value is [dflt]. *)
Definition update (dflt : V) (f : V -> V) (k : K) (d : dict) : dict :=
  set k (f (match get k d with Some v => v | None => dflt end)) d.

Definition keys (d : dict) : list K := map fst d.

Lemma get_set_eq k v d : get k (set k v d) = Some v.
Proof.
  induction d as [| [k' v'] d IH]; simpl.
  - destruct (eq_dec k k); congruence.
  - destruct (eq_dec k k') as [-> | Hne]; simpl.
    + destruct (eq_dec k' k'); congruence.
    + destruct (eq_dec k k'); congruence.
Qed.

Lemma get_set_ne k k' v d : k <> k' -> get k' (set k v d) = get k' d.
Proof.
  intros Hne. induction d as [| [k0 v0] d IH]; simpl.
  - destruct (eq_dec k' k); congruence.
  - destruct (eq_dec k k0) as [-> | Hk]; simpl.
    + destruct (eq_dec k' k0); congruence.
    + destruct (eq_dec k' k0); congruence.
Qed.

Lemma get_In k v d : get k d = Some v -> In (k, v) d.
Proof.
  induction d as [| [k' v'] d IH]; simpl; [discriminate |].
  destruct (eq_dec k k') as [-> | Hne].
  - intros [= ->]. now left.
  - intros Hg. right. auto.
Qed.

Lemma get_None_keys k d : get k d = None <-> ~ In k (keys d).
Proof.
  induction d as [| [k' v'] d IH]; simpl.
  - tauto.
  - destruct (eq_dec k k') as [-> | Hne].
    + split; [discriminate | intros Hn; exfalso; apply Hn; now left].
    + rewrite IH. split; [intros Hn [He | Hi]; congruence | tauto].
Qed.

Lemma keys_set_in k v d : In k (keys d) -> keys (set k v d) = keys d.
Proof.
  induction d as [| [k' v'] d IH]; simpl; [tauto |].
  destruct (eq_dec k k') as [-> | Hne]; simpl; [reflexivity |].
  intros [He | Hi]; [congruence |]. now rewrite IH.
Qed.

Lemma keys_set_notin k v d : ~ In k (keys d) -> keys (set k v d) = keys d ++ [k].
Proof.
  induction d as [| [k' v'] d IH]; simpl; [reflexivity |].
  destruct (eq_dec k k') as [-> | Hne]; simpl.
  - intros Hn. exfalso. apply Hn. now left.
  - intros Hn. rewrite IH; [reflexivity | tauto].
Qed.

(** Assignment keeps the keys unique. *)
Lemma NoDup_keys_set k v d : NoDup (keys d) -> NoDup (keys (set k v d)).
Proof.
  intros Hnd. destruct (in_dec eq_dec k (keys d)) as [Hi | Hn].
  - now rewrite keys_set_in.
  - rewrite keys_set_notin by assumption.
    apply NoDup_app; [assumption | repeat constructor; simpl; tauto |].
    intros x Hx [<- | []]. contradiction.
Qed.
End Dict.
Arguments dict : clear implicits.
End PyDict.

Abbreviation dict := PyDict.dict.

(** ** Exceptions and results *)

Inductive exn : Type :=
| ValueError (msg : string)
| KeyError (key : string)
| TypeError (msg : string)
| AttributeError (name : string)
| ZeroDivisionError
| NameError (name : string)
| IndexError (msg : string)
| OverflowError (msg : string)
| StopIteration
| CollaboratorError (msg : string).   (* raised by an external collaborator *)

Inductive result (A : Type) : Type :=
| Ok (a : A)
| Raise (e : exn).
Arguments Ok {A} a.
Arguments Raise {A} e.

Definition bind {A B} (r : result A) (k : A -> result B) : result B :=
  match r with Ok a => k a | Raise e => Raise e end.

Notation "x <- c ;; k" := (bind c (fun x => k))
  (at level 61, c at next level, right associativity).

(** The comprehension [[f(x) for x in l]] where [f] may raise. *)
Fixpoint mapM {A B} (f : A -> result B) (l : list A) : result (list B) :=
  match l with
  | [] => Ok []
  | x :: l' => y <- f x ;; ys <- mapM f l' ;; Ok (y :: ys)
  end.

(** ** Atoms and parsed structures (supplied by the structure loader) *)

Record vec3 : Type := Vec3 { vx : R; vy : R; vz : R }.

Record Atom : Type := mkAtom { element : string; coordinates : vec3 }.

(** What the code reads of a [PDBFileHandler]. *)
Record PDBFileHandler : Type := mkHandler {
  core_atoms : list Atom;
  shell_atoms : list Atom
}.

(** [pdb_handler.core_atoms + pdb_handler.shell_atoms] *)
Definition all_atoms (h : PDBFileHandler) : list Atom := core_atoms h ++ shell_atoms h.

(** The charge table: element -> (formal charge, reference coordination). *)
Definition FormalChargeTable := dict string (Z * Z).

(** [self.charges.get(atom.element, (0, 0))[0]] *)
Definition charge_or_zero (charges : FormalChargeTable) (el : string) : Z :=
  fst (match PyDict.get el charges with Some t => t | None => (0, 0)%Z end).

(** ** Charge aggregator *)

(** [calculate_cluster_charge]: two loops over the core and the shell atoms
    adding to one accumulator that starts at [0.0]. *)
Definition calculate_cluster_charge (charges : FormalChargeTable) (h : PDBFileHandler) : Z :=
  let add_charge (total_charge : Z) (atom : Atom) :=
    (total_charge + charge_or_zero charges (element atom))%Z in
  let total_charge := fold_left add_charge (core_atoms h) 0%Z in
  fold_left add_charge (shell_atoms h) total_charge.

(** Sum of a list of integers. *)
Definition Zsum (l : list Z) : Z := fold_right Z.add 0%Z l.

Lemma fold_left_add_Zsum {A} (f : A -> Z) (l : list A) (acc : Z) :
  fold_left (fun t a => (t + f a)%Z) l acc = (acc + Zsum (map f l))%Z.
Proof.
  revert acc. induction l as [| a l IH]; intros acc; simpl.
  - lia.
  - rewrite IH. lia.
Qed.

Lemma Zsum_app l1 l2 : Zsum (l1 ++ l2) = (Zsum l1 + Zsum l2)%Z.
Proof. induction l1 as [| a l1 IH]; simpl; lia. Qed.

(** C9.  The charge aggregator returns the sum, over every atom of the core
    and shell groups, of the tabulated formal charge (first component of the
    element's table entry), an element without entry counting 0; two atoms of
    charge +2 and three of charge -1 total +1. *)
Theorem calculate_cluster_charge_sum :
  (forall (charges : FormalChargeTable) (h : PDBFileHandler),
      calculate_cluster_charge charges h
      = Zsum (map (fun a => match PyDict.get (element a) charges with
                            | Some (charge, _) => charge
                            | None => 0%Z
                            end) (all_atoms h)))
  /\ (forall pA pB : vec3,
      let charges := [("A", (2, 6)); ("B", (-1, 6))]%string%Z in
      let A := mkAtom "A" pA in
      let B := mkAtom "B" pB in
      calculate_cluster_charge charges (mkHandler [A; A] [B; B; B]) = 1%Z)
  /\ (forall (charges : FormalChargeTable) (h : PDBFileHandler),
      (forall a, In a (all_atoms h) -> PyDict.get (element a) charges = None) ->
      calculate_cluster_charge charges h = 0%Z).
Proof.
  assert (Hsum : forall (charges : FormalChargeTable) (h : PDBFileHandler),
      calculate_cluster_charge charges h
      = Zsum (map (fun a => match PyDict.get (element a) charges with
                            | Some (charge, _) => charge
                            | None => 0%Z
                            end) (all_atoms h))).
  { intros charges h. unfold calculate_cluster_charge, all_atoms.
    rewrite !fold_left_add_Zsum, map_app, Zsum_app, Z.add_0_l.
    f_equal; f_equal; apply map_ext; intros a; unfold charge_or_zero;
      destruct (PyDict.get (element a) charges) as [[c n] |]; reflexivity. }
  split; [exact Hsum | split].
  - intros pA pB. reflexivity.
  - intros charges h Hnone. rewrite Hsum.
    induction (all_atoms h) as [| a l IH]; simpl; [reflexivity |].
    rewrite (Hnone a) by now left. rewrite IH; [reflexivity |].
    intros b Hb. apply Hnone. now right.
Qed.

(** ** Geometry on real coordinates *)

Local Open Scope R_scope.

Definition vsub (p q : vec3) : vec3 := Vec3 (vx p - vx q) (vy p - vy q) (vz p - vz q).
Definition vadd (p q : vec3) : vec3 := Vec3 (vx p + vx q) (vy p + vy q) (vz p + vz q).
Definition vscale (c : R) (p : vec3) : vec3 := Vec3 (c * vx p) (c * vy p) (c * vz p).
Definition vdiv (p : vec3) (c : R) : vec3 := Vec3 (vx p / c) (vy p / c) (vz p / c).

(** [np.dot(p, q)] *)
Definition dot (p q : vec3) : R := vx p * vx q + vy p * vy q + vz p * vz q.

(** [np.sum(p ** 2)] *)
Definition sqnorm (p : vec3) : R := vx p ^ 2 + vy p ^ 2 + vz p ^ 2.

(** [np.linalg.norm(p)] *)
Definition norm (p : vec3) : R := sqrt (sqnorm p).

Lemma sqnorm_nonneg p : 0 <= sqnorm p.
Proof. unfold sqnorm. nra. Qed.

Lemma norm_nonneg p : 0 <= norm p.
Proof. apply sqrt_pos. Qed.

Lemma norm_sq p : norm p ^ 2 = sqnorm p.
Proof. unfold norm. apply pow2_sqrt, sqnorm_nonneg. Qed.

Lemma norm_vscale c p : norm (vscale c p) = Rabs c * norm p.
Proof.
  unfold norm. replace (sqnorm (vscale c p)) with (c ^ 2 * sqnorm p)
    by (unfold sqnorm, vscale; simpl; ring).
  rewrite sqrt_mult; [| nra | apply sqnorm_nonneg].
  f_equal. replace (c ^ 2) with (Rsqr c) by (unfold Rsqr; ring). apply sqrt_Rsqr_abs.
Qed.

(** Sums, mean and population standard deviation ([np.mean], [np.std]). *)
Definition Rsum (l : list R) : R := fold_right Rplus 0 l.

Definition np_mean (l : list R) : R := Rsum l / INR (List.length l).

Definition np_std (l : list R) : R :=
  sqrt (np_mean (map (fun x => (x - np_mean l) ^ 2) l)).

Lemma Rsum_app l1 l2 : Rsum (l1 ++ l2) = Rsum l1 + Rsum l2.
Proof. induction l1 as [| a l1 IH]; simpl; lra. Qed.

(** ** Coordination counter *)

(** The part of the analyzer's configuration read by the measurements. *)
Record Config : Type := mkConfig {
  target_elements : list string;
  neighbor_elements : list string;
  distance_thresholds : dict (string * string) R;
  charges : FormalChargeTable;
  volume_method : string
}.

(** [are_connected]: the distance between the two atoms is at most the
    threshold. *)
Definition are_connected (atom1 atom2 : Atom) (threshold : R) : bool :=
  let distance := norm (vsub (coordinates atom1) (coordinates atom2)) in
  if Rle_dec distance threshold then true else false.

(** [{neighbor: 0 for neighbor in self.neighbor_elements}] *)
Definition zero_counts (neighbors : list string) : dict string nat :=
  fold_left (fun d n => PyDict.set n 0%nat d) neighbors [].

(** The body of the inner loop of [calculate_coordination_numbers] for one
    [other_atom]: the loop runs over every atom of the structure. *)
Definition count_step (cfg : Config) (atom : Atom) (counts : dict string nat)
    (other_atom : Atom) : dict string nat :=
  if mem (element other_atom) (neighbor_elements cfg) then
    let pair_key := (element atom, element other_atom) in
    match PyDict.get pair_key (distance_thresholds cfg) with
    | Some threshold =>
        if are_connected atom other_atom threshold
        then PyDict.update 0%nat S (element other_atom) counts
        else counts
    | None => counts
    end
  else counts.

(** The [counts] dictionary of one target atom after the inner loop. *)
Definition neighbor_counts (cfg : Config) (h : PDBFileHandler) (atom : Atom) : dict string nat :=
  fold_left (count_step cfg atom) (all_atoms h) (zero_counts (neighbor_elements cfg)).

(** [coordination_numbers[(atom.element, neighbor)].append(count)] for every
    item of [counts]. *)
Definition append_counts (atom : Atom) (counts : dict string nat)
    (coordination_numbers : dict (string * string) (list nat)) :=
  fold_left (fun cn '(neighbor, count) =>
               PyDict.update [] (fun l => l ++ [count]) (element atom, neighbor) cn)
            counts coordination_numbers.

(** [calculate_coordination_numbers]: the mean and the population standard
    deviation of the counts, per (target element, neighbor element). *)
Definition coordination_numbers (cfg : Config) (h : PDBFileHandler)
    (target_atoms : list Atom) : dict (string * string) (list nat) :=
  fold_left (fun cn atom => append_counts atom (neighbor_counts cfg h atom) cn)
            target_atoms [].

Definition calculate_coordination_numbers (cfg : Config) (h : PDBFileHandler)
    (target_atoms : list Atom) : dict (string * string) (R * R) :=
  map (fun '(pair_key, counts) =>
         let counts := map INR counts in
         (pair_key, (np_mean counts, np_std counts)))
      (coordination_numbers cfg h target_atoms).

(** *** What the counter counts *)

(** The pair (target atom, other atom) is counted: a threshold is configured
    for the directional key and the distance is within it. *)
Definition within_threshold (cfg : Config) (atom other_atom : Atom) : bool :=
  match PyDict.get (element atom, element other_atom) (distance_thresholds cfg) with
  | Some threshold => are_connected atom other_atom threshold
  | None => false
  end.

Lemma zero_counts_get_from (ns : list string) (d : dict string nat) (n : string) :
  PyDict.get n (fold_left (fun d n => PyDict.set n 0%nat d) ns d)
  = if mem n ns then Some 0%nat else PyDict.get n d.
Proof.
  revert d. induction ns as [| m ns IH]; intros d; simpl; [reflexivity |].
  rewrite IH. unfold eqb. destruct (eq_dec n m) as [-> | Hne]; simpl.
  - destruct (mem m ns); [reflexivity | apply PyDict.get_set_eq].
  - destruct (mem n ns); [reflexivity |]. apply PyDict.get_set_ne. congruence.
Qed.

Lemma zero_counts_get (ns : list string) (n : string) :
  In n ns -> PyDict.get n (zero_counts ns) = Some 0%nat.
Proof.
  intros Hin. unfold zero_counts. rewrite zero_counts_get_from.
  apply mem_In in Hin. now rewrite Hin.
Qed.

Lemma count_step_get (cfg : Config) (atom other_atom : Atom) counts (n : string) (c : nat) :
  In n (neighbor_elements cfg) ->
  PyDict.get n counts = Some c ->
  PyDict.get n (count_step cfg atom counts other_atom)
  = Some (if eqb (element other_atom) n && within_threshold cfg atom other_atom
          then S c else c).
Proof.
  intros Hn Hc. unfold count_step, within_threshold, eqb.
  destruct (eq_dec (element other_atom) n) as [He | Hne]; simpl.
  - rewrite He. apply mem_In in Hn. rewrite Hn.
    destruct (PyDict.get (element atom, n) (distance_thresholds cfg)) as [thr |]; [| exact Hc].
    destruct (are_connected atom other_atom thr); [| exact Hc].
    unfold PyDict.update. rewrite Hc. apply PyDict.get_set_eq.
  - destruct (mem (element other_atom) (neighbor_elements cfg)); [| exact Hc].
    destruct (PyDict.get _ (distance_thresholds cfg)) as [thr |]; [| exact Hc].
    destruct (are_connected atom other_atom thr); [| exact Hc].
    unfold PyDict.update. rewrite PyDict.get_set_ne by assumption. exact Hc.
Qed.

(** For each configured neighbor element the count starts at zero and ends
    as the number of atoms of the structure, the target atom included when
    it is listed there, that have this element and lie within the threshold
    configured for the directional pair. *)
Lemma neighbor_counts_get (cfg : Config) (h : PDBFileHandler) (atom : Atom) (n : string) :
  In n (neighbor_elements cfg) ->
  PyDict.get n (neighbor_counts cfg h atom)
  = Some (List.length (filter (fun o => eqb (element o) n && within_threshold cfg atom o)
                              (all_atoms h))).
Proof.
  intros Hn. unfold neighbor_counts.
  assert (Hgen : forall l counts c, PyDict.get n counts = Some c ->
    PyDict.get n (fold_left (count_step cfg atom) l counts)
    = Some (c + List.length (filter (fun o => eqb (element o) n && within_threshold cfg atom o) l))%nat).
  { induction l as [| o l IH]; intros counts c Hc; simpl.
    - rewrite Hc. f_equal. lia.
    - erewrite IH by (apply count_step_get; eassumption).
      destruct (eqb (element o) n && within_threshold cfg atom o); simpl; f_equal; lia. }
  erewrite Hgen by (apply zero_counts_get; exact Hn). reflexivity.
Qed.

Lemma are_connected_self (a : Atom) (threshold : R) :
  0 <= threshold -> are_connected a a threshold = true.
Proof.
  intros Hthr. unfold are_connected.
  replace (norm (vsub (coordinates a) (coordinates a))) with 0.
  - destruct (Rle_dec 0 threshold); [reflexivity | contradiction].
  - unfold norm, sqnorm, vsub; simpl.
    replace (_ + _ + _) with 0 by ring. symmetry. apply sqrt_0.
Qed.

(** C4, evaluated on a structure with a single lead atom, lead configured
    both as target and as neighbor element with a Pb-Pb threshold: the loop
    over the structure's atoms meets the target atom itself, at distance 0,
    and counts it, so the atom that has no other atom around it is reported
    with one Pb neighbor. *)
Theorem coordination_counts_target_atom_itself :
  let cfg := mkConfig ["Pb"%string] ["Pb"%string]
                      [(("Pb"%string, "Pb"%string), 3)] [] "ionic_radius" in
  let pb := mkAtom "Pb" (Vec3 0 0 0) in
  let h := mkHandler [pb] [] in
  filter (fun o => eqb (element o) "Pb"%string) (tl (all_atoms h)) = []
  /\ PyDict.get "Pb"%string (neighbor_counts cfg h pb) = Some 1%nat
  /\ coordination_numbers cfg h [pb] = [(("Pb"%string, "Pb"%string), [1%nat])]
  /\ exists mean std,
       calculate_coordination_numbers cfg h [pb] = [(("Pb"%string, "Pb"%string), (mean, std))]
       /\ mean = 1.
Proof.
  intros cfg pb h.
  assert (Hc : neighbor_counts cfg h pb = [("Pb"%string, 1%nat)]).
  { unfold neighbor_counts, h, all_atoms. simpl.
    unfold count_step. simpl.
    rewrite are_connected_self by lra. reflexivity. }
  split; [reflexivity | split; [now rewrite Hc | split]].
  - unfold coordination_numbers. simpl. rewrite Hc. reflexivity.
  - unfold calculate_coordination_numbers, coordination_numbers. simpl. rewrite Hc. simpl.
    eexists; eexists; split; [reflexivity |].
    unfold np_mean; simpl. field.
Qed.

(** ** Diagnostics printed by the analyzer

    Only the warnings and error reports are recorded; the informational
    progress lines of the radius-lookup builder are left out. *)
Inductive diagnostic : Type :=
| InvalidCoordination (atom_type : string) (coordination : Z)
| UsingCovalentRadius (atom_type : string)
| NoRadiusFound (atom_type : string) (charge : Z)
| VolumeIsNone (el : string) (charge : Z)
| NoRadiusInLookup (el : string) (charge : Z)
| NotEnoughAtoms
| ErrorProcessingFile (pdb_file : string) (e : exn).

(** ** Element property table (the [mendeleev] package, external) *)

Module Mendeleev.
(** One tabulated ionic radius, in pm. *)
Record IonicRadius : Type := mkIonicRadius {
  charge : Z;
  coordination : string;
  ionic_radius : R
}.

(** The attributes the code reads of [element(symbol)]; a covalent radius
    missing from the data is [None]. *)
Record Element : Type := mkElement {
  electrons : Z;
  ionic_radii : list IonicRadius;
  covalent_radius : option R
}.
End Mendeleev.

(** ** Radius-lookup builder *)

(** The value stored under a key of [radius_lookup]:
    [{'ionic_radius': ..., 'volume': ...}], each possibly [None]. *)
Record RadiusEntry : Type := mkEntry {
  entry_ionic_radius : option R;
  entry_volume : option R
}.

Definition RadiusLookup := dict (string * Z) RadiusEntry.

(** [(4/3) * np.pi * (radius ** 3)] *)
Definition sphere_volume (radius : R) : R := 4 / 3 * PI * radius ^ 3.

Definition to_roman (n : Z) : option string :=
  match n with
  | 1%Z => Some "I" | 2%Z => Some "II" | 3%Z => Some "III" | 4%Z => Some "IV"
  | 5%Z => Some "V" | 6%Z => Some "VI" | 7%Z => Some "VII" | 8%Z => Some "VIII"
  | 9%Z => Some "IX" | 10%Z => Some "X" | 11%Z => Some "XI" | 12%Z => Some "XII"
  | 13%Z => Some "XIII" | 14%Z => Some "XIV" | 15%Z => Some "XV"
  | _ => None
  end%string.

(** State of the builder's loop: the lookup, [radii_list] and the warnings. *)
Record BuilderState : Type := mkBuilder {
  b_lookup : RadiusLookup;
  b_radii_list : list (option R);
  b_log : list diagnostic
}.

Section RadiusLookupBuilder.
(** [mendeleev.element]; it raises on a symbol it does not know. *)
Variable mendeleev_element : string -> result Mendeleev.Element.

(** [next((ir for ir in elem.ionic_radii if ir.charge == charge and
    ir.coordination == roman_coordination), None)] *)
Definition matching_radius (elem : Mendeleev.Element) (charge : Z) (roman : string)
  : option Mendeleev.IonicRadius :=
  find (fun ir => Z.eqb (Mendeleev.charge ir) charge
                  && String.eqb (Mendeleev.coordination ir) roman)
       (Mendeleev.ionic_radii elem).

(** One iteration of the loop over [self.charges.items()]. *)
Definition build_step (st : BuilderState) (item : string * (Z * Z)) : result BuilderState :=
  let '(atom_type, (charge, coordination)) := item in
  let key := (atom_type, charge) in
  match to_roman coordination with
  | None =>
      Ok (mkBuilder (b_lookup st) (b_radii_list st)
                    (b_log st ++ [InvalidCoordination atom_type coordination]))
  | Some roman_coordination =>
      if PyDict.has key (b_lookup st) then Ok st
      else
        elem <- mendeleev_element atom_type ;;
        match matching_radius elem charge roman_coordination with
        | Some ir =>
            let radius := Mendeleev.ionic_radius ir / 100 in
            let volume := sphere_volume radius in
            Ok (mkBuilder
                  (PyDict.set key (mkEntry (Some radius) (Some volume)) (b_lookup st))
                  (b_radii_list st ++ [Some radius])
                  (b_log st))
        | None =>
            match Mendeleev.covalent_radius elem with
            | None =>
                (* [elem.covalent_radius / 100.0] on [None] *)
                Raise (TypeError "unsupported operand type(s) for /: 'NoneType' and 'float'")
            | Some cr =>
                let covalent_radius := cr / 100 in
                if Req_dec_T covalent_radius 0 then
                  (* [if covalent_radius:] is false for 0.0 only *)
                  Ok (mkBuilder
                        (PyDict.set key (mkEntry None None) (b_lookup st))
                        (b_radii_list st ++ [None])
                        (b_log st ++ [NoRadiusFound atom_type charge]))
                else
                  let volume := sphere_volume covalent_radius in
                  Ok (mkBuilder
                        (PyDict.set key (mkEntry (Some covalent_radius) (Some volume))
                                    (b_lookup st))
                        (b_radii_list st)
                        (b_log st ++ [UsingCovalentRadius atom_type]))
            end
        end
  end.

Fixpoint build_loop (items : list (string * (Z * Z))) (st : BuilderState)
  : result BuilderState :=
  match items with
  | [] => Ok st
  | item :: items' => st' <- build_step st item ;; build_loop items' st'
  end.

(** [build_ionic_radius_lookup] *)
Definition build_ionic_radius_lookup (charges : FormalChargeTable) : result BuilderState :=
  build_loop charges (mkBuilder [] [] []).

(** *** Invariants of the builder *)

(** An entry is well formed: its volume is the sphere volume of its stored
    radius, or both are absent. *)
Definition entry_ok (e : RadiusEntry) : Prop :=
  (exists r, entry_ionic_radius e = Some r /\ entry_volume e = Some (sphere_volume r))
  \/ (entry_ionic_radius e = None /\ entry_volume e = None).

Definition lookup_ok (lk : RadiusLookup) : Prop :=
  NoDup (PyDict.keys lk) /\ Forall (fun kv => entry_ok (snd kv)) lk.

Lemma Forall_set (P : RadiusEntry -> Prop) key e (lk : RadiusLookup) :
  P e -> Forall (fun kv => P (snd kv)) lk ->
  Forall (fun kv => P (snd kv)) (PyDict.set key e lk).
Proof.
  intros He. induction 1 as [| [k v] lk Hv Hlk IH]; simpl.
  - now repeat constructor.
  - destruct (eq_dec key k); constructor; auto.
Qed.

Lemma lookup_ok_set key e lk : entry_ok e -> lookup_ok lk -> lookup_ok (PyDict.set key e lk).
Proof.
  intros He [Hnd Hall]. split; [now apply PyDict.NoDup_keys_set | now apply Forall_set].
Qed.

Lemma build_step_ok st item st' :
  build_step st item = Ok st' -> lookup_ok (b_lookup st) -> lookup_ok (b_lookup st').
Proof.
  destruct item as [atom_type [charge coordination]]. unfold build_step.
  destruct (to_roman coordination) as [roman |]; [| intros [= <-]; trivial].
  destruct (PyDict.has _ _); [intros [= <-]; trivial |].
  destruct (mendeleev_element atom_type) as [elem | e]; simpl; [| discriminate].
  destruct (matching_radius elem charge roman) as [ir |].
  - intros [= <-] Hok. simpl. apply lookup_ok_set; [| assumption].
    left. eexists. split; reflexivity.
  - destruct (Mendeleev.covalent_radius elem) as [cr |]; [| discriminate].
    destruct (Req_dec_T (cr / 100) 0); intros [= <-] Hok; simpl;
      (apply lookup_ok_set; [| assumption]);
      [right; split; reflexivity | left; eexists; split; reflexivity].
Qed.

(** Whenever the builder returns, its lookup holds at most one entry per
    (element, charge) key and every entry is well formed. *)
Lemma build_ionic_radius_lookup_ok charges st :
  build_ionic_radius_lookup charges = Ok st -> lookup_ok (b_lookup st).
Proof.
  unfold build_ionic_radius_lookup.
  assert (Hgen : forall items st0, build_loop items st0 = Ok st ->
                                   lookup_ok (b_lookup st0) -> lookup_ok (b_lookup st)).
  { induction items as [| item items IH]; intros st0; simpl.
    - now intros [= <-].
    - destruct (build_step st0 item) as [st1 |] eqn:Hstep; simpl; [| discriminate].
      intros Hloop Hok. eapply IH; [eassumption |]. eapply build_step_ok; eassumption. }
  intros Hb. eapply Hgen; [eassumption |]. split; constructor.
Qed.

(** A charge-table entry whose label has an exact match stores the matching
    ionic radius; without match it stores the covalent radius when that is
    a nonzero number. *)
Lemma build_step_stores st atom_type charge coordination roman elem :
  to_roman coordination = Some roman ->
  PyDict.has (atom_type, charge) (b_lookup st) = false ->
  mendeleev_element atom_type = Ok elem ->
  match matching_radius elem charge roman, Mendeleev.covalent_radius elem with
  | Some ir, _ =>
      exists st', build_step st (atom_type, (charge, coordination)) = Ok st'
        /\ PyDict.get (atom_type, charge) (b_lookup st')
           = Some (mkEntry (Some (Mendeleev.ionic_radius ir / 100))
                           (Some (sphere_volume (Mendeleev.ionic_radius ir / 100))))
  | None, Some cr =>
      exists st', build_step st (atom_type, (charge, coordination)) = Ok st'
        /\ PyDict.get (atom_type, charge) (b_lookup st')
           = Some (if Req_dec_T (cr / 100) 0 then mkEntry None None
                   else mkEntry (Some (cr / 100)) (Some (sphere_volume (cr / 100))))
  | None, None =>
      exists msg, build_step st (atom_type, (charge, coordination)) = Raise (TypeError msg)
  end.
Proof.
  intros Hroman Hhas Helem. unfold build_step. rewrite Hroman, Hhas, Helem. simpl.
  destruct (matching_radius elem charge roman) as [ir |].
  - eexists. split; [reflexivity |]. simpl. apply PyDict.get_set_eq.
  - destruct (Mendeleev.covalent_radius elem) as [cr |]; [| eauto].
    destruct (Req_dec_T (cr / 100) 0); eexists; (split; [reflexivity |]);
      simpl; apply PyDict.get_set_eq.
Qed.
End RadiusLookupBuilder.

(** ** Ionic-sphere summation *)

(** The grouping key of an atom: [(atom.element, self.charges.get(atom.element, (0, 0))[0])] *)
Definition group_key (charges : FormalChargeTable) (atom : Atom) : string * Z :=
  (element atom, charge_or_zero charges (element atom)).

(** [element_counts], a [defaultdict(int)] filled by the loop over all atoms. *)
Definition element_counts (charges : FormalChargeTable) (atoms : list Atom)
  : dict (string * Z) nat :=
  fold_left (fun ec atom => PyDict.update 0%nat S (group_key charges atom) ec) atoms [].

(** One iteration of the summation loop over [element_counts.items()]. *)
Definition volume_step (radius_lookup : RadiusLookup) (acc : R * list diagnostic)
    (item : (string * Z) * nat) : R * list diagnostic :=
  let '(total_volume, log) := acc in
  let '(key, count) := item in
  match PyDict.get key radius_lookup with
  | Some entry =>
      match entry_volume entry with
      | Some volume => (total_volume + INR count * volume, log)
      | None => (total_volume, log ++ [VolumeIsNone (fst key) (snd key)])
      end
  | None => (total_volume, log ++ [NoRadiusInLookup (fst key) (snd key)])
  end.

(** [estimate_total_molecular_volume]: the returned total and the warnings
    printed on the way.  No path of the function raises. *)
Definition estimate_total_molecular_volume (radius_lookup : RadiusLookup)
    (charges : FormalChargeTable) (h : PDBFileHandler) : R * list diagnostic :=
  fold_left (volume_step radius_lookup) (element_counts charges (all_atoms h)) (0, []).

(** The volume a group adds per atom: its entry's volume, and nothing when
    the entry or its volume is missing. *)
Definition group_volume (radius_lookup : RadiusLookup) (key : string * Z) : R :=
  match PyDict.get key radius_lookup with
  | Some entry => match entry_volume entry with Some v => v | None => 0 end
  | None => 0
  end.

(** The warning printed for a group without usable volume. *)
Definition group_warning (radius_lookup : RadiusLookup) (key : string * Z) : list diagnostic :=
  match PyDict.get key radius_lookup with
  | Some entry =>
      match entry_volume entry with
      | Some _ => []
      | None => [VolumeIsNone (fst key) (snd key)]
      end
  | None => [NoRadiusInLookup (fst key) (snd key)]
  end.

Definition weighted_total (radius_lookup : RadiusLookup) (ec : dict (string * Z) nat) : R :=
  Rsum (map (fun '(key, count) => INR count * group_volume radius_lookup key) ec).

Lemma volume_loop_spec radius_lookup ec total log :
  fold_left (volume_step radius_lookup) ec (total, log)
  = (total + weighted_total radius_lookup ec,
     log ++ flat_map (group_warning radius_lookup) (PyDict.keys ec)).
Proof.
  revert total log. induction ec as [| [key count] ec IH]; intros total log; simpl.
  - unfold weighted_total; simpl. rewrite app_nil_r. f_equal. lra.
  - unfold weighted_total in *. simpl. unfold group_volume at 1, group_warning at 1.
    destruct (PyDict.get key radius_lookup) as [entry |];
      [destruct (entry_volume entry) as [v |] |];
      rewrite IH; simpl; rewrite <- ?app_assoc; simpl; f_equal; lra.
Qed.

Lemma weighted_total_set radius_lookup key count (ec : dict (string * Z) nat) :
  weighted_total radius_lookup (PyDict.set key count ec)
  = weighted_total radius_lookup ec
    + (INR count - INR (match PyDict.get key ec with Some c => c | None => 0%nat end))
      * group_volume radius_lookup key.
Proof.
  unfold weighted_total.
  induction ec as [| [k c] ec IH]; simpl.
  - lra.
  - destruct (eq_dec key k) as [-> | Hne]; simpl.
    + lra.
    + rewrite IH. lra.
Qed.

Lemma weighted_total_update radius_lookup key ec :
  weighted_total radius_lookup (PyDict.update 0%nat S key ec)
  = weighted_total radius_lookup ec + group_volume radius_lookup key.
Proof.
  unfold PyDict.update. rewrite weighted_total_set.
  destruct (PyDict.get key ec) as [c |]; rewrite S_INR; simpl; lra.
Qed.

Lemma weighted_total_element_counts radius_lookup charges atoms :
  weighted_total radius_lookup (element_counts charges atoms)
  = Rsum (map (fun a => group_volume radius_lookup (group_key charges a)) atoms).
Proof.
  unfold element_counts.
  assert (Hgen : forall ec,
    weighted_total radius_lookup
      (fold_left (fun ec atom => PyDict.update 0%nat S (group_key charges atom) ec) atoms ec)
    = weighted_total radius_lookup ec
      + Rsum (map (fun a => group_volume radius_lookup (group_key charges a)) atoms)).
  { induction atoms as [| a atoms IH]; intros ec; simpl.
    - lra.
    - rewrite IH, weighted_total_update. lra. }
  rewrite Hgen. unfold weighted_total at 1; simpl. lra.
Qed.

Lemma element_counts_keys charges atoms a :
  In a atoms -> In (group_key charges a) (PyDict.keys (element_counts charges atoms)).
Proof.
  unfold element_counts.
  assert (Hkeep : forall l (ec : dict (string * Z) nat) k, In k (PyDict.keys ec) ->
    In k (PyDict.keys (fold_left
            (fun ec atom => PyDict.update 0%nat S (group_key charges atom) ec) l ec))).
  { induction l as [| b l IH]; intros ec k Hk; simpl; [assumption |].
    apply IH. unfold PyDict.update.
    destruct (in_dec eq_dec (group_key charges b) (PyDict.keys ec)) as [Hi | Hn].
    - now rewrite PyDict.keys_set_in.
    - rewrite PyDict.keys_set_notin by assumption. apply in_or_app. now left. }
  generalize (@nil ((string * Z) * nat)).
  induction atoms as [| b atoms IH]; intros ec Hin; [destruct Hin |].
  destruct Hin as [<- | Hin]; simpl.
  - apply Hkeep. unfold PyDict.update.
    destruct (in_dec eq_dec (group_key charges b) (PyDict.keys ec)) as [Hi | Hn].
    + now rewrite PyDict.keys_set_in.
    + rewrite PyDict.keys_set_notin by assumption. apply in_or_app. right. now left.
  - now apply IH.
Qed.

(** C3 as the code has it.  The ionic-sphere estimator never fails: it
    returns the sum, over the atoms of the core and shell groups, of the
    sphere volume stored for the atom's (element, charge) group, an atom
    whose group has no lookup entry or an entry without volume adding
    nothing, and it prints one warning for each such group. *)
Theorem estimate_total_molecular_volume_skips_missing
    (radius_lookup : RadiusLookup) (charges : FormalChargeTable) (h : PDBFileHandler) :
  fst (estimate_total_molecular_volume radius_lookup charges h)
  = Rsum (map (fun a => group_volume radius_lookup (group_key charges a)) (all_atoms h))
  /\ forall a, In a (all_atoms h) ->
       let key := group_key charges a in
       match PyDict.get key radius_lookup with
       | None =>
           group_volume radius_lookup key = 0
           /\ In (NoRadiusInLookup (fst key) (snd key))
                 (snd (estimate_total_molecular_volume radius_lookup charges h))
       | Some entry =>
           match entry_volume entry with
           | None =>
               group_volume radius_lookup key = 0
               /\ In (VolumeIsNone (fst key) (snd key))
                     (snd (estimate_total_molecular_volume radius_lookup charges h))
           | Some v => group_volume radius_lookup key = v
           end
       end.
Proof.
  unfold estimate_total_molecular_volume. rewrite volume_loop_spec. simpl. split.
  - rewrite weighted_total_element_counts. lra.
  - intros a Ha. cbv zeta.
    pose proof (element_counts_keys charges _ a Ha) as Hk.
    set (key := group_key charges a) in *.
    assert (Hw : forall w, In w (group_warning radius_lookup key) ->
      In w (flat_map (group_warning radius_lookup)
                     (PyDict.keys (element_counts charges (all_atoms h))))).
    { intros w Hin. apply in_flat_map. exists key. now split. }
    unfold group_volume, group_warning in *.
    destruct (PyDict.get key radius_lookup) as [entry |];
      [destruct (entry_volume entry) as [v |] |];
      try reflexivity; (split; [reflexivity | apply Hw; now left]).
Qed.

(** ** Convex-hull estimator *)

(** The points lie in one plane [{p | n . p = d}]. *)
Definition coplanar (points : list vec3) : Prop :=
  exists (n : vec3) (d : R), n <> Vec3 0 0 0 /\ forall p, In p points -> dot n p = d.

(** What [scipy.spatial.ConvexHull] promises on one point set: for four or
    more points that are not coplanar it returns a hull whose [volume] is the
    geometric volume [hull_volume points], a positive number. *)
Definition scipy_hull_contract (ConvexHull : list vec3 -> result R)
    (hull_volume : list vec3 -> R) (points : list vec3) : Prop :=
  (4 <= List.length points)%nat -> ~ coplanar points ->
  ConvexHull points = Ok (hull_volume points) /\ 0 < hull_volume points.

Section ConvexHullEstimator.
(** [ConvexHull(points).volume]; Qhull raises on degenerate input. *)
Variable ConvexHull : list vec3 -> result R.

(** [calculate_cluster_volume] *)
Definition calculate_cluster_volume (h : PDBFileHandler) : result R * list diagnostic :=
  let all_atoms := all_atoms h in
  if (List.length all_atoms <? 4)%nat then (Ok 0, [NotEnoughAtoms])
  else
    let points := map coordinates all_atoms in
    (volume <- ConvexHull points ;; Ok volume, []).
End ConvexHullEstimator.

(** C7.  With three or fewer atom positions the convex-hull estimator
    returns 0 with a diagnostic and no error; with four or more positions
    that are not coplanar it returns the volume of the hull of the positions
    of all core and shell atoms, which is positive. *)
Theorem calculate_cluster_volume_spec
    (ConvexHull : list vec3 -> result R) (hull_volume : list vec3 -> R)
    (h : PDBFileHandler) :
  let points := map coordinates (all_atoms h) in
  scipy_hull_contract ConvexHull hull_volume points ->
  ((List.length points <= 3)%nat ->
     calculate_cluster_volume ConvexHull h = (Ok 0, [NotEnoughAtoms]))
  /\ ((4 <= List.length points)%nat -> ~ coplanar points ->
     calculate_cluster_volume ConvexHull h = (Ok (hull_volume points), [])
     /\ 0 < hull_volume points).
Proof.
  intros points Hscipy. unfold calculate_cluster_volume.
  assert (Hlen : List.length points = List.length (all_atoms h)) by apply length_map.
  split.
  - intros Hle. destruct (Nat.ltb_spec (List.length (all_atoms h)) 4); [reflexivity | lia].
  - intros Hge Hnc. destruct (Hscipy Hge Hnc) as [Hv Hpos].
    destruct (Nat.ltb_spec (List.length (all_atoms h)) 4); [lia |].
    fold points. rewrite Hv. now split.
Qed.

(** The hull of four points is their tetrahedron, of volume |det| / 6. *)
Definition tetrahedron_volume (p0 p1 p2 p3 : vec3) : R :=
  let a := vsub p1 p0 in
  let b := vsub p2 p0 in
  let c := vsub p3 p0 in
  Rabs (vx a * (vy b * vz c - vz b * vy c)
        - vy a * (vx b * vz c - vz b * vx c)
        + vz a * (vx b * vy c - vy b * vx c)) / 6.

Definition four_point_volume (points : list vec3) : R :=
  match points with
  | [p0; p1; p2; p3] => tetrahedron_volume p0 p1 p2 p3
  | _ => 0
  end.

Definition corner_tetrahedron : PDBFileHandler :=
  mkHandler [mkAtom "Pb" (Vec3 0 0 0); mkAtom "I" (Vec3 1 0 0)]
            [mkAtom "I" (Vec3 0 1 0); mkAtom "I" (Vec3 0 0 1)].

Lemma corner_tetrahedron_not_coplanar :
  ~ coplanar (map coordinates (all_atoms corner_tetrahedron)).
Proof.
  intros [[nx ny nz] [d [Hn Hp]]]. apply Hn.
  pose proof (Hp (Vec3 0 0 0)) as H0. pose proof (Hp (Vec3 1 0 0)) as H1.
  pose proof (Hp (Vec3 0 1 0)) as H2. pose proof (Hp (Vec3 0 0 1)) as H3.
  unfold dot in *; simpl in *.
  assert (E0 : d = 0) by (rewrite <- H0 by tauto; ring).
  assert (E1 : nx = 0) by (rewrite <- E0, <- H1 by tauto; ring).
  assert (E2 : ny = 0) by (rewrite <- E0, <- H2 by tauto; ring).
  assert (E3 : nz = 0) by (rewrite <- E0, <- H3 by tauto; ring).
  now rewrite E1, E2, E3.
Qed.

Lemma corner_tetrahedron_volume :
  four_point_volume (map coordinates (all_atoms corner_tetrahedron)) = 1 / 6.
Proof.
  simpl. unfold tetrahedron_volume, vsub; simpl.
  replace (_ - _ + _) with 1 by ring. rewrite Rabs_R1. reflexivity.
Qed.

Lemma calculate_cluster_volume_spec_witness :
  calculate_cluster_volume (fun pts => Ok (four_point_volume pts)) corner_tetrahedron
  = (Ok (1 / 6), []).
Proof.
  pose proof (@calculate_cluster_volume_spec
                (fun pts => Ok (four_point_volume pts)) four_point_volume
                corner_tetrahedron) as Hspec.
  cbv zeta in Hspec. rewrite corner_tetrahedron_volume in Hspec.
  apply Hspec.
  - intros _ _. split; [reflexivity |]. rewrite corner_tetrahedron_volume. lra.
  - simpl. lia.
  - exact corner_tetrahedron_not_coplanar.
Defined.

(** ** Outward-facing-point estimator: the dodecahedral point set *)

(** The golden ratio, [(1 + np.sqrt(5)) / 2]. *)
Definition phi : R := (1 + sqrt 5) / 2.

(** The rows of [vertices] before normalisation; the first row is kept apart
    because the whole array is divided by its norm. *)
Definition first_vertex : vec3 := Vec3 (-1) (-1) (-1).

Definition other_vertices : list vec3 :=
  [ Vec3 1 (-1) (-1); Vec3 (-1) 1 (-1); Vec3 1 1 (-1);
    Vec3 (-1) (-1) 1; Vec3 1 (-1) 1; Vec3 (-1) 1 1; Vec3 1 1 1;
    Vec3 0 (-1 / phi) (- phi); Vec3 0 (1 / phi) (- phi);
    Vec3 0 (-1 / phi) phi; Vec3 0 (1 / phi) phi;
    Vec3 (-1 / phi) (- phi) 0; Vec3 (1 / phi) (- phi) 0;
    Vec3 (-1 / phi) phi 0; Vec3 (1 / phi) phi 0;
    Vec3 (- phi) 0 (-1 / phi); Vec3 phi 0 (-1 / phi);
    Vec3 (- phi) 0 (1 / phi); Vec3 phi 0 (1 / phi) ].

Definition raw_vertices : list vec3 := first_vertex :: other_vertices.

(** [generate_dodecahedron_vertices]: [vertices / np.linalg.norm(vertices[0])] *)
Definition generate_dodecahedron_vertices : list vec3 :=
  map (fun v => vdiv v (norm first_vertex)) raw_vertices.

(** [generate_outward_facing_points].  A position equal to the geometric
    center gives a direction of NaNs, no vertex passes the test, and adding
    the position to the empty array raises; the same would happen for any
    direction that no vertex faces. *)
Definition generate_outward_facing_points (position : vec3) (radius : R)
    (geometric_center : vec3) : result (list vec3) :=
  let direction := vsub position geometric_center in
  if Req_dec_T (norm direction) 0 then
    Raise (ValueError "operands could not be broadcast together")
  else
    let direction := vdiv direction (norm direction) in
    let vertices := generate_dodecahedron_vertices in
    let outward_facing_vertices :=
      filter (fun vertex => if Rlt_dec 0 (dot vertex direction) then true else false)
             vertices in
    match outward_facing_vertices with
    | [] => Raise (ValueError "operands could not be broadcast together")
    | _ => Ok (map (fun vertex => vadd position (vscale radius vertex))
                   outward_facing_vertices)
    end.

Lemma sqrt5_sq : sqrt 5 * sqrt 5 = 5.
Proof. apply sqrt_sqrt. lra. Qed.

Lemma phi_pos : 0 < phi.
Proof. unfold phi. pose proof (sqrt_pos 5). lra. Qed.

Lemma inv_phi : 1 / phi = phi - 1.
Proof.
  pose proof phi_pos. apply Rmult_eq_reg_r with phi; [| lra].
  unfold Rdiv. rewrite Rmult_assoc, Rinv_l by lra.
  unfold phi. pose proof sqrt5_sq. nra.
Qed.

Lemma neg_inv_phi : -1 / phi = 1 - phi.
Proof. replace (-1 / phi) with (- (1 / phi)) by (unfold Rdiv; ring). rewrite inv_phi. ring. Qed.

Lemma phi_sq : phi * phi = phi + 1.
Proof. unfold phi. pose proof sqrt5_sq. nra. Qed.

(** All twenty unnormalised vertices have squared norm 3. *)
Lemma raw_vertices_sqnorm : Forall (fun v => sqnorm v = 3) raw_vertices.
Proof.
  pose proof phi_sq as Hphi.
  unfold raw_vertices, first_vertex, other_vertices.
  repeat constructor; unfold sqnorm; simpl; rewrite ?inv_phi, ?neg_inv_phi; nra.
Qed.

Lemma norm_first_vertex : norm first_vertex = sqrt 3.
Proof. unfold norm. f_equal. unfold sqnorm, first_vertex; simpl. ring. Qed.

Lemma sqrt3_pos : 0 < sqrt 3.
Proof. apply sqrt_lt_R0. lra. Qed.

Lemma norm_vdiv v c : 0 < c -> norm (vdiv v c) = norm v / c.
Proof.
  intros Hc. replace (vdiv v c) with (vscale (/ c) v)
    by (unfold vdiv, vscale, Rdiv; f_equal; ring).
  rewrite norm_vscale, Rabs_pos_eq; [unfold Rdiv; ring |].
  left. now apply Rinv_0_lt_compat.
Qed.

Lemma dodecahedron_vertices_unit :
  Forall (fun v => norm v = 1) generate_dodecahedron_vertices.
Proof.
  unfold generate_dodecahedron_vertices. apply Forall_map.
  eapply Forall_impl; [| exact raw_vertices_sqnorm].
  intros v Hv. simpl. rewrite norm_first_vertex, norm_vdiv by apply sqrt3_pos.
  unfold norm. rewrite Hv. pose proof sqrt3_pos. field. lra.
Qed.

Lemma pos_sum_of_squares (a b c : R) :
  0 <= a -> 0 <= b -> 0 <= c -> 0 < a * a + b * b + c * c -> 0 < a + b + c.
Proof.
  intros Ha Hb Hc Hsq. destruct (Rlt_dec 0 (a + b + c)) as [Hlt | Hge]; [assumption |].
  assert (a = 0) by lra. assert (b = 0) by lra. assert (c = 0) by lra. subst. lra.
Qed.

(** Pick the normalised cube corner with the given signs as the vertex that
    faces the direction; [Hscale] reduces the dot product to the signs. *)
Ltac cube_corner sx sy sz Hscale :=
  exists (vdiv (Vec3 sx sy sz) (norm first_vertex));
  split; [simpl; tauto | apply Hscale; lra].

(** A direction that is not zero is faced by one of the eight cube corners. *)
Lemma some_vertex_faces_outward (d : vec3) :
  norm d <> 0 ->
  exists v, In v generate_dodecahedron_vertices /\ 0 < dot v (vdiv d (norm d)).
Proof.
  intros Hn. pose proof (norm_nonneg d) as Hd0.
  assert (Hd : 0 < norm d) by lra.
  assert (Hsq : 0 < sqnorm d) by (rewrite <- norm_sq; nra).
  pose proof sqrt3_pos as H3.
  assert (Hscale : forall sx sy sz,
            0 <= sx * vx d -> 0 <= sy * vy d -> 0 <= sz * vz d ->
            sx * sx = 1 -> sy * sy = 1 -> sz * sz = 1 ->
            0 < dot (vdiv (Vec3 sx sy sz) (norm first_vertex)) (vdiv d (norm d))).
  { intros sx sy sz Hx Hy Hz Ex Ey Ez. rewrite norm_first_vertex. unfold dot, vdiv; simpl.
    replace (_ + _ + _) with ((sx * vx d + sy * vy d + sz * vz d) * (/ sqrt 3 * / norm d))
      by (field; lra).
    apply Rmult_lt_0_compat.
    - apply pos_sum_of_squares; try assumption.
      replace (_ + _ + _) with
        (sx * sx * vx d ^ 2 + sy * sy * vy d ^ 2 + sz * sz * vz d ^ 2) by ring.
      rewrite Ex, Ey, Ez. unfold sqnorm in Hsq. lra.
    - apply Rmult_lt_0_compat; now apply Rinv_0_lt_compat. }
  destruct (Rle_dec 0 (vx d)), (Rle_dec 0 (vy d)), (Rle_dec 0 (vz d)).
  - cube_corner 1 1 1 Hscale.
  - cube_corner 1 1 (-1) Hscale.
  - cube_corner 1 (-1) 1 Hscale.
  - cube_corner 1 (-1) (-1) Hscale.
  - cube_corner (-1) 1 1 Hscale.
  - cube_corner (-1) 1 (-1) Hscale.
  - cube_corner (-1) (-1) 1 Hscale.
  - cube_corner (-1) (-1) (-1) Hscale.
Qed.

Lemma norm_zero_iff (p q : vec3) : norm (vsub p q) = 0 <-> p = q.
Proof.
  split.
  - intros Hn. assert (Hs : sqnorm (vsub p q) = 0) by (rewrite <- norm_sq, Hn; ring).
    destruct p as [a b c], q as [a' b' c']. unfold sqnorm, vsub in Hs; cbn [vx vy vz] in Hs.
    pose proof (pow2_ge_0 (a - a')) as Ha. pose proof (pow2_ge_0 (b - b')) as Hb.
    pose proof (pow2_ge_0 (c - c')) as Hc.
    assert (Ea : (a - a') ^ 2 = 0) by lra. assert (Eb : (b - b') ^ 2 = 0) by lra.
    assert (Ec : (c - c') ^ 2 = 0) by lra.
    rewrite <- Rsqr_pow2 in Ea, Eb, Ec.
    apply Rsqr_eq_0 in Ea, Eb, Ec. f_equal; lra.
  - intros ->. unfold norm, sqnorm, vsub; simpl.
    replace (_ + _ + _) with 0 by ring. apply sqrt_0.
Qed.

(** Whatever the generator returns lies at distance [|radius|] from the
    position: the kept vertices have norm 1 and are scaled by the radius. *)
Lemma surface_points_distance (position : vec3) (radius : R) (geometric_center : vec3)
    (surface_points : list vec3) :
  generate_outward_facing_points position radius geometric_center = Ok surface_points ->
  Forall (fun p => norm (vsub p position) = Rabs radius) surface_points.
Proof.
  unfold generate_outward_facing_points.
  destruct (Req_dec_T (norm (vsub position geometric_center)) 0) as [Hz | Hnz];
    [discriminate |].
  set (direction := vdiv (vsub position geometric_center)
                         (norm (vsub position geometric_center))).
  set (keep := fun vertex : vec3 => if Rlt_dec 0 (dot vertex direction) then true else false).
  destruct (filter keep generate_dodecahedron_vertices) as [| w ws] eqn:Hf; [discriminate |].
  intros Hgen.
  assert (Hpoints : surface_points
                    = map (fun vertex => vadd position (vscale radius vertex)) (w :: ws))
    by (now injection Hgen).
  rewrite Hpoints. apply Forall_map, Forall_forall. intros u Hu.
  assert (Hunit : norm u = 1).
  { pose proof dodecahedron_vertices_unit as Hall. rewrite Forall_forall in Hall.
    apply Hall. rewrite <- Hf in Hu. apply filter_In in Hu. tauto. }
  replace (vsub (vadd position (vscale radius u)) position) with (vscale radius u)
    by (unfold vsub, vadd, vscale; simpl; f_equal; ring).
  rewrite norm_vscale, Hunit. ring.
Qed.

(** For an atom away from the geometric center some vertex faces outward,
    so the generator returns a non-empty set. *)
Lemma surface_points_exist (position : vec3) (radius : R) (geometric_center : vec3) :
  position <> geometric_center ->
  exists surface_points,
    generate_outward_facing_points position radius geometric_center = Ok surface_points
    /\ surface_points <> [].
Proof.
  intros Hne. unfold generate_outward_facing_points.
  destruct (Req_dec_T (norm (vsub position geometric_center)) 0) as [Hz | Hnz].
  { apply norm_zero_iff in Hz. contradiction. }
  set (direction := vdiv (vsub position geometric_center)
                         (norm (vsub position geometric_center))).
  set (keep := fun vertex : vec3 => if Rlt_dec 0 (dot vertex direction) then true else false).
  destruct (some_vertex_faces_outward _ Hnz) as [v [Hin Hdot]].
  assert (Hv : In v (filter keep generate_dodecahedron_vertices)).
  { apply filter_In. split; [assumption |]. unfold keep, direction.
    destruct (Rlt_dec 0 _); [reflexivity | contradiction]. }
  destruct (filter keep generate_dodecahedron_vertices) as [| w ws] eqn:Hf; [destruct Hv |].
  eexists. split; [reflexivity | discriminate].
Qed.

(** C10 as stated fails for a negative radius, such as the -38 (pm) that
    is tabulated for the hydrogen cation and that [fetch_ionic_radius]
    passes on unconverted: the surface points of an atom of radius -38 lie
    at distance 38 from it, not at distance -38. *)
Lemma negative_radius_points_not_at_radius :
  exists surface_points,
    generate_outward_facing_points (Vec3 1 0 0) (-38) (Vec3 0 0 0) = Ok surface_points
    /\ surface_points <> []
    /\ Forall (fun p => norm (vsub p (Vec3 1 0 0)) = 38) surface_points
    /\ Forall (fun p => norm (vsub p (Vec3 1 0 0)) <> -38) surface_points.
Proof.
  destruct (@surface_points_exist (Vec3 1 0 0) (-38) (Vec3 0 0 0))
    as [surface_points [Hgen Hne]].
  { intros Heq. injection Heq. lra. }
  exists surface_points. split; [exact Hgen | split; [exact Hne |]].
  pose proof (surface_points_distance _ _ _ Hgen) as Hdist.
  assert (Habs : Rabs (-38) = 38).
  { unfold Rabs. destruct (Rcase_abs (-38)); lra. }
  rewrite Habs in Hdist. split; [exact Hdist |].
  eapply Forall_impl; [| exact Hdist]. intros p Hp. cbn beta in Hp |- *. rewrite Hp. lra.
Qed.

(** C10 as the code has it.  Each of the 20 rows returned by the
    dodecahedron-vertex generator has Euclidean norm 1, the unnormalised
    rows all having norm [sqrt 3]; hence every surface point the
    outward-facing-point generator returns for an atom lies at distance
    exactly the absolute value of the radius from the atom's position,
    which is the radius itself when the radius is not negative; and for an
    atom that is not at the geometric center the generator returns a
    non-empty set of such points. *)
Theorem dodecahedron_unit_and_surface_points_at_abs_radius :
  List.length generate_dodecahedron_vertices = 20%nat
  /\ Forall (fun v => norm v = sqrt 3) raw_vertices
  /\ Forall (fun v => norm v = 1) generate_dodecahedron_vertices
  /\ (forall (position : vec3) (radius : R) (geometric_center : vec3)
             (surface_points : list vec3),
        generate_outward_facing_points position radius geometric_center = Ok surface_points ->
        Forall (fun p => norm (vsub p position) = Rabs radius) surface_points
        /\ (0 <= radius ->
            Forall (fun p => norm (vsub p position) = radius) surface_points))
  /\ (forall (position : vec3) (radius : R) (geometric_center : vec3),
        position <> geometric_center ->
        exists surface_points,
          generate_outward_facing_points position radius geometric_center = Ok surface_points
          /\ surface_points <> []).
Proof.
  split; [reflexivity | split; [| split; [exact dodecahedron_vertices_unit | split]]].
  - eapply Forall_impl; [| exact raw_vertices_sqnorm].
    intros v Hv. simpl. unfold norm. now rewrite Hv.
  - intros position radius center surface_points Hgen.
    pose proof (surface_points_distance _ _ _ Hgen) as Hdist.
    split; [exact Hdist |]. intros Hr. now rewrite Rabs_pos_eq in Hdist.
  - intros position radius center Hne. now apply surface_points_exist.
Qed.

Lemma dodecahedron_unit_and_surface_points_at_abs_radius_witness :
  exists surface_points,
    generate_outward_facing_points (Vec3 1 0 0) 2 (Vec3 0 0 0) = Ok surface_points
    /\ surface_points <> []
    /\ Forall (fun p => norm (vsub p (Vec3 1 0 0)) = 2) surface_points.
Proof.
  destruct dodecahedron_unit_and_surface_points_at_abs_radius as [_ [_ [_ [Hdist Hpts]]]].
  destruct (Hpts (Vec3 1 0 0) 2 (Vec3 0 0 0)) as [surface_points [Hgen Hne]].
  - intros Heq. injection Heq. lra.
  - exists surface_points. split; [exact Hgen | split; [exact Hne |]].
    apply (Hdist _ _ _ _ Hgen). lra.
Defined.

(** ** Radius of gyration *)

Definition vsum (l : list vec3) : vec3 := fold_right vadd (Vec3 0 0 0) l.

(** [[f(a, b) for a, b in zip(l1, l2)]], also the element-wise product of two
    arrays of equal length. *)
Definition zip_with {A B C} (f : A -> B -> C) (l1 : list A) (l2 : list B) : list C :=
  map (fun ab => f (fst ab) (snd ab)) (combine l1 l2).

Lemma zip_with_map {A B C D} (f : A -> B -> C) (g1 : D -> A) (g2 : D -> B) (l : list D) :
  zip_with f (map g1 l) (map g2 l) = map (fun d => f (g1 d) (g2 d)) l.
Proof. unfold zip_with. induction l as [| d l IH]; simpl; [reflexivity | now rewrite IH]. Qed.

Lemma mapM_total {A B} (f : A -> result B) (g : A -> B) (l : list A) :
  (forall a, In a l -> f a = Ok (g a)) -> mapM f l = Ok (map g l).
Proof.
  induction l as [| a l IH]; intros Hf; simpl; [reflexivity |].
  rewrite (Hf a) by now left. simpl. rewrite IH; [reflexivity |].
  intros b Hb. apply Hf. now right.
Qed.

(** [np.average(positions, axis=0, weights=weights)]: weights whose length
    differs from the number of positions raise [ValueError] (the wording of
    its message depends on the version of numpy); weights that sum to zero
    raise [ZeroDivisionError]. *)
Definition np_average (positions : list vec3) (weights : list R) : result vec3 :=
  if negb (List.length weights =? List.length positions)%nat then
    Raise (ValueError "Length of weights not compatible with specified axis.")
  else if Req_dec_T (Rsum weights) 0 then Raise ZeroDivisionError
  else Ok (vdiv (vsum (zip_with vscale weights positions)) (Rsum weights)).

(** [calculate_radius_of_gyration] *)
Definition calculate_radius_of_gyration (atom_positions : list vec3)
    (electron_counts : list R) : result R :=
  center_of_mass <- np_average atom_positions electron_counts ;;
  let squared_distances :=
    Rsum (zip_with (fun w p => w * sqnorm (vsub p center_of_mass))
                   electron_counts atom_positions) in
  let total_electrons := Rsum electron_counts in
  Ok (sqrt (squared_distances / total_electrons)).

(** The closed formula of the radius of gyration of weighted points:
    [sqrt (sum_i w_i |p_i - c|^2 / sum_i w_i)], [c] the weighted center. *)
Definition weighted_center (wps : list (R * vec3)) : vec3 :=
  vdiv (vsum (map (fun wp => vscale (fst wp) (snd wp)) wps)) (Rsum (map fst wps)).

Definition radius_of_gyration (wps : list (R * vec3)) : R :=
  let c := weighted_center wps in
  sqrt (Rsum (map (fun wp => fst wp * norm (vsub (snd wp) c) ^ 2) wps) / Rsum (map fst wps)).

Lemma calculate_radius_of_gyration_formula {A} (w : A -> R) (pos : A -> vec3) (l : list A) :
  Rsum (map w l) <> 0 ->
  calculate_radius_of_gyration (map pos l) (map w l)
  = Ok (radius_of_gyration (map (fun a => (w a, pos a)) l)).
Proof.
  intros Hw. unfold calculate_radius_of_gyration, np_average.
  rewrite !length_map, Nat.eqb_refl. cbn [negb].
  destruct (Req_dec_T (Rsum (map w l)) 0) as [Hz | _]; [contradiction |]. simpl.
  unfold radius_of_gyration, weighted_center.
  rewrite !zip_with_map, !map_map. cbn [fst snd].
  set (c := vdiv (vsum (map (fun a => vscale (w a) (pos a)) l)) (Rsum (map w l))).
  rewrite (map_ext (fun a => w a * norm (vsub (pos a) c) ^ 2)
                   (fun a => w a * sqnorm (vsub (pos a) c)))
    by (intros a; now rewrite norm_sq).
  reflexivity.
Qed.

Section Worker.
(** The structure loader, [PDBFileHandler(pdb_file, ...)], external. *)
Variable load_pdb : string -> result PDBFileHandler.
(** [mendeleev.element] *)
Variable mendeleev_element : string -> result Mendeleev.Element.

(** [get_electron_counts]: the element's electrons minus its formal charge,
    the charge defaulting to 0. *)
Definition get_electron_counts (charges : FormalChargeTable) (atoms : list Atom)
  : result (list R) :=
  mapM (fun atom =>
          elem_info <- mendeleev_element (element atom) ;;
          Ok (IZR (Mendeleev.electrons elem_info
                   - charge_or_zero charges (element atom))))
       atoms.

(** [estimate_volume_using_rg]: the radius of gyration of all core and
    shell atoms. *)
Definition estimate_volume_using_rg (charges : FormalChargeTable) (h : PDBFileHandler)
  : result R :=
  let atom_positions := map coordinates (all_atoms h) in
  electron_counts <- get_electron_counts charges (all_atoms h) ;;
  rg <- calculate_radius_of_gyration atom_positions electron_counts ;;
  Ok (sphere_volume rg).

(** The name [RadiusOfGyrationCalculator] is used by the worker but is
    bound nowhere in the module: no definition, no import.  Evaluating the
    name raises [NameError], so no object of the class is ever built. *)
Inductive RadiusOfGyrationCalculator : Type := .

Definition new_RadiusOfGyrationCalculator (atom_positions : list vec3)
    (atom_elements : list string) (atom_charges : list Z)
  : result RadiusOfGyrationCalculator :=
  Raise (NameError "RadiusOfGyrationCalculator").

(** [rg_calculator.calculate_volume(method=...)] *)
Definition calculate_volume (rg_calculator : RadiusOfGyrationCalculator) (method : string)
  : result R :=
  match rg_calculator with end.

(** ** Per-file worker *)

Record ClusterRecord : Type := mkRecord {
  pdb_file : string;
  cluster_size : nat;
  coordination_stats : dict (string * string) (R * R);
  volume : R;
  charge : Z
}.

(** The analyzer object: its configuration and the attributes the batch
    reads and extends.  [radius_lookup] exists only when the constructor
    built it. *)
Record ClusterBatchAnalyzer : Type := mkAnalyzer {
  config : Config;
  pdb_files : list string;
  radius_lookup : option RadiusLookup;
  cluster_data : list ClusterRecord;
  cluster_size_distribution : dict nat (list R);
  no_target_atoms_files : list string
}.

(** [__init__]: the lookup is built only for the ionic-radius method; the
    method name is stored as given. *)
Definition init (cfg : Config) (files : list string)
  : result (ClusterBatchAnalyzer * list diagnostic) :=
  if String.eqb (volume_method cfg) "ionic_radius" then
    st <- build_ionic_radius_lookup mendeleev_element (charges cfg) ;;
    Ok (mkAnalyzer cfg files (Some (b_lookup st)) [] [] [], b_log st)
  else Ok (mkAnalyzer cfg files None [] [] [], []).

(** What one call of the worker leaves behind: the returned tuple (a record,
    or the tuple of [None]s), the lines it printed and the file names it
    appended to [no_target_atoms_files]. *)
Record WorkerOutput : Type := mkOutput {
  w_result : option ClusterRecord;
  w_printed : list diagnostic;
  w_unmatched : list string
}.

(** [[self.charges[atom.element][0] for atom in target_atoms]] *)
Definition target_charges (charges : FormalChargeTable) (target_atoms : list Atom)
  : result (list Z) :=
  mapM (fun atom => match PyDict.get (element atom) charges with
                    | Some t => Ok (fst t)
                    | None => Raise (KeyError (element atom))
                    end) target_atoms.

(** The volume stage of the worker: the dispatch on [self.volume_method]
    and [shape_type]. *)
Definition cluster_volume (self : ClusterBatchAnalyzer) (shape_type : string)
    (h : PDBFileHandler) (target_atoms : list Atom) : result R * list diagnostic :=
  let cfg := config self in
  if String.eqb (volume_method cfg) "ionic_radius" then
    match radius_lookup self with
    | Some lookup =>
        let '(total_volume, log) := estimate_total_molecular_volume lookup (charges cfg) h in
        (Ok total_volume, log)
    | None => (Raise (AttributeError "radius_lookup"), [])
    end
  else if String.eqb (volume_method cfg) "radius_of_gyration" then
    (atom_charges <- target_charges (charges cfg) target_atoms ;;
     rg_calculator <- new_RadiusOfGyrationCalculator
                        (map coordinates target_atoms) (map element target_atoms)
                        atom_charges ;;
     if String.eqb shape_type "sphere" then calculate_volume rg_calculator "sphere"
     else if String.eqb shape_type "ellipsoid" then calculate_volume rg_calculator "ellipsoid"
     else Raise (ValueError ("Unknown shape type: " ++ shape_type)), [])
  else (Raise (ValueError ("Unknown volume method: " ++ volume_method cfg)), []).

(** The [try] block of [process_pdb_file]: its outcome, the warnings
    printed and the files appended to [no_target_atoms_files]. *)
Definition process_body (self : ClusterBatchAnalyzer) (shape_type : string)
    (file : string) : result (option ClusterRecord) * list diagnostic * list string :=
  let cfg := config self in
  match load_pdb file with
  | Raise e => (Raise e, [], [])
  | Ok pdb_handler =>
      let target_atoms :=
        filter (fun atom => mem (element atom) (target_elements cfg))
               (core_atoms pdb_handler) in
      match target_atoms with
      | [] => (Ok None, [], [file])
      | _ =>
          let cluster_size := List.length target_atoms in
          let coordination_stats :=
            calculate_coordination_numbers cfg pdb_handler target_atoms in
          match cluster_volume self shape_type pdb_handler target_atoms with
          | (Raise e, log) => (Raise e, log, [])
          | (Ok cluster_volume, log) =>
              let cluster_charge := calculate_cluster_charge (charges cfg) pdb_handler in
              (Ok (Some (mkRecord file cluster_size coordination_stats
                                  cluster_volume cluster_charge)), log, [])
          end
      end
  end.

(** [process_pdb_file]: the [try] block under [except Exception], whose
    handler prints the file and the error and returns the tuple of
    [None]s. *)
Definition process_pdb_file (self : ClusterBatchAnalyzer) (shape_type : string)
    (file : string) : WorkerOutput :=
  match process_body self shape_type file with
  | (Ok r, log, unmatched) => mkOutput r log unmatched
  | (Raise e, log, unmatched) =>
      mkOutput None (log ++ [ErrorProcessingFile file e]) unmatched
  end.
End Worker.

(** ** Batch loop *)

(** The state the collection loop of [analyze_clusters] works on. *)
Record BatchState : Type := mkBatch {
  all_cluster_sizes : list nat;
  coordination_stats_per_size : dict nat (dict (string * string) (list R));
  no_target_atoms_count : nat;
  batch_cluster_data : list ClusterRecord;
  batch_size_distribution : dict nat (list R);
  batch_no_target_atoms_files : list string;
  stdout : list diagnostic
}.

(** [coordination_stats_per_size[cluster_size][pair].append(avg_coord)] for
    every item of the record's statistics. *)
Definition append_coordination (cluster_size : nat)
    (stats : dict (string * string) (R * R))
    (per_size : dict nat (dict (string * string) (list R))) :=
  fold_left (fun acc item =>
               PyDict.update [] (PyDict.update [] (fun l => l ++ [fst (snd item)]) (fst item))
                             cluster_size acc)
            stats per_size.

(** The body of the loop over the completed futures.  [future.result()]
    returns what the task returned, or raises what the task raised. *)
Definition collect (st : BatchState) (future : result WorkerOutput) : result BatchState :=
  out <- future ;;
  let st := mkBatch (all_cluster_sizes st) (coordination_stats_per_size st)
                    (no_target_atoms_count st) (batch_cluster_data st)
                    (batch_size_distribution st)
                    (batch_no_target_atoms_files st ++ w_unmatched out)
                    (stdout st ++ w_printed out) in
  match w_result out with
  | Some r =>
      Ok (mkBatch (all_cluster_sizes st ++ [cluster_size r])
                  (append_coordination (cluster_size r) (coordination_stats r)
                                       (coordination_stats_per_size st))
                  (no_target_atoms_count st)
                  (batch_cluster_data st ++ [r])
                  (PyDict.update [] (fun l => l ++ [volume r]) (cluster_size r)
                                 (batch_size_distribution st))
                  (batch_no_target_atoms_files st)
                  (stdout st))
  | None =>
      Ok (mkBatch (all_cluster_sizes st) (coordination_stats_per_size st)
                  (S (no_target_atoms_count st)) (batch_cluster_data st)
                  (batch_size_distribution st) (batch_no_target_atoms_files st)
                  (stdout st))
  end.

Fixpoint collect_all (futures : list (result WorkerOutput)) (st : BatchState)
  : result BatchState :=
  match futures with
  | [] => Ok st
  | future :: futures' => st' <- collect st future ;; collect_all futures' st'
  end.

Section Batch.
Variable load_pdb : string -> result PDBFileHandler.
Variable mendeleev_element : string -> result Mendeleev.Element.

(** [executor.submit(process_pdb_file, pdb_file)], run to completion: the
    future holds the worker's return value. *)
Definition submit (self : ClusterBatchAnalyzer) (shape_type : string) (file : string)
  : result WorkerOutput :=
  Ok (process_pdb_file load_pdb self shape_type file).

(** The fan-out of [analyze_clusters] up to the end of the collection loop.
    [completion_order] lists the submitted files in the order in which
    their futures complete; the lines printed and the file names appended
    by a task are recorded when it completes. *)
Definition fan_out (self : ClusterBatchAnalyzer) (shape_type : string)
    (completion_order : list string) : result BatchState :=
  collect_all (map (submit self shape_type) completion_order)
              (mkBatch [] [] 0 (cluster_data self) (cluster_size_distribution self)
                       (no_target_atoms_files self) []).

(** The record a file contributes, if any. *)
Definition record_of (self : ClusterBatchAnalyzer) (shape_type : string) (file : string)
  : list ClusterRecord :=
  match w_result (process_pdb_file load_pdb self shape_type file) with
  | Some r => [r]
  | None => []
  end.
End Batch.

(** ** Statistics aggregator *)

(** The grouping loop of [generate_statistics]. *)
Definition size_distribution (data : list ClusterRecord) : dict nat (list R) :=
  fold_left (fun d r => PyDict.update [] (fun l => l ++ [volume r]) (cluster_size r) d)
            data [].

(** [generate_statistics]: [(average_volumes_per_size, cluster_size_distribution)] *)
Definition generate_statistics (data : list ClusterRecord)
  : dict nat R * dict nat (list R) :=
  let cluster_size_distribution := size_distribution data in
  let average_volumes :=
    fold_left (fun av item => PyDict.set (fst item) (np_mean (snd item)) av)
              cluster_size_distribution [] in
  (average_volumes, cluster_size_distribution).

(** [sorted(...)] on cluster sizes. *)
Fixpoint insert_sorted (n : nat) (l : list nat) : list nat :=
  match l with
  | [] => [n]
  | m :: l' => if (n <=? m)%nat then n :: l else m :: insert_sorted n l'
  end.

Definition sorted (l : list nat) : list nat := fold_right insert_sorted [] l.

(** [self.cluster_size_distribution[size]] on the [defaultdict(list)]. *)
Definition bucket (dist : dict nat (list R)) (size : nat) : list R :=
  match PyDict.get size dist with Some volumes => volumes | None => [] end.

(** [std_devs] of [plot_average_volume_vs_cluster_size]. *)
Definition std_devs (dist : dict nat (list R)) : list R :=
  map (fun size => np_std (bucket dist size)) (sorted (PyDict.keys dist)).

(** [total_cluster_volume] of [plot_volume_percentage_of_scatterers]. *)
Definition total_cluster_volume (dist : dict nat (list R)) : R :=
  fold_left (fun total item => total + np_mean (snd item) * INR (List.length (snd item)))
            dist 0.

(** [volume_percentages], one per sorted size. *)
Definition volume_percentages (dist : dict nat (list R)) : list R :=
  map (fun size =>
         if (0 <? List.length (bucket dist size))%nat then
           let avg_volume := np_mean (bucket dist size) in
           avg_volume * INR (List.length (bucket dist size)) / total_cluster_volume dist * 100
         else 0)
      (sorted (PyDict.keys dist)).

(** [np.argmax]: the first index of the largest element; an empty sequence
    raises. *)
Fixpoint argmax_from (best_index : nat) (best : R) (i : nat) (l : list R) : nat :=
  match l with
  | [] => best_index
  | x :: l' =>
      if Rlt_dec best x then argmax_from i x (S i) l'
      else argmax_from best_index best (S i) l'
  end.

Definition np_argmax (l : list R) : result nat :=
  match l with
  | [] => Raise (ValueError "attempt to get argmax of an empty sequence")
  | x :: l' => Ok (argmax_from 0 x 1 l')
  end.

(** [mode_size = sizes[np.argmax(volume_percentages)]] *)
Definition mode_size (dist : dict nat (list R)) : result nat :=
  mode_index <- np_argmax (volume_percentages dist) ;;
  Ok (nth mode_index (sorted (PyDict.keys dist)) 0%nat).

(** ** The batch call *)

(** Of the plotting methods, what is computed before anything is drawn; the
    calls into matplotlib are taken to return. *)

(** [self.target_elements[0]], read for the axis labels and titles. *)
Definition first_target_element (cfg : Config) : result string :=
  match target_elements cfg with
  | [] => Raise (IndexError "list index out of range")
  | el :: _ => Ok el
  end.

(** [plot_cluster_size_distribution] *)
Definition plot_cluster_size_distribution (cfg : Config) (all_cluster_sizes : list nat)
  : result unit :=
  label <- first_target_element cfg ;;
  Ok tt.

(** [set(pair for data in coordination_stats_per_size.values() for pair in data.keys())],
    here in the order of first occurrence. *)
Definition histogram_pairs (per_size : dict nat (dict (string * string) (list R)))
  : list (string * string) :=
  fold_left (fun pairs pair_key => if mem pair_key pairs then pairs else pairs ++ [pair_key])
            (flat_map (fun item => PyDict.keys (snd item)) per_size) [].

(** [coordination_stats_per_size[size][pair]] on the nested [defaultdict]. *)
Definition coordination_entries (per_size : dict nat (dict (string * string) (list R)))
    (size : nat) (pair_key : string * string) : list R :=
  match PyDict.get size per_size with
  | Some data => match PyDict.get pair_key data with Some l => l | None => [] end
  | None => []
  end.

(** [plot_coordination_histogram]: the cluster counts read
    [next(iter(pairs))] once per size. *)
Definition plot_coordination_histogram (cfg : Config)
    (per_size : dict nat (dict (string * string) (list R))) : result unit :=
  let sizes := sorted (PyDict.keys per_size) in
  let pairs := histogram_pairs per_size in
  cluster_counts <-
    mapM (fun size =>
            match pairs with
            | [] => Raise StopIteration
            | pair_key :: _ => Ok (List.length (coordination_entries per_size size pair_key))
            end) sizes ;;
  title <- first_target_element cfg ;;
  Ok tt.

(** [plot_average_volume_vs_cluster_size] and its [_rg] variant: the sizes,
    averages and standard deviations are read from the statistics. *)
Definition plot_average_volume_vs_cluster_size (cfg : Config) (dist : dict nat (list R))
  : result unit :=
  let deviations := std_devs dist in
  label <- first_target_element cfg ;;
  Ok tt.

(** [int(percentage * 100)] on the floating-point quotient
    [numerator / total * 100]: the quotient by a zero total is [nan] or
    infinite, which [int] refuses. *)
Definition int_of_percentage (numerator total : R) : result unit :=
  if Req_dec_T total 0 then
    if Req_dec_T numerator 0 then Raise (ValueError "cannot convert float NaN to integer")
    else Raise (OverflowError "cannot convert float infinity to integer")
  else Ok tt.

(** [plot_volume_percentage_of_scatterers]: the mode is taken with
    [np.argmax] before the weighted sizes are built. *)
Definition plot_volume_percentage_of_scatterers (cfg : Config) (dist : dict nat (list R))
  : result unit :=
  let sizes := sorted (PyDict.keys dist) in
  mode <- mode_size dist ;;
  weighted_cluster_sizes <-
    mapM (fun size =>
            if (0 <? List.length (bucket dist size))%nat then
              int_of_percentage (np_mean (bucket dist size) * INR (List.length (bucket dist size)))
                                (total_cluster_volume dist)
            else Ok tt) sizes ;;
  label <- first_target_element cfg ;;
  Ok tt.

(** [phi_Vc_values] of [plot_phi_Vc_vs_cluster_size], one per sorted size. *)
Definition phi_Vc_values (dist : dict nat (list R)) : list R :=
  map (fun size =>
         if (0 <? List.length (bucket dist size))%nat then
           let avg_volume := np_mean (bucket dist size) in
           let volume_fraction :=
             avg_volume * INR (List.length (bucket dist size)) / total_cluster_volume dist in
           avg_volume * volume_fraction
         else 0)
      (sorted (PyDict.keys dist)).

(** [plot_phi_Vc_vs_cluster_size] *)
Definition plot_phi_Vc_vs_cluster_size (cfg : Config) (dist : dict nat (list R))
  : result unit :=
  mode_index <- np_argmax (phi_Vc_values dist) ;;
  label <- first_target_element cfg ;;
  Ok tt.

Section BatchCall.
Variable load_pdb : string -> result PDBFileHandler.

(** [analyze_clusters] with [copy_no_target_files] left at [False]: the
    fan-out and its collection loop, then [generate_statistics] and the
    plotting methods in the order of the source.  It returns
    [coordination_stats_per_size], or raises what the first failing step
    raises. *)
Definition analyze_clusters (self : ClusterBatchAnalyzer) (shape_type : string)
    (completion_order : list string)
  : result (dict nat (dict (string * string) (list R))) :=
  let cfg := config self in
  st <- fan_out load_pdb self shape_type completion_order ;;
  let '(average_volumes_per_size, cluster_size_distribution) :=
    generate_statistics (batch_cluster_data st) in
  sizes_plot <- plot_cluster_size_distribution cfg (all_cluster_sizes st) ;;
  histogram <- plot_coordination_histogram cfg (coordination_stats_per_size st) ;;
  averages_plot <-
    (if String.eqb (volume_method cfg) "ionic_radius" then
       plot_average_volume_vs_cluster_size cfg cluster_size_distribution
     else if String.eqb (volume_method cfg) "radius_of_gyration" then
       plot_average_volume_vs_cluster_size cfg cluster_size_distribution
     else Ok tt) ;;
  percentages_plot <- plot_volume_percentage_of_scatterers cfg cluster_size_distribution ;;
  phi_plot <- plot_phi_Vc_vs_cluster_size cfg cluster_size_distribution ;;
  Ok (coordination_stats_per_size st).
End BatchCall.

(** ** Properties of the worker and of the batch loop *)

Section BatchProperties.
Variable load_pdb : string -> result PDBFileHandler.

Let worker := process_pdb_file load_pdb.
Let body := process_body load_pdb.

(** An exception of the [try] block ends in the handler: the tuple of
    [None]s is returned and the error is printed with the file. *)
Lemma process_pdb_file_caught self shape_type file e log unmatched :
  body self shape_type file = (Raise e, log, unmatched) ->
  worker self shape_type file
  = mkOutput None (log ++ [ErrorProcessingFile file e]) unmatched.
Proof. unfold worker, body, process_pdb_file. now intros ->. Qed.

(** A record returned for a file carries that file's name. *)
Lemma process_pdb_file_record_name self shape_type file r :
  w_result (worker self shape_type file) = Some r -> pdb_file r = file.
Proof.
  unfold worker, process_pdb_file, process_body.
  destruct (load_pdb file) as [h | e]; [| discriminate].
  destruct (filter _ (core_atoms h)) as [| a l]; [discriminate |].
  destruct (cluster_volume _ _ _ _) as [[v | e] log]; simpl; [| discriminate].
  now intros [= <-].
Qed.

(** The collection loop never raises; it appends, in completion order, the
    record each file contributes and whatever each task printed. *)
Lemma collect_all_spec self shape_type order st :
  exists st',
    collect_all (map (submit load_pdb self shape_type) order) st = Ok st'
    /\ batch_cluster_data st'
       = batch_cluster_data st ++ flat_map (record_of load_pdb self shape_type) order
    /\ stdout st'
       = stdout st ++ flat_map (fun f => w_printed (worker self shape_type f)) order.
Proof.
  revert st. induction order as [| f order IH]; intros st.
  - exists st. simpl. now rewrite !app_nil_r.
  - cbn [map collect_all flat_map]. unfold submit at 1, collect, record_of at 1.
    fold worker. cbn [bind].
    destruct (w_result (worker self shape_type f)) as [r |]; cbn [bind];
      match goal with |- context [collect_all _ ?s] => destruct (IH s) as [st' [H1 [H2 H3]]] end;
      exists st'; cbn in H2, H3; rewrite H1, H2, H3, <- ?app_assoc; auto.
Qed.

(** The shape type is read on one path only, behind the construction of
    the calculator, which raises: the worker's outcome does not depend on
    it. *)
Lemma cluster_volume_shape_irrelevant self shape_type other_shape h target_atoms :
  cluster_volume self shape_type h target_atoms
  = cluster_volume self other_shape h target_atoms.
Proof.
  unfold cluster_volume.
  destruct (String.eqb _ "ionic_radius"); [reflexivity |].
  destruct (String.eqb _ "radius_of_gyration"); [| reflexivity].
  destruct (target_charges _ _); reflexivity.
Qed.

Lemma process_pdb_file_shape_irrelevant self shape_type other_shape file :
  worker self shape_type file = worker self other_shape file.
Proof.
  unfold worker, process_pdb_file, process_body.
  destruct (load_pdb file) as [h | e]; [| reflexivity].
  destruct (filter _ (core_atoms h)) as [| a l]; [reflexivity |].
  now rewrite (cluster_volume_shape_irrelevant self shape_type other_shape).
Qed.

(** Under the radius-of-gyration method no file yields a record. *)
Lemma radius_of_gyration_method_no_record self shape_type file :
  volume_method (config self) = "radius_of_gyration"%string ->
  w_result (worker self shape_type file) = None.
Proof.
  intros Hrg. unfold worker, process_pdb_file, process_body, cluster_volume. rewrite Hrg.
  destruct (load_pdb file) as [h | e]; [| reflexivity].
  destruct (filter _ (core_atoms h)) as [| a l]; [reflexivity |].
  cbn [String.eqb Ascii.eqb Bool.eqb].
  destruct (target_charges _ _); reflexivity.
Qed.
End BatchProperties.

(** The collection loop isolates a file whose processing raises, at
    whatever stage: the worker catches the exception, prints a diagnostic
    naming the file and returns the empty result; the loop over a batch
    containing that file ends without raising, the diagnostic is in its
    output, the file contributes no record, and the records collected are
    exactly those the other files contribute, as in a loop without the
    failing file. *)
Lemma failing_file_is_isolated
    (load_pdb : string -> result PDBFileHandler)
    (self : ClusterBatchAnalyzer) (shape_type file : string)
    (e : exn) (log : list diagnostic) (unmatched : list string)
    (completion_order : list string) :
  process_body load_pdb self shape_type file = (Raise e, log, unmatched) ->
  In file completion_order ->
  let worker := process_pdb_file load_pdb self shape_type in
  let others := filter (fun g => negb (eqb g file)) completion_order in
  w_result (worker file) = None
  /\ In (ErrorProcessingFile file e) (w_printed (worker file))
  /\ exists st,
       fan_out load_pdb self shape_type completion_order = Ok st
       /\ In (ErrorProcessingFile file e) (stdout st)
       /\ batch_cluster_data st
          = cluster_data self ++ flat_map (record_of load_pdb self shape_type) others
       /\ (forall r, In r (flat_map (record_of load_pdb self shape_type) others) ->
                     pdb_file r <> file)
       /\ exists st_without,
            fan_out load_pdb self shape_type others = Ok st_without
            /\ batch_cluster_data st_without = batch_cluster_data st.
Proof.
  intros Hraise Hin worker others.
  pose proof (process_pdb_file_caught _ _ _ _ Hraise) as Hout. fold worker in Hout.
  assert (Hnone : record_of load_pdb self shape_type file = []).
  { unfold record_of. fold worker. now rewrite Hout. }
  assert (Hflat : flat_map (record_of load_pdb self shape_type) completion_order
                  = flat_map (record_of load_pdb self shape_type) others).
  { unfold others. clear Hin. induction completion_order as [| g l IH]; simpl; [reflexivity |].
    unfold eqb. destruct (eq_dec g file) as [-> | Hne]; simpl.
    - now rewrite Hnone.
    - now rewrite IH. }
  split; [now rewrite Hout | split].
  { rewrite Hout. simpl. apply in_or_app. right. now left. }
  unfold fan_out.
  destruct (collect_all_spec load_pdb self shape_type completion_order
              (mkBatch [] [] 0 (cluster_data self) (cluster_size_distribution self)
                       (no_target_atoms_files self) [])) as [st [Hst [Hdata Hprint]]].
  destruct (collect_all_spec load_pdb self shape_type others
              (mkBatch [] [] 0 (cluster_data self) (cluster_size_distribution self)
                       (no_target_atoms_files self) [])) as [st2 [Hst2 [Hdata2 _]]].
  exists st. split; [exact Hst | split; [| split; [| split]]].
  - rewrite Hprint. simpl. apply in_flat_map. exists file. split; [assumption |].
    fold worker. rewrite Hout. simpl. apply in_or_app. right. now left.
  - rewrite Hdata, Hflat. reflexivity.
  - intros r Hr. apply in_flat_map in Hr. destruct Hr as [g [Hg Hr]].
    unfold others in Hg. apply filter_In in Hg. destruct Hg as [_ Hg].
    unfold record_of in Hr.
    destruct (w_result (process_pdb_file load_pdb self shape_type g)) as [r' |] eqn:Hres;
      [| destruct Hr].
    destruct Hr as [<- | []].
    apply process_pdb_file_record_name in Hres. rewrite Hres.
    unfold eqb in Hg. destruct (eq_dec g file); [discriminate | assumption].
  - exists st2. split; [exact Hst2 |]. rewrite Hdata2, Hdata, Hflat. reflexivity.
Qed.

(** When no file of the batch yields a record, the loop leaves the records
    and the coordination statistics as they were. *)
Lemma collect_all_without_record
    (load_pdb : string -> result PDBFileHandler)
    (self : ClusterBatchAnalyzer) (shape_type : string) (order : list string)
    (st : BatchState) :
  (forall f, In f order -> w_result (process_pdb_file load_pdb self shape_type f) = None) ->
  exists st',
    collect_all (map (submit load_pdb self shape_type) order) st = Ok st'
    /\ batch_cluster_data st' = batch_cluster_data st
    /\ coordination_stats_per_size st' = coordination_stats_per_size st.
Proof.
  revert st. induction order as [| f order IH]; intros st Hnone.
  - exists st. repeat split.
  - cbn [map collect_all]. unfold submit at 1, collect. cbn [bind].
    rewrite (Hnone f) by now left. cbn [bind].
    match goal with |- context [collect_all _ ?s] =>
      destruct (IH s) as [st' [H1 [H2 H3]]] end.
    { intros g Hg. apply Hnone. now right. }
    exists st'. split; [exact H1 | split; [exact H2 | exact H3]].
Qed.

(** A batch call on a fresh analyzer in which no file yields a record does
    not complete: after the loop, [plot_volume_percentage_of_scatterers]
    takes [np.argmax] of an empty list. *)
Lemma batch_without_record_raises
    (load_pdb : string -> result PDBFileHandler)
    (self : ClusterBatchAnalyzer) (shape_type : string) (completion_order : list string) :
  cluster_data self = [] ->
  target_elements (config self) <> [] ->
  (forall f, In f completion_order ->
             w_result (process_pdb_file load_pdb self shape_type f) = None) ->
  analyze_clusters load_pdb self shape_type completion_order
  = Raise (ValueError "attempt to get argmax of an empty sequence").
Proof.
  intros Hfresh Htargets Hnone. unfold analyze_clusters, fan_out.
  destruct (collect_all_without_record load_pdb self shape_type completion_order
              (mkBatch [] [] 0 (cluster_data self) (cluster_size_distribution self)
                       (no_target_atoms_files self) []) Hnone) as [st [Hst [Hdata Hstats]]].
  rewrite Hst. cbn [bind]. cbn in Hdata, Hstats. rewrite Hdata, Hstats, Hfresh.
  unfold plot_cluster_size_distribution, plot_coordination_histogram,
    plot_average_volume_vs_cluster_size, first_target_element.
  destruct (target_elements (config self)) as [| el els]; [contradiction |].
  cbn. destruct (String.eqb _ "ionic_radius"); [reflexivity |].
  destruct (String.eqb _ "radius_of_gyration"); reflexivity.
Qed.

(** Under the radius-of-gyration method a batch call on a fresh analyzer
    never completes, since no file yields a record. *)
Lemma radius_of_gyration_batch_raises
    (load_pdb : string -> result PDBFileHandler)
    (self : ClusterBatchAnalyzer) (shape_type : string) (completion_order : list string) :
  volume_method (config self) = "radius_of_gyration"%string ->
  cluster_data self = [] ->
  target_elements (config self) <> [] ->
  analyze_clusters load_pdb self shape_type completion_order
  = Raise (ValueError "attempt to get argmax of an empty sequence").
Proof.
  intros Hrg Hfresh Htargets. apply batch_without_record_raises; [assumption .. |].
  intros f _. now apply radius_of_gyration_method_no_record.
Qed.

(** ** A small batch used to run the definitions *)

(** One lead atom and one iodine atom 3 A apart. *)
Definition lead_iodide : PDBFileHandler :=
  mkHandler [mkAtom "Pb" (Vec3 0 0 0)] [mkAtom "I" (Vec3 3 0 0)].

(** Two lead atoms 4 A apart. *)
Definition lead_pair : PDBFileHandler :=
  mkHandler [mkAtom "Pb" (Vec3 0 0 0); mkAtom "Pb" (Vec3 4 0 0)] [].

(** A loader that fails on ["broken.pdb"] and parses every other file to
    [lead_iodide]. *)
Definition example_loader (file : string) : result PDBFileHandler :=
  if String.eqb file "broken.pdb" then Raise (CollaboratorError "unreadable structure file")
  else Ok lead_iodide.

(** Element data: lead, with its tabulated radius for charge +2 and
    coordination VI (119 pm) and covalent radius 146 pm. *)
Definition example_elements (symbol : string) : result Mendeleev.Element :=
  Ok (Mendeleev.mkElement 82 [Mendeleev.mkIonicRadius 2 "VI" 119] (Some 146)).

Definition example_config (method : string) : Config :=
  mkConfig ["Pb"%string] [] [] [("Pb"%string, (2, 6)%Z)] method.

(** C1, evaluated on a batch of the single file ["broken.pdb"], whose
    loading raises: the worker catches the exception, prints the diagnostic
    naming the file and returns the empty result, and the collection loop
    ends without raising and without a record; but the batch call does not
    complete: with no record collected,
    [plot_volume_percentage_of_scatterers] takes [np.argmax] of an empty
    list and the call raises [ValueError]. *)
Theorem failing_file_alone_aborts_batch_call :
  let e := CollaboratorError "unreadable structure file" in
  exists self st,
    init example_elements (example_config "ionic_radius") ["broken.pdb"%string]
    = Ok (self, [])
    /\ process_pdb_file example_loader self "sphere" "broken.pdb"
       = mkOutput None [ErrorProcessingFile "broken.pdb" e] []
    /\ fan_out example_loader self "sphere" ["broken.pdb"%string] = Ok st
    /\ stdout st = [ErrorProcessingFile "broken.pdb" e]
    /\ batch_cluster_data st = []
    /\ analyze_clusters example_loader self "sphere" ["broken.pdb"%string]
       = Raise (ValueError "attempt to get argmax of an empty sequence").
Proof.
  intros e. eexists. eexists.
  split; [reflexivity |]. split; [reflexivity |]. split; [reflexivity |].
  split; [reflexivity |]. split; reflexivity.
Qed.

(** A batch in which another file yields a record completes: the file that
    fails adds its diagnostic and no record, and the call returns the
    coordination statistics, here empty since the example configures no
    neighbor element. *)
Lemma batch_with_a_record_completes :
  exists self,
    init example_elements (example_config "ionic_radius") ["good.pdb"; "broken.pdb"]%string
    = Ok (self, [])
    /\ analyze_clusters example_loader self "sphere" ["good.pdb"; "broken.pdb"]%string
       = Ok [].
Proof.
  eexists. split; [reflexivity |].
  unfold analyze_clusters.
  cbn -[mode_size total_cluster_volume np_mean sphere_volume INR int_of_percentage
        np_argmax phi_Vc_values].
  set (dist := [(1%nat, [0 + INR 1 * sphere_volume (119 / 100)])]).
  assert (Htotal : total_cluster_volume dist <> 0).
  { unfold total_cluster_volume, dist, np_mean, sphere_volume. simpl.
    pose proof PI_RGT_0 as Hpi. intros Hz. field_simplify in Hz. lra. }
  unfold plot_volume_percentage_of_scatterers, plot_phi_Vc_vs_cluster_size, mode_size,
    int_of_percentage.
  cbn -[total_cluster_volume np_mean sphere_volume INR].
  destruct (Req_dec_T (total_cluster_volume dist) 0) as [Hz | _]; [contradiction |].
  reflexivity.
Qed.

(** C3 as stated fails: an analyzer constructed for the ionic-radius method
    with a charge table that lists lead only holds no lookup entry for the
    iodine group of [lead_iodide]; the file is not turned into an empty
    result: the worker returns a record whose volume is the lead sphere
    alone, the iodine atom adding nothing, and prints a warning. *)
Lemma ionic_volume_missing_group_is_not_an_error :
  exists self lookup r,
    init example_elements (example_config "ionic_radius") ["a.pdb"%string] = Ok (self, [])
    /\ radius_lookup self = Some lookup
    /\ In (mkAtom "I" (Vec3 3 0 0)) (all_atoms lead_iodide)
    /\ PyDict.get (group_key (charges (config self)) (mkAtom "I" (Vec3 3 0 0))) lookup = None
    /\ process_pdb_file example_loader self "sphere" "a.pdb"
       = mkOutput (Some r) [NoRadiusInLookup "I" 0] []
    /\ volume r = sphere_volume (119 / 100).
Proof.
  eexists. eexists. eexists.
  split; [reflexivity |]. split; [reflexivity |].
  split; [simpl; tauto |]. split; [reflexivity |].
  split; [reflexivity |]. simpl. lra.
Qed.

(** C2 as stated fails: with the unrecognized method name ["convex_hull"]
    the constructor returns an analyzer without raising, the fan-out runs
    through its file, and the error is raised, caught and printed inside the
    worker of that file, which yields no record. *)
Lemma unknown_method_is_discovered_per_file :
  exists self st,
    init example_elements (example_config "convex_hull") ["a.pdb"%string] = Ok (self, [])
    /\ fan_out example_loader self "sphere" (pdb_files self) = Ok st
    /\ stdout st
       = [ErrorProcessingFile "a.pdb" (ValueError "Unknown volume method: convex_hull")]
    /\ batch_cluster_data st = [].
Proof.
  eexists. eexists. split; [reflexivity |]. split; [reflexivity |]. split; reflexivity.
Qed.

(** ** Configuration errors *)

Lemma target_charges_ok (charges : FormalChargeTable) (atoms : list Atom) :
  (forall a, In a atoms -> PyDict.get (element a) charges <> None) ->
  target_charges charges atoms = Ok (map (fun a => charge_or_zero charges (element a)) atoms).
Proof.
  intros Hall. unfold target_charges. apply mapM_total. intros a Ha.
  unfold charge_or_zero. specialize (Hall a Ha).
  destruct (PyDict.get (element a) charges); [reflexivity | contradiction].
Qed.

Lemma unknown_method_no_record
    (load_pdb : string -> result PDBFileHandler)
    (self : ClusterBatchAnalyzer) (shape_type file : string) :
  volume_method (config self) <> "ionic_radius"%string ->
  volume_method (config self) <> "radius_of_gyration"%string ->
  w_result (process_pdb_file load_pdb self shape_type file) = None.
Proof.
  intros H1 H2. apply String.eqb_neq in H1, H2.
  unfold process_pdb_file, process_body, cluster_volume. rewrite H1, H2.
  destruct (load_pdb file) as [h | e]; [| reflexivity].
  destruct (filter _ (core_atoms h)); reflexivity.
Qed.

(** C2 as the code has it.  An unrecognized volume-method name raises
    nothing at construction or before the fan-out: it is raised inside the
    worker of each file that loads and has a target atom, caught there and
    printed with the file, the file giving the empty result, so the
    collection loop ends without raising and adds no record.  The shape
    type is validated nowhere before the fan-out either, and the worker's
    outcome for a file is the same for every shape type, recognized or
    not. *)
Theorem unknown_configuration_is_raised_in_worker
    (load_pdb : string -> result PDBFileHandler)
    (mendeleev_element : string -> result Mendeleev.Element)
    (cfg : Config) (shape_type : string) (files : list string) :
  let worker := process_pdb_file load_pdb in
  let targets := fun h : PDBFileHandler =>
    filter (fun atom => mem (element atom) (target_elements cfg)) (core_atoms h) in
  (volume_method cfg <> "ionic_radius"%string ->
   volume_method cfg <> "radius_of_gyration"%string ->
   init mendeleev_element cfg files = Ok (mkAnalyzer cfg files None [] [] [], [])
   /\ (forall self file h,
         config self = cfg -> load_pdb file = Ok h -> targets h <> [] ->
         worker self shape_type file
         = mkOutput None
             [ErrorProcessingFile file
                (ValueError ("Unknown volume method: " ++ volume_method cfg))] [])
   /\ (forall self completion_order,
         config self = cfg ->
         exists st,
           fan_out load_pdb self shape_type completion_order = Ok st
           /\ batch_cluster_data st = cluster_data self))
  /\ (forall self file other_shape,
        worker self shape_type file = worker self other_shape file)
  /\ (forall self completion_order other_shape,
        fan_out load_pdb self shape_type completion_order
        = fan_out load_pdb self other_shape completion_order).
Proof.
  intros worker targets. split; [| split].
  - intros H1 H2. pose proof H1 as E1. pose proof H2 as E2.
    apply String.eqb_neq in E1, E2. split; [| split].
    + unfold init. now rewrite E1.
    + intros self file h Hcfg Hload Htargets.
      unfold worker, process_pdb_file, process_body, cluster_volume.
      rewrite Hload, Hcfg, E1, E2. fold (targets h).
      destruct (targets h); [contradiction | reflexivity].
    + intros self order Hcfg.
      destruct (collect_all_spec load_pdb self shape_type order
                  (mkBatch [] [] 0 (cluster_data self) (cluster_size_distribution self)
                           (no_target_atoms_files self) [])) as [st [Hst [Hdata _]]].
      exists st. split; [exact Hst |]. rewrite Hdata. simpl.
      assert (Hnil : forall l, flat_map (record_of load_pdb self shape_type) l = []).
      { induction l as [| f l IH]; simpl; [reflexivity |]. rewrite IH.
        unfold record_of.
        rewrite unknown_method_no_record by (now rewrite Hcfg). reflexivity. }
      rewrite Hnil. apply app_nil_r.
  - intros self file other_shape. apply process_pdb_file_shape_irrelevant.
  - intros self order other_shape. unfold fan_out. f_equal.
Qed.

Lemma unknown_configuration_is_raised_in_worker_witness :
  let self := mkAnalyzer (example_config "convex_hull") ["a.pdb"%string] None [] [] [] in
  init example_elements (example_config "convex_hull") ["a.pdb"%string] = Ok (self, [])
  /\ process_pdb_file example_loader self "no such shape" "a.pdb"
     = mkOutput None
         [ErrorProcessingFile "a.pdb" (ValueError "Unknown volume method: convex_hull")] [].
Proof.
  intros self.
  destruct (@unknown_configuration_is_raised_in_worker example_loader example_elements
              (example_config "convex_hull") "no such shape" ["a.pdb"%string])
    as [Hmethod _].
  destruct Hmethod as [Hinit [Hworker _]]; [discriminate | discriminate |].
  split; [exact Hinit |].
  apply (Hworker self "a.pdb"%string lead_iodide); [reflexivity | reflexivity |].
  simpl. discriminate.
Defined.

(** ** The radius-of-gyration method in the worker *)

Lemma combine_map {A B C} (f : A -> B) (g : A -> C) (l : list A) :
  combine (map f l) (map g l) = map (fun a => (f a, g a)) l.
Proof. induction l as [| a l IH]; simpl; [reflexivity | now rewrite IH]. Qed.

(** C6, evaluated under the radius-of-gyration method with the sphere shape
    on a file that loads two lead atoms, whose element has a charge entry:
    no volume is returned.  The worker looks up the charges and then
    evaluates the name [RadiusOfGyrationCalculator], which the module
    neither defines nor imports; the [NameError] is caught by the worker's
    handler, which prints it with the file and returns the empty result, so
    the file contributes no record. *)
Theorem rg_sphere_worker_raises_name_error :
  exists self,
    init example_elements (example_config "radius_of_gyration") ["pair.pdb"%string]
    = Ok (self, [])
    /\ target_charges (charges (config self)) (core_atoms lead_pair) = Ok [2; 2]%Z
    /\ process_pdb_file (fun _ => Ok lead_pair) self "sphere" "pair.pdb"
       = mkOutput None
           [ErrorProcessingFile "pair.pdb" (NameError "RadiusOfGyrationCalculator")] []
    /\ record_of (fun _ => Ok lead_pair) self "sphere" "pair.pdb" = [].
Proof.
  eexists. split; [reflexivity |]. split; [reflexivity |]. split; reflexivity.
Qed.

(** ** Properties of the statistics aggregator *)

(** The volumes of the records of one cluster size, in collection order. *)
Definition volumes_of_size (data : list ClusterRecord) (size : nat) : list R :=
  map volume (filter (fun r => Nat.eqb (cluster_size r) size) data).

Lemma bucket_update (d : dict nat (list R)) (k s : nat) (v : R) :
  bucket (PyDict.update [] (fun l => l ++ [v]) k d) s
  = if Nat.eqb k s then bucket d s ++ [v] else bucket d s.
Proof.
  unfold bucket, PyDict.update. destruct (Nat.eqb_spec k s) as [-> | Hne].
  - now rewrite PyDict.get_set_eq.
  - now rewrite PyDict.get_set_ne.
Qed.

Lemma keys_update (d : dict nat (list R)) (k s : nat) (f : list R -> list R) :
  In s (PyDict.keys (PyDict.update [] f k d)) <-> s = k \/ In s (PyDict.keys d).
Proof.
  unfold PyDict.update. destruct (in_dec eq_dec k (PyDict.keys d)) as [Hi | Hn].
  - rewrite PyDict.keys_set_in by assumption. split; [tauto | intros [-> | H]; assumption].
  - rewrite PyDict.keys_set_notin by assumption. rewrite in_app_iff. simpl.
    split; [intros [H | [<- | []]]; tauto | intros [-> | H]; tauto].
Qed.

Lemma size_distribution_from (data : list ClusterRecord) (d : dict nat (list R)) :
  let d' := fold_left (fun d r => PyDict.update [] (fun l => l ++ [volume r]) (cluster_size r) d)
                      data d in
  (forall s, bucket d' s = bucket d s ++ volumes_of_size data s)
  /\ (forall s, In s (PyDict.keys d') <-> In s (PyDict.keys d) \/ In s (map cluster_size data))
  /\ (NoDup (PyDict.keys d) -> NoDup (PyDict.keys d')).
Proof.
  revert d. induction data as [| r data IH]; intros d; simpl.
  - split; [intros s; now rewrite app_nil_r | split; [tauto | trivial]].
  - destruct (IH (PyDict.update [] (fun l => l ++ [volume r]) (cluster_size r) d))
      as [Hb [Hk Hnd]].
    split; [| split].
    + intros s. rewrite Hb, bucket_update. unfold volumes_of_size. simpl.
      destruct (Nat.eqb (cluster_size r) s); simpl; [now rewrite <- app_assoc | reflexivity].
    + intros s. rewrite Hk, keys_update. intuition congruence.
    + intros Hd. apply Hnd. unfold PyDict.update. now apply PyDict.NoDup_keys_set.
Qed.

Lemma volumes_of_size_nonempty data s :
  In s (map cluster_size data) -> volumes_of_size data s <> [].
Proof.
  unfold volumes_of_size. induction data as [| r data IH]; simpl; [tauto |].
  intros [<- | Hin].
  - rewrite Nat.eqb_refl. discriminate.
  - destruct (Nat.eqb (cluster_size r) s); [discriminate | auto].
Qed.

Lemma get_of_In {V} (d : dict nat V) k v :
  NoDup (PyDict.keys d) -> In (k, v) d -> PyDict.get k d = Some v.
Proof.
  induction d as [| [k' v'] d IH]; simpl; [tauto |].
  intros Hnd [[= -> ->] | Hin].
  - destruct (eq_dec k k); congruence.
  - inversion Hnd as [| ? ? Hnotin Hnd']; subst.
    destruct (eq_dec k k') as [-> | Hne]; [| auto].
    exfalso. apply Hnotin. change k' with (fst (k', v)). now apply in_map.
Qed.

Lemma average_volumes_get (items : dict nat (list R)) (acc : dict nat R) (s : nat) :
  NoDup (PyDict.keys items) ->
  PyDict.get s (fold_left (fun av item => PyDict.set (fst item) (np_mean (snd item)) av)
                          items acc)
  = match PyDict.get s items with
    | Some volumes => Some (np_mean volumes)
    | None => PyDict.get s acc
    end.
Proof.
  revert acc. induction items as [| [k vs] items IH]; intros acc Hnd; simpl; [reflexivity |].
  inversion Hnd as [| ? ? Hnotin Hnd']; subst. rewrite IH by assumption.
  destruct (eq_dec s k) as [-> | Hne].
  - apply PyDict.get_None_keys in Hnotin. rewrite Hnotin. simpl. apply PyDict.get_set_eq.
  - destruct (PyDict.get s items); [reflexivity |]. simpl.
    apply PyDict.get_set_ne. congruence.
Qed.

Lemma total_cluster_volume_sum (dist : dict nat (list R)) :
  total_cluster_volume dist
  = Rsum (map (fun item => np_mean (snd item) * INR (List.length (snd item))) dist).
Proof.
  unfold total_cluster_volume.
  assert (Hgen : forall l acc,
    fold_left (fun total (item : nat * list R) =>
                 total + np_mean (snd item) * INR (List.length (snd item))) l acc
    = acc + Rsum (map (fun item => np_mean (snd item) * INR (List.length (snd item))) l)).
  { induction l as [| x l IH]; intros acc; simpl; [lra | rewrite IH; lra]. }
  rewrite Hgen. lra.
Qed.

Lemma insert_sorted_perm n l : Permutation (insert_sorted n l) (n :: l).
Proof.
  induction l as [| m l IH]; simpl; [reflexivity |].
  destruct (n <=? m)%nat; [reflexivity |].
  rewrite IH. apply perm_swap.
Qed.

Lemma sorted_perm l : Permutation (sorted l) l.
Proof.
  induction l as [| n l IH]; simpl; [reflexivity |].
  rewrite insert_sorted_perm. now constructor.
Qed.

Lemma Rsum_perm l1 l2 : Permutation l1 l2 -> Rsum l1 = Rsum l2.
Proof. induction 1; simpl; lra. Qed.

(** [np.argmax] returns an index of the list at which the largest value
    stands. *)
Lemma argmax_from_spec (l pre : list R) (best_index : nat) (best : R) :
  (best_index < List.length pre)%nat ->
  nth best_index pre 0 = best ->
  (forall x, In x pre -> x <= best) ->
  let k := argmax_from best_index best (List.length pre) l in
  (k < List.length (pre ++ l))%nat
  /\ forall x, In x (pre ++ l) -> x <= nth k (pre ++ l) 0.
Proof.
  revert pre best_index best. induction l as [| x l IH]; intros pre bi b Hbi Hnth Hall; simpl.
  - rewrite app_nil_r. split; [assumption |]. intros y Hy. rewrite Hnth. auto.
  - assert (Hlen : List.length (pre ++ [x]) = S (List.length pre))
      by (rewrite length_app; simpl; lia).
    assert (Happ : (pre ++ [x]) ++ l = pre ++ x :: l)
      by (rewrite <- app_assoc; reflexivity).
    destruct (Rlt_dec b x) as [Hlt | Hge].
    + pose proof (IH (pre ++ [x]) (List.length pre) x) as IH'.
      rewrite Hlen, Happ in IH'. apply IH'.
      * lia.
      * apply nth_middle.
      * intros y Hy. apply in_app_or in Hy. destruct Hy as [Hy | [<- | []]]; [| lra].
        specialize (Hall y Hy). lra.
    + pose proof (IH (pre ++ [x]) bi b) as IH'.
      rewrite Hlen, Happ in IH'. apply IH'.
      * lia.
      * now rewrite app_nth1.
      * intros y Hy. apply in_app_or in Hy. destruct Hy as [Hy | [<- | []]]; [auto | lra].
Qed.

Lemma np_argmax_spec (l : list R) :
  l <> [] ->
  exists k, np_argmax l = Ok k
            /\ (k < List.length l)%nat
            /\ forall x, In x l -> x <= nth k l 0.
Proof.
  destruct l as [| x l]; [congruence |]. intros _. simpl. eexists. split; [reflexivity |].
  apply (@argmax_from_spec l [x] 0%nat x); simpl; [lia | reflexivity |].
  intros y [<- | []]. lra.
Qed.

(** C8.  After a batch, for each cluster size the aggregator holds the
    volumes of the records of that size, reports their mean and their
    standard deviation; the volume percentage of a size is its volume
    fraction, (mean volume x count) over the sum of (mean volume x count)
    over all sizes, expressed in percent; and the mode is a size whose
    volume fraction is the largest. *)
Theorem statistics_aggregator_spec (data : list ClusterRecord) :
  let average_volumes := fst (generate_statistics data) in
  let dist := snd (generate_statistics data) in
  let sizes := sorted (PyDict.keys dist) in
  let weight := fun s =>
    np_mean (volumes_of_size data s) * INR (List.length (volumes_of_size data s)) in
  let fraction := fun s => weight s / Rsum (map weight sizes) in
  (forall s, In s sizes <-> In s (map cluster_size data))
  /\ NoDup sizes
  /\ (forall s, In s sizes ->
        bucket dist s = volumes_of_size data s
        /\ PyDict.get s average_volumes = Some (np_mean (volumes_of_size data s)))
  /\ std_devs dist = map (fun s => np_std (volumes_of_size data s)) sizes
  /\ volume_percentages dist = map (fun s => fraction s * 100) sizes
  /\ (data <> [] ->
      exists m, mode_size dist = Ok m
                /\ In m sizes
                /\ forall s, In s sizes -> fraction s <= fraction m).
Proof.
  intros average_volumes dist sizes weight fraction.
  assert (Hdist : dist = size_distribution data) by reflexivity.
  destruct (size_distribution_from data []) as [Hb [Hk Hnd]].
  fold (size_distribution data) in Hb, Hk, Hnd. rewrite <- Hdist in Hb, Hk, Hnd.
  simpl in Hb. specialize (Hnd (NoDup_nil _)).
  pose proof (sorted_perm (PyDict.keys dist)) as Hperm. fold sizes in Hperm.
  assert (Hsizes : forall s, In s sizes <-> In s (map cluster_size data)).
  { intros s. split.
    - intros Hs. apply (Permutation_in _ Hperm) in Hs. apply Hk in Hs.
      destruct Hs as [[] | Hs]. exact Hs.
    - intros Hs. apply (Permutation_in _ (Permutation_sym Hperm)). apply Hk. now right. }
  assert (Hkeys : forall s, In s sizes -> In s (PyDict.keys dist)).
  { intros s Hs. eapply Permutation_in; eassumption. }
  assert (Hbucket : forall s, bucket dist s = volumes_of_size data s) by exact Hb.
  assert (Htotal : total_cluster_volume dist = Rsum (map weight sizes)).
  { rewrite total_cluster_volume_sum.
    rewrite (Rsum_perm (Permutation_map weight Hperm)).
    unfold PyDict.keys. rewrite map_map. f_equal. apply map_ext_in.
    intros [k vs] Hin. simpl. unfold weight. rewrite <- Hbucket. unfold bucket.
    now rewrite (get_of_In dist k vs Hnd Hin). }
  assert (Hpct : volume_percentages dist = map (fun s => fraction s * 100) sizes).
  { unfold volume_percentages. fold sizes. apply map_ext_in. intros s Hs.
    rewrite Hbucket, Htotal.
    pose proof (volumes_of_size_nonempty data s (proj1 (Hsizes s) Hs)) as Hne.
    destruct (volumes_of_size data s) as [| v vs] eqn:Hv; [congruence |].
    unfold fraction, weight. rewrite Hv. reflexivity. }
  split; [exact Hsizes | split; [| split; [| split; [| split]]]].
  - eapply Permutation_NoDup; [symmetry; exact Hperm | exact Hnd].
  - intros s Hs. split; [apply Hbucket |].
    unfold average_volumes, generate_statistics. cbn [fst].
    fold (size_distribution data). rewrite <- Hdist.
    rewrite average_volumes_get by exact Hnd.
    rewrite <- Hbucket. unfold bucket.
    destruct (PyDict.get s dist) as [vs |] eqn:Hg; [reflexivity |].
    apply PyDict.get_None_keys in Hg. exfalso. auto.
  - unfold std_devs. fold sizes. apply map_ext. intros s. now rewrite Hbucket.
  - exact Hpct.
  - intros Hdata. unfold mode_size. fold sizes. rewrite Hpct.
    assert (Hne : sizes <> []).
    { destruct data as [| r data']; [congruence |].
      assert (Hin : In (cluster_size r) sizes) by (apply Hsizes; now left).
      intros E. rewrite E in Hin. destruct Hin. }
    destruct (@np_argmax_spec (map (fun s => fraction s * 100) sizes)) as [k [Hk1 [Hk2 Hk3]]].
    { destruct sizes; [congruence | discriminate]. }
    rewrite Hk1. cbn [bind]. rewrite length_map in Hk2.
    exists (nth k sizes 0%nat). split; [reflexivity | split; [now apply nth_In |]].
    intros s Hs.
    assert (Hle : fraction s * 100 <= nth k (map (fun s => fraction s * 100) sizes) 0).
    { apply Hk3. apply in_map_iff. exists s. now split. }
    rewrite (nth_indep _ 0 (fraction 0%nat * 100)) in Hle by (now rewrite length_map).
    rewrite (map_nth (fun s => fraction s * 100)) in Hle. lra.
Qed.

(** The three records of sizes 2, 2, 3 with volumes 10, 12, 9. *)
Definition three_clusters : list ClusterRecord :=
  [mkRecord "a.pdb" 2 [] 10 0; mkRecord "b.pdb" 2 [] 12 0; mkRecord "c.pdb" 3 [] 9 0].

Lemma three_clusters_statistics :
  generate_statistics three_clusters
  = ([(2%nat, np_mean [10; 12]); (3%nat, np_mean [9])], [(2%nat, [10; 12]); (3%nat, [9])])
  /\ np_mean [10; 12] = 11
  /\ np_std [10; 12] = 1
  /\ volume_percentages (snd (generate_statistics three_clusters))
     = [np_mean [10; 12] * INR 2 / total_cluster_volume [(2%nat, [10; 12]); (3%nat, [9])] * 100;
        np_mean [9] * INR 1 / total_cluster_volume [(2%nat, [10; 12]); (3%nat, [9])] * 100]
  /\ np_mean [9] * INR 1 / total_cluster_volume [(2%nat, [10; 12]); (3%nat, [9])]
     = 9 / (11 * 2 + 9).
Proof.
  assert (Hmean : np_mean [10; 12] = 11) by (unfold np_mean; simpl; lra).
  split; [reflexivity | split; [exact Hmean | split; [| split; [reflexivity |]]]].
  - unfold np_std. rewrite Hmean. unfold np_mean. simpl.
    replace (_ / _) with 1 by lra. apply sqrt_1.
  - unfold total_cluster_volume. simpl. rewrite Hmean. unfold np_mean. simpl. lra.
Qed.

Lemma statistics_aggregator_spec_witness :
  exists m,
    mode_size (snd (generate_statistics three_clusters)) = Ok m
    /\ In m (sorted (PyDict.keys (snd (generate_statistics three_clusters)))).
Proof.
  destruct (statistics_aggregator_spec three_clusters) as [_ [_ [_ [_ [_ Hmode]]]]].
  destruct Hmode as [m [Hm [Hin _]]]; [discriminate |].
  exists m. split; assumption.
Defined.

(** The estimator [estimate_volume_using_rg] of the analyzer itself applies
    the same formula to all core and shell atoms, a missing charge entry
    counting as charge 0. *)
Lemma estimate_volume_using_rg_formula
    (mendeleev_element : string -> result Mendeleev.Element)
    (charges : FormalChargeTable) (h : PDBFileHandler) (electron_count : Atom -> Z) :
  let w := fun a => IZR (electron_count a - charge_or_zero charges (element a)) in
  (forall a, In a (all_atoms h) ->
     exists info, mendeleev_element (element a) = Ok info
                  /\ Mendeleev.electrons info = electron_count a) ->
  Rsum (map w (all_atoms h)) <> 0 ->
  estimate_volume_using_rg mendeleev_element charges h
  = Ok (sphere_volume
          (radius_of_gyration (map (fun a => (w a, coordinates a)) (all_atoms h)))).
Proof.
  intros w Helec Hsum. unfold estimate_volume_using_rg, get_electron_counts.
  rewrite (mapM_total _ w).
  - cbn [bind]. rewrite calculate_radius_of_gyration_formula by assumption. reflexivity.
  - intros a Ha. destruct (Helec a Ha) as [info [Hinfo He]].
    rewrite Hinfo. cbn [bind]. unfold w. now rewrite He.
Qed.

(** * Further properties of the analyzer *)

(** ** Coordination counter: the reported statistics *)

(** The number of atoms of the structure, the target atom included when it
    is one of them, that have element [n] and lie within the threshold of the
    directional pair (element of [atom], [n]). *)
Definition coordination_count (cfg : Config) (h : PDBFileHandler) (atom : Atom) (n : string)
  : nat :=
  List.length (filter (fun o => eqb (element o) n && within_threshold cfg atom o)
                      (all_atoms h)).

(** The list stored under a key of a [defaultdict(list)]. *)
Definition entries {K V} `{EqDec K} (d : dict K (list V)) (k : K) : list V :=
  match PyDict.get k d with Some l => l | None => [] end.

Lemma zero_counts_keys (ns : list string) (n : string) :
  In n (PyDict.keys (zero_counts ns)) <-> In n ns.
Proof.
  unfold zero_counts.
  pose proof (zero_counts_get_from ns [] n) as Hget. simpl in Hget. split.
  - intros Hin. apply mem_In. destruct (mem n ns) eqn:Hm; [reflexivity |].
    apply PyDict.get_None_keys in Hget. contradiction.
  - intros Hin. apply mem_In in Hin. rewrite Hin in Hget.
    destruct (in_dec eq_dec n (PyDict.keys
               (fold_left (fun d n => PyDict.set n 0%nat d) ns []))) as [Hi | Hn];
      [assumption |].
    apply PyDict.get_None_keys in Hn. congruence.
Qed.

Lemma zero_counts_NoDup (ns : list string) : NoDup (PyDict.keys (zero_counts ns)).
Proof.
  unfold zero_counts.
  assert (Hgen : forall (d : dict string nat), NoDup (PyDict.keys d) ->
            NoDup (PyDict.keys (fold_left (fun d n => PyDict.set n 0%nat d) ns d))).
  { induction ns as [| n ns IH]; intros d Hd; simpl; [assumption |].
    apply IH. now apply PyDict.NoDup_keys_set. }
  apply Hgen. constructor.
Qed.

(** The inner loop only increments counts of keys that exist: the keys of
    [counts] stay those of the initial dictionary. *)
Lemma count_step_keys (cfg : Config) (atom other_atom : Atom) (counts : dict string nat) :
  (forall n, In n (neighbor_elements cfg) -> In n (PyDict.keys counts)) ->
  PyDict.keys (count_step cfg atom counts other_atom) = PyDict.keys counts.
Proof.
  intros Hkeys. unfold count_step.
  destruct (mem (element other_atom) (neighbor_elements cfg)) eqn:Hm; [| reflexivity].
  destruct (PyDict.get _ (distance_thresholds cfg)); [| reflexivity].
  destruct (are_connected atom other_atom r); [| reflexivity].
  unfold PyDict.update. apply PyDict.keys_set_in. apply Hkeys. now apply mem_In.
Qed.

Lemma neighbor_counts_keys (cfg : Config) (h : PDBFileHandler) (atom : Atom) :
  PyDict.keys (neighbor_counts cfg h atom) = PyDict.keys (zero_counts (neighbor_elements cfg)).
Proof.
  unfold neighbor_counts.
  assert (Hgen : forall l counts,
            (forall n, In n (neighbor_elements cfg) -> In n (PyDict.keys counts)) ->
            PyDict.keys (fold_left (count_step cfg atom) l counts) = PyDict.keys counts).
  { induction l as [| o l IH]; intros counts Hk; simpl; [reflexivity |].
    rewrite IH; [now apply count_step_keys |].
    intros n Hn. rewrite count_step_keys by assumption. auto. }
  apply Hgen. intros n Hn. now apply zero_counts_keys.
Qed.

(** Appending the counts of one target atom: the list of the pair
    (its element, [n]) grows by the atom's count of [n]; other lists stay. *)
Lemma append_counts_entries (atom : Atom) (counts : dict string nat)
    (cn : dict (string * string) (list nat)) (E n : string) :
  NoDup (PyDict.keys counts) ->
  entries (append_counts atom counts cn) (E, n)
  = entries cn (E, n)
    ++ (if eqb (element atom) E
        then match PyDict.get n counts with Some c => [c] | None => [] end
        else []).
Proof.
  unfold append_counts. revert cn.
  induction counts as [| [m c] counts IH]; intros cn Hnd; simpl.
  - destruct (eqb (element atom) E); now rewrite app_nil_r.
  - inversion Hnd as [| ? ? Hnotin Hnd']; subst. rewrite IH by assumption.
    unfold entries at 1, PyDict.update.
    unfold eqb. destruct (eq_dec (element atom) E) as [HE | HE].
    + destruct (eq_dec n m) as [-> | Hnm].
      * rewrite HE, PyDict.get_set_eq.
        apply PyDict.get_None_keys in Hnotin. rewrite Hnotin.
        rewrite app_nil_r. unfold entries. reflexivity.
      * rewrite PyDict.get_set_ne by congruence. reflexivity.
    + rewrite PyDict.get_set_ne by congruence. now rewrite !app_nil_r.
Qed.

Lemma append_counts_keys (atom : Atom) (counts : dict string nat)
    (cn : dict (string * string) (list nat)) (k : string * string) :
  In k (PyDict.keys (append_counts atom counts cn))
  <-> In k (PyDict.keys cn) \/ (fst k = element atom /\ In (snd k) (PyDict.keys counts)).
Proof.
  unfold append_counts. revert cn.
  induction counts as [| [m c] counts IH]; intros cn; simpl.
  - tauto.
  - rewrite IH. unfold PyDict.update.
    destruct (in_dec eq_dec (element atom, m) (PyDict.keys cn)) as [Hi | Hn].
    + rewrite PyDict.keys_set_in by assumption. destruct k as [k1 k2]; simpl.
      split; [tauto |]. intros [H | [H1 [H2 | H2]]]; subst; tauto.
    + rewrite PyDict.keys_set_notin by assumption. rewrite in_app_iff.
      destruct k as [k1 k2]; simpl.
      split.
      * intros [[H | [[= <- <-] | []]] | H]; tauto.
      * intros [H | [H1 [H2 | H2]]]; subst; tauto.
Qed.

(** The counts recorded for a pair: one per target atom of the pair's target
    element, in the order of the target atoms. *)
Lemma coordination_numbers_entries (cfg : Config) (h : PDBFileHandler)
    (target_atoms : list Atom) (E n : string) :
  In n (neighbor_elements cfg) ->
  entries (coordination_numbers cfg h target_atoms) (E, n)
  = map (fun a => coordination_count cfg h a n)
        (filter (fun a => eqb (element a) E) target_atoms).
Proof.
  intros Hn. unfold coordination_numbers.
  assert (Hgen : forall l cn,
    entries (fold_left (fun cn atom => append_counts atom (neighbor_counts cfg h atom) cn) l cn)
            (E, n)
    = entries cn (E, n)
      ++ map (fun a => coordination_count cfg h a n) (filter (fun a => eqb (element a) E) l)).
  { induction l as [| a l IH]; intros cn; simpl; [now rewrite app_nil_r |].
    rewrite IH, append_counts_entries
      by (rewrite neighbor_counts_keys; apply zero_counts_NoDup).
    rewrite neighbor_counts_get by assumption. fold (coordination_count cfg h a n).
    destruct (eqb (element a) E); simpl; [now rewrite <- app_assoc | now rewrite app_nil_r]. }
  rewrite Hgen. reflexivity.
Qed.

Lemma coordination_numbers_keys (cfg : Config) (h : PDBFileHandler)
    (target_atoms : list Atom) (k : string * string) :
  In k (PyDict.keys (coordination_numbers cfg h target_atoms))
  <-> (exists a, In a target_atoms /\ element a = fst k) /\ In (snd k) (neighbor_elements cfg).
Proof.
  unfold coordination_numbers.
  assert (Hgen : forall l cn,
    In k (PyDict.keys (fold_left
            (fun cn atom => append_counts atom (neighbor_counts cfg h atom) cn) l cn))
    <-> In k (PyDict.keys cn)
        \/ ((exists a, In a l /\ element a = fst k) /\ In (snd k) (neighbor_elements cfg))).
  { induction l as [| a l IH]; intros cn; simpl.
    - split; [tauto | intros [H | [[a [[] _]] _]]; assumption].
    - rewrite IH, append_counts_keys, neighbor_counts_keys, zero_counts_keys.
      split.
      + intros [[H | [H1 H2]] | [[b [Hb He]] H2]]; [tauto | right | right].
        * split; [exists a; split; [now left | congruence] | assumption].
        * split; [exists b; split; [now right | assumption] | assumption].
      + intros [H | [[b [[<- | Hb] He]] H2]]; [tauto | left; right | right].
        * split; [congruence | assumption].
        * split; [exists b; split; assumption | assumption]. }
  rewrite Hgen. simpl. tauto.
Qed.

Lemma get_map_values {K V W} `{EqDec K} (f : V -> W) (d : dict K V) (k : K) :
  PyDict.get k (map (fun kv => (fst kv, f (snd kv))) d) = option_map f (PyDict.get k d).
Proof.
  induction d as [| [k' v] d IH]; simpl; [reflexivity |].
  destruct (eq_dec k k'); [reflexivity | exact IH].
Qed.

(** X1.  For every target atom's element [E] and every configured neighbor
    element [n], the statistics returned by [calculate_coordination_numbers]
    hold, under the key [(E, n)], the mean and the population standard
    deviation of the counts of [n] over the target atoms of element [E],
    the count of a target atom being the number of atoms of the structure
    of element [n] within the threshold of [(E, n)]. *)
Theorem calculate_coordination_numbers_stats (cfg : Config) (h : PDBFileHandler)
    (target_atoms : list Atom) (a : Atom) (n : string) :
  In a target_atoms ->
  In n (neighbor_elements cfg) ->
  let counts := map (fun b => INR (coordination_count cfg h b n))
                    (filter (fun b => eqb (element b) (element a)) target_atoms) in
  PyDict.get (element a, n) (calculate_coordination_numbers cfg h target_atoms)
  = Some (np_mean counts, np_std counts)
  /\ List.length counts
     = List.length (filter (fun b => eqb (element b) (element a)) target_atoms).
Proof.
  intros Ha Hn counts. split; [| unfold counts; now rewrite length_map].
  unfold calculate_coordination_numbers.
  rewrite (map_ext _ (fun kv => (fst kv, (np_mean (map INR (snd kv)), np_std (map INR (snd kv))))))
    by (intros [k v]; reflexivity).
  rewrite (get_map_values (fun v => (np_mean (map INR v), np_std (map INR v)))).
  pose proof (coordination_numbers_entries cfg h target_atoms (element a) n Hn) as He.
  unfold entries in He.
  destruct (PyDict.get (element a, n) (coordination_numbers cfg h target_atoms)) as [l |] eqn:Hg.
  - simpl. rewrite He. unfold counts. now rewrite map_map.
  - exfalso. apply PyDict.get_None_keys in Hg. apply Hg.
    apply coordination_numbers_keys. simpl. split; [exists a; now split | assumption].
Qed.

(** Lead as target, iodine as neighbor, with a Pb-I threshold of 3.5 A. *)
Definition lead_iodide_config : Config :=
  mkConfig ["Pb"%string] ["I"%string] [(("Pb"%string, "I"%string), 35 / 10)]
           [("Pb"%string, (2, 6)%Z); ("I"%string, (-1, 6)%Z)] "ionic_radius".

Lemma calculate_coordination_numbers_stats_witness :
  let pb := mkAtom "Pb" (Vec3 0 0 0) in
  let counts := map (fun b => INR (coordination_count lead_iodide_config lead_iodide b "I"))
                    (filter (fun b => eqb (element b) "Pb"%string) [pb]) in
  PyDict.get ("Pb"%string, "I"%string)
             (calculate_coordination_numbers lead_iodide_config lead_iodide [pb])
  = Some (np_mean counts, np_std counts).
Proof.
  intros pb counts.
  apply (@calculate_coordination_numbers_stats lead_iodide_config lead_iodide [pb] pb "I").
  - simpl. tauto.
  - simpl. tauto.
Defined.

(** X2.  The count kept for a configured neighbor element is the number of
    atoms of the structure that have this element and lie within the
    threshold configured for the directional pair; in particular it never
    exceeds the number of atoms of that element. *)
Theorem neighbor_counts_value (cfg : Config) (h : PDBFileHandler) (atom : Atom) (n : string) :
  In n (neighbor_elements cfg) ->
  PyDict.get n (neighbor_counts cfg h atom) = Some (coordination_count cfg h atom n)
  /\ (coordination_count cfg h atom n
      <= List.length (filter (fun o => eqb (element o) n) (all_atoms h)))%nat.
Proof.
  intros Hn. split; [now apply neighbor_counts_get |].
  unfold coordination_count. induction (all_atoms h) as [| o l IH]; simpl; [lia |].
  destruct (eqb (element o) n); simpl; [| exact IH].
  destruct (within_threshold cfg atom o); simpl; lia.
Qed.

Lemma neighbor_counts_value_witness :
  PyDict.get "I"%string
             (neighbor_counts lead_iodide_config lead_iodide (mkAtom "Pb" (Vec3 0 0 0)))
  = Some (coordination_count lead_iodide_config lead_iodide (mkAtom "Pb" (Vec3 0 0 0)) "I").
Proof.
  apply (@neighbor_counts_value lead_iodide_config lead_iodide (mkAtom "Pb" (Vec3 0 0 0)) "I").
  simpl. tauto.
Defined.

(** X3.  Thresholds are looked up by the ordered pair (target element,
    neighbor element): when that key has no threshold the count of the
    neighbor element is 0 for the target atom, whatever is configured for
    other keys, the reversed pair included. *)
Theorem no_threshold_no_count (cfg : Config) (h : PDBFileHandler) (atom : Atom) (n : string) :
  In n (neighbor_elements cfg) ->
  PyDict.get (element atom, n) (distance_thresholds cfg) = None ->
  PyDict.get n (neighbor_counts cfg h atom) = Some 0%nat.
Proof.
  intros Hn Hnone. rewrite neighbor_counts_get by assumption. f_equal.
  induction (all_atoms h) as [| o l IH]; [reflexivity |].
  cbn [filter]. destruct (eqb (element o) n) eqn:He; cbn [andb]; [| exact IH].
  apply eqb_true in He. unfold within_threshold at 1. rewrite He, Hnone. exact IH.
Qed.

Lemma no_threshold_no_count_witness :
  let cfg := mkConfig ["Pb"%string] ["I"%string] [(("I"%string, "Pb"%string), 35 / 10)] []
                      "ionic_radius" in
  PyDict.get "I"%string (neighbor_counts cfg lead_iodide (mkAtom "Pb" (Vec3 0 0 0)))
  = Some 0%nat.
Proof.
  intros cfg.
  apply (@no_threshold_no_count cfg lead_iodide (mkAtom "Pb" (Vec3 0 0 0)) "I").
  - simpl. tauto.
  - reflexivity.
Defined.

Lemma norm_vsub_sym (p q : vec3) : norm (vsub p q) = norm (vsub q p).
Proof. unfold norm. f_equal. unfold sqnorm, vsub; simpl. ring. Qed.

Lemma are_connected_larger (atom1 atom2 : Atom) (threshold larger : R) :
  threshold <= larger ->
  are_connected atom1 atom2 threshold = true -> are_connected atom1 atom2 larger = true.
Proof.
  unfold are_connected. intros Hle.
  destruct (Rle_dec _ threshold) as [H1 | H1]; [| discriminate].
  destruct (Rle_dec _ larger) as [H2 | H2]; [reflexivity | lra].
Qed.

(** X4.  [are_connected] does not depend on the order of its two atoms, and
    once two atoms are connected at a threshold they are connected at every
    larger one. *)
Theorem are_connected_symmetric_monotone (atom1 atom2 : Atom) (threshold larger : R) :
  are_connected atom1 atom2 threshold = are_connected atom2 atom1 threshold
  /\ (threshold <= larger ->
      are_connected atom1 atom2 threshold = true ->
      are_connected atom1 atom2 larger = true).
Proof.
  split; [| apply are_connected_larger].
  unfold are_connected. now rewrite (norm_vsub_sym (coordinates atom2)).
Qed.

Lemma are_connected_symmetric_monotone_witness :
  are_connected (mkAtom "Pb" (Vec3 0 0 0)) (mkAtom "Pb" (Vec3 0 0 0)) 5 = true.
Proof.
  destruct (are_connected_symmetric_monotone (mkAtom "Pb" (Vec3 0 0 0))
              (mkAtom "Pb" (Vec3 0 0 0)) 3 5) as [_ Hmono].
  apply Hmono; [lra |]. apply are_connected_self. lra.
Defined.

(** The configuration with the threshold of one pair replaced. *)
Definition with_threshold (cfg : Config) (key : string * string) (threshold : R) : Config :=
  mkConfig (target_elements cfg) (neighbor_elements cfg)
           (PyDict.set key threshold (distance_thresholds cfg))
           (charges cfg) (volume_method cfg).

Lemma filter_length_le {A} (f g : A -> bool) (l : list A) :
  (forall x, In x l -> f x = true -> g x = true) ->
  (List.length (filter f l) <= List.length (filter g l))%nat.
Proof.
  induction l as [| x l IH]; intros Himp; simpl; [lia |].
  assert (IH' : (List.length (filter f l) <= List.length (filter g l))%nat)
    by (apply IH; intros y Hy; apply Himp; now right).
  destruct (f x) eqn:Hf.
  - rewrite (Himp x (or_introl eq_refl) Hf). simpl. lia.
  - destruct (g x); simpl; lia.
Qed.

(** X5.  Raising the threshold of the pair (target element, [n]) never
    lowers a target atom's count of [n], and leaves its counts of the other
    neighbor elements unchanged. *)
Theorem coordination_count_monotone (cfg : Config) (h : PDBFileHandler) (atom : Atom)
    (n : string) (threshold larger : R) :
  PyDict.get (element atom, n) (distance_thresholds cfg) = Some threshold ->
  threshold <= larger ->
  let cfg' := with_threshold cfg (element atom, n) larger in
  (coordination_count cfg h atom n <= coordination_count cfg' h atom n)%nat
  /\ forall m, m <> n -> coordination_count cfg' h atom m = coordination_count cfg h atom m.
Proof.
  intros Hthr Hle cfg'. unfold coordination_count. split.
  - apply filter_length_le. intros o _. cbv beta.
    destruct (eqb (element o) n) eqn:He; cbn [andb]; [| discriminate].
    apply eqb_true in He.
    unfold within_threshold, cfg', with_threshold. cbn [distance_thresholds].
    rewrite He, Hthr, PyDict.get_set_eq.
    now apply are_connected_larger.
  - intros m Hm. f_equal. apply filter_ext. intros o.
    destruct (eqb (element o) m) eqn:He; cbn [andb]; [| reflexivity].
    apply eqb_true in He.
    unfold within_threshold, cfg', with_threshold. cbn [distance_thresholds].
    rewrite PyDict.get_set_ne by congruence. reflexivity.
Qed.

Lemma coordination_count_monotone_witness :
  (coordination_count lead_iodide_config lead_iodide (mkAtom "Pb" (Vec3 0 0 0)) "I"
   <= coordination_count (with_threshold lead_iodide_config ("Pb"%string, "I"%string) 4)
                         lead_iodide (mkAtom "Pb" (Vec3 0 0 0)) "I")%nat.
Proof.
  apply (@coordination_count_monotone lead_iodide_config lead_iodide
           (mkAtom "Pb" (Vec3 0 0 0)) "I" (35 / 10) 4).
  - reflexivity.
  - lra.
Defined.

(** ** Charge aggregator: independence of order and grouping *)

Lemma calculate_cluster_charge_Zsum (charges : FormalChargeTable) (h : PDBFileHandler) :
  calculate_cluster_charge charges h
  = Zsum (map (fun a => charge_or_zero charges (element a)) (all_atoms h)).
Proof.
  unfold calculate_cluster_charge, all_atoms.
  rewrite !fold_left_add_Zsum, map_app, Zsum_app. lia.
Qed.

Lemma Zsum_perm l1 l2 : Permutation l1 l2 -> Zsum l1 = Zsum l2.
Proof. induction 1; simpl; lia. Qed.

(** X6.  The cluster charge depends only on which atoms the structure
    holds, not on their order nor on their split into core and shell; and
    the charge of a structure made of the atoms of two structures is the sum
    of their charges. *)
Theorem calculate_cluster_charge_rearranged (charges : FormalChargeTable)
    (h h1 h2 : PDBFileHandler) :
  (Permutation (all_atoms h) (all_atoms h1) ->
   calculate_cluster_charge charges h = calculate_cluster_charge charges h1)
  /\ (Permutation (all_atoms h) (all_atoms h1 ++ all_atoms h2) ->
      calculate_cluster_charge charges h
      = (calculate_cluster_charge charges h1 + calculate_cluster_charge charges h2)%Z).
Proof.
  rewrite !calculate_cluster_charge_Zsum. split; intros Hperm.
  - apply Zsum_perm. now apply Permutation_map.
  - rewrite <- Zsum_app, <- map_app. apply Zsum_perm. now apply Permutation_map.
Qed.

Lemma calculate_cluster_charge_rearranged_witness :
  let charges : FormalChargeTable := [("Pb"%string, (2, 6)%Z); ("I"%string, (-1, 6)%Z)] in
  let pb := mkAtom "Pb" (Vec3 0 0 0) in
  let i := mkAtom "I" (Vec3 3 0 0) in
  calculate_cluster_charge charges (mkHandler [i] [pb])
  = calculate_cluster_charge charges (mkHandler [pb] [i]).
Proof.
  intros charges pb i.
  destruct (calculate_cluster_charge_rearranged charges (mkHandler [i] [pb])
              (mkHandler [pb] [i]) (mkHandler [] [])) as [Hperm _].
  apply Hperm. apply perm_swap.
Defined.

(** ** Radius-lookup builder: which keys it holds *)

Lemma has_true_keys {K V} `{EqDec K} (k : K) (d : dict K V) :
  PyDict.has k d = true <-> In k (PyDict.keys d).
Proof.
  unfold PyDict.has. pose proof (PyDict.get_None_keys k d) as Hn.
  destruct (PyDict.get k d) as [v |].
  - split; [intros _ | reflexivity].
    destruct (in_dec eq_dec k (PyDict.keys d)) as [Hi | Hni]; [assumption |].
    apply Hn in Hni. discriminate.
  - split; [discriminate |]. intros Hin. exfalso. now apply (proj1 Hn).
Qed.

Lemma build_step_keys (mendeleev_element : string -> result Mendeleev.Element)
    (st st' : BuilderState) (atom_type : string) (charge coordination : Z) (key : string * Z) :
  build_step mendeleev_element st (atom_type, (charge, coordination)) = Ok st' ->
  (In key (PyDict.keys (b_lookup st'))
   <-> In key (PyDict.keys (b_lookup st))
       \/ (key = (atom_type, charge) /\ to_roman coordination <> None)).
Proof.
  unfold build_step.
  destruct (to_roman coordination) as [roman |] eqn:Hroman.
  2:{ intros [= <-]. simpl. split; [tauto | intros [H | [_ H]]; [assumption | congruence]]. }
  destruct (PyDict.has (atom_type, charge) (b_lookup st)) eqn:Hhas.
  { intros [= <-]. apply has_true_keys in Hhas.
    split; [tauto | intros [H | [-> _]]; assumption]. }
  assert (Hnotin : ~ In (atom_type, charge) (PyDict.keys (b_lookup st))).
  { intros Hin. apply has_true_keys in Hin. congruence. }
  assert (Hset : forall e,
    In key (PyDict.keys (PyDict.set (atom_type, charge) e (b_lookup st)))
    <-> In key (PyDict.keys (b_lookup st))
        \/ (key = (atom_type, charge) /\ Some roman <> None)).
  { intros e. rewrite PyDict.keys_set_notin by assumption. rewrite in_app_iff. simpl.
    split; [intros [H | [<- | []]]; [tauto | right; split; congruence]
           | intros [H | [-> _]]; tauto]. }
  destruct (mendeleev_element atom_type) as [elem | e]; simpl; [| discriminate].
  destruct (matching_radius elem charge roman) as [ir |]; [intros [= <-]; apply Hset |].
  destruct (Mendeleev.covalent_radius elem) as [cr |]; [| discriminate].
  destruct (Req_dec_T (cr / 100) 0); intros [= <-]; apply Hset.
Qed.

Lemma build_loop_keys (mendeleev_element : string -> result Mendeleev.Element)
    (items : list (string * (Z * Z))) (st st' : BuilderState) (key : string * Z) :
  build_loop mendeleev_element items st = Ok st' ->
  (In key (PyDict.keys (b_lookup st'))
   <-> In key (PyDict.keys (b_lookup st))
       \/ exists coordination,
            In (fst key, (snd key, coordination)) items /\ to_roman coordination <> None).
Proof.
  revert st. induction items as [| [atom_type [charge coordination]] items IH];
    intros st; cbn [build_loop].
  - intros [= <-]. split; [tauto | intros [H | [n [[] _]]]; assumption].
  - destruct (build_step mendeleev_element st (atom_type, (charge, coordination)))
      as [st1 | e] eqn:Hstep; cbn [bind]; [| discriminate].
    intros Hloop. rewrite (IH _ Hloop), (build_step_keys _ _ _ _ _ key Hstep).
    destruct key as [k1 k2]. simpl. split.
    + intros [[H | [[= -> ->] Hr]] | [n [Hin Hr]]]; [tauto | right | right].
      * exists coordination. split; [now left | assumption].
      * exists n. split; [now right | assumption].
    + intros [H | [n [[[= <- <- <-] | Hin] Hr]]]; [tauto | left; right; tauto | right].
      exists n. tauto.
Qed.

(** X7.  When the builder returns, its lookup has at most one entry per
    (element, charge) key, every entry's volume is [(4/3) pi r^3] for its
    stored radius [r] or both are absent together, and the keys are exactly
    the (element, charge) pairs of the charge-table entries whose
    coordination number is between 1 and 15. *)
Theorem radius_lookup_keys_and_entries
    (mendeleev_element : string -> result Mendeleev.Element)
    (charges : FormalChargeTable) (st : BuilderState) :
  build_ionic_radius_lookup mendeleev_element charges = Ok st ->
  NoDup (PyDict.keys (b_lookup st))
  /\ (forall key entry, PyDict.get key (b_lookup st) = Some entry ->
        (exists r, entry_ionic_radius entry = Some r
                   /\ entry_volume entry = Some (4 / 3 * PI * r ^ 3))
        \/ (entry_ionic_radius entry = None /\ entry_volume entry = None))
  /\ (forall el charge,
        In (el, charge) (PyDict.keys (b_lookup st))
        <-> exists coordination,
              In (el, (charge, coordination)) charges
              /\ (1 <= coordination <= 15)%Z).
Proof.
  intros Hbuild. destruct (build_ionic_radius_lookup_ok _ _ Hbuild) as [Hnd Hall].
  split; [exact Hnd | split].
  - intros key entry Hget. apply PyDict.get_In in Hget.
    rewrite Forall_forall in Hall. exact (Hall _ Hget).
  - intros el charge. unfold build_ionic_radius_lookup in Hbuild.
    rewrite (build_loop_keys _ _ _ (el, charge) Hbuild). simpl.
    assert (Hroman : forall n, to_roman n <> None <-> (1 <= n <= 15)%Z).
    { intros n. split.
      - intros Hn. destruct n as [| p | p]; simpl in Hn; try congruence.
        do 4 (destruct p as [p | p |]; simpl in Hn; try congruence; try lia).
      - intros [H1 H15].
        assert (Hcases : (n = 1 \/ n = 2 \/ n = 3 \/ n = 4 \/ n = 5 \/ n = 6 \/ n = 7 \/ n = 8
                          \/ n = 9 \/ n = 10 \/ n = 11 \/ n = 12 \/ n = 13 \/ n = 14
                          \/ n = 15)%Z) by lia.
        repeat (destruct Hcases as [-> | Hcases]; [discriminate |]).
        subst. discriminate. }
    split.
    + intros [[] | [n [Hin Hr]]]. exists n. split; [assumption | now apply Hroman].
    + intros [n [Hin Hr]]. right. exists n. split; [assumption | now apply Hroman].
Qed.

Lemma radius_lookup_keys_and_entries_witness :
  exists st,
    build_ionic_radius_lookup example_elements [("Pb"%string, (2, 6)%Z)] = Ok st
    /\ NoDup (PyDict.keys (b_lookup st)).
Proof.
  eexists. split; [reflexivity |].
  apply (@radius_lookup_keys_and_entries example_elements [("Pb"%string, (2, 6)%Z)]).
  reflexivity.
Defined.

(** ** What the builder stores for each charge-table entry *)










(** ** The coordination labels *)

Definition roman_digit (c : Ascii.ascii) : Z :=
  let digit := String c EmptyString in
  if String.eqb digit "I" then 1
  else if String.eqb digit "V" then 5
  else if String.eqb digit "X" then 10
  else 0.

(** The number a Roman numeral denotes: a digit smaller than its successor
    is subtracted, any other digit is added. *)
Fixpoint roman_value (s : string) : Z :=
  match s with
  | EmptyString => 0
  | String c rest =>
      match rest with
      | EmptyString => roman_digit c
      | String c' _ =>
          if (roman_digit c <? roman_digit c')%Z
          then (roman_value rest - roman_digit c)%Z
          else (roman_value rest + roman_digit c)%Z
      end
  end.

(** X8.  [to_roman] gives a label exactly for the coordination numbers 1 to
    15, the label is the Roman numeral of the number, and different numbers
    get different labels. *)
Theorem to_roman_labels (n : Z) :
  (to_roman n <> None <-> (1 <= n <= 15)%Z)
  /\ (forall label, to_roman n = Some label -> roman_value label = n)
  /\ (forall m label, to_roman n = Some label -> to_roman m = Some label -> m = n).
Proof.
  assert (Hvalue : forall k label, to_roman k = Some label -> roman_value label = k).
  { intros k label. destruct k as [| p | p]; simpl; try discriminate.
    do 4 (destruct p as [p | p |]; simpl; try discriminate;
          try (intros [= <-]; reflexivity)). }
  split; [| split].
  - split.
    + intros Hn. destruct n as [| p | p]; simpl in Hn; try congruence.
      do 4 (destruct p as [p | p |]; simpl in Hn; try congruence; try lia).
    + intros [H1 H15].
      assert (Hcases : (n = 1 \/ n = 2 \/ n = 3 \/ n = 4 \/ n = 5 \/ n = 6 \/ n = 7 \/ n = 8
                        \/ n = 9 \/ n = 10 \/ n = 11 \/ n = 12 \/ n = 13 \/ n = 14
                        \/ n = 15)%Z) by lia.
      repeat (destruct Hcases as [-> | Hcases]; [discriminate |]).
      subst. discriminate.
  - exact (Hvalue n).
  - intros m label Hn Hm. apply Hvalue in Hn, Hm. congruence.
Qed.

Lemma to_roman_labels_witness : roman_value "VI" = 6%Z.
Proof.
  destruct (to_roman_labels 6) as [_ [Hvalue _]]. apply Hvalue. reflexivity.
Defined.

(** ** Ionic-sphere summation: additivity and completeness of the lookup *)

Lemma estimate_total_volume_sum (radius_lookup : RadiusLookup) (charges : FormalChargeTable)
    (h : PDBFileHandler) :
  fst (estimate_total_molecular_volume radius_lookup charges h)
  = Rsum (map (fun a => group_volume radius_lookup (group_key charges a)) (all_atoms h)).
Proof.
  unfold estimate_total_molecular_volume. rewrite volume_loop_spec. simpl.
  rewrite weighted_total_element_counts. lra.
Qed.

(** X9.  The ionic-sphere volume depends only on which atoms the structure
    holds, and the volume of a structure made of the atoms of two structures
    is the sum of their volumes; in particular a structure duplicated atom
    for atom has twice the volume. *)
Theorem ionic_volume_additive (radius_lookup : RadiusLookup) (charges : FormalChargeTable)
    (h h1 h2 : PDBFileHandler) :
  let V := fun s => fst (estimate_total_molecular_volume radius_lookup charges s) in
  (Permutation (all_atoms h) (all_atoms h1 ++ all_atoms h2) -> V h = V h1 + V h2)
  /\ V (mkHandler (core_atoms h ++ core_atoms h) (shell_atoms h ++ shell_atoms h)) = 2 * V h.
Proof.
  intros V. unfold V. rewrite !estimate_total_volume_sum. split.
  - intros Hperm. rewrite <- Rsum_app, <- map_app. apply Rsum_perm.
    now apply Permutation_map.
  - unfold all_atoms. simpl. rewrite !map_app, !Rsum_app. lra.
Qed.

(** A lookup holding lead(+2) with radius 1.19 A and iodide(-1) with radius
    2.20 A, and the charge table it belongs to. *)
Definition lead_iodide_lookup : RadiusLookup :=
  [(("Pb"%string, 2%Z), mkEntry (Some (119 / 100)) (Some (sphere_volume (119 / 100))));
   (("I"%string, (-1)%Z), mkEntry (Some (220 / 100)) (Some (sphere_volume (220 / 100))))].

Definition lead_iodide_charges : FormalChargeTable :=
  [("Pb"%string, (2, 6)%Z); ("I"%string, (-1, 6)%Z)].

Lemma ionic_volume_additive_witness :
  let V := fun s =>
    fst (estimate_total_molecular_volume lead_iodide_lookup lead_iodide_charges s) in
  let iodide := mkHandler [mkAtom "I" (Vec3 3 0 0)] [] in
  let lead := mkHandler [mkAtom "Pb" (Vec3 0 0 0)] [] in
  V lead_iodide = V iodide + V lead
  /\ V iodide = sphere_volume (220 / 100)
  /\ V lead = sphere_volume (119 / 100)
  /\ V lead_iodide = sphere_volume (220 / 100) + sphere_volume (119 / 100).
Proof.
  intros V iodide lead.
  destruct (ionic_volume_additive lead_iodide_lookup lead_iodide_charges
              lead_iodide iodide lead) as [Hadd _].
  assert (Hi : V iodide = sphere_volume (220 / 100)) by (unfold V; simpl; lra).
  assert (Hl : V lead = sphere_volume (119 / 100)) by (unfold V; simpl; lra).
  assert (Hsum : V lead_iodide = V iodide + V lead) by (apply Hadd; apply perm_swap).
  split; [exact Hsum | split; [exact Hi | split; [exact Hl |]]].
  rewrite Hsum, Hi, Hl. reflexivity.
Defined.

(** X10.  For an analyzer constructed with the ionic-radius method, every
    atom whose element has a charge-table entry with a coordination number
    between 1 and 15 belongs to a group that has a lookup entry, and that
    entry is well formed: the estimator prints no missing-entry warning for
    such an atom. *)
Theorem constructed_lookup_covers_table
    (mendeleev_element : string -> result Mendeleev.Element)
    (cfg : Config) (files : list string) (self : ClusterBatchAnalyzer)
    (log : list diagnostic) (atom : Atom) (charge coordination : Z) :
  volume_method cfg = "ionic_radius"%string ->
  init mendeleev_element cfg files = Ok (self, log) ->
  PyDict.get (element atom) (charges cfg) = Some (charge, coordination) ->
  (1 <= coordination <= 15)%Z ->
  exists lookup entry,
    radius_lookup self = Some lookup
    /\ group_key (charges cfg) atom = (element atom, charge)
    /\ PyDict.get (element atom, charge) lookup = Some entry
    /\ ((exists r, entry_ionic_radius entry = Some r
                   /\ entry_volume entry = Some (sphere_volume r))
        \/ (entry_ionic_radius entry = None /\ entry_volume entry = None))
    /\ group_warning lookup (element atom, charge)
       <> [NoRadiusInLookup (element atom) charge].
Proof.
  intros Hmethod Hinit Hget Hcoord. unfold init in Hinit. rewrite Hmethod in Hinit.
  simpl in Hinit.
  destruct (build_ionic_radius_lookup mendeleev_element (charges cfg)) as [st | e] eqn:Hb;
    simpl in Hinit; [| discriminate].
  injection Hinit as <- <-.
  destruct (build_ionic_radius_lookup_ok _ _ Hb) as [Hnd Hall].
  assert (Hkey : In (element atom, charge) (PyDict.keys (b_lookup st))).
  { unfold build_ionic_radius_lookup in Hb.
    apply (build_loop_keys _ _ _ (element atom, charge) Hb). right.
    exists coordination. split; [apply PyDict.get_In; exact Hget |].
    destruct coordination as [| p | p]; try lia.
    do 4 (destruct p as [p | p |]; simpl; try discriminate; try lia). }
  destruct (PyDict.get (element atom, charge) (b_lookup st)) as [entry |] eqn:He.
  2:{ apply PyDict.get_None_keys in He. contradiction. }
  exists (b_lookup st), entry. split; [reflexivity | split; [| split; [exact He | split]]].
  - unfold group_key, charge_or_zero. now rewrite Hget.
  - apply PyDict.get_In in He. rewrite Forall_forall in Hall. exact (Hall _ He).
  - unfold group_warning. rewrite He. destruct (entry_volume entry); discriminate.
Qed.

Lemma constructed_lookup_covers_table_witness :
  exists self lookup entry,
    init example_elements (example_config "ionic_radius") [] = Ok (self, [])
    /\ radius_lookup self = Some lookup
    /\ PyDict.get ("Pb"%string, 2%Z) lookup = Some entry.
Proof.
  destruct (@constructed_lookup_covers_table example_elements (example_config "ionic_radius")
              [] (mkAnalyzer (example_config "ionic_radius") []
                    (Some [(("Pb"%string, 2%Z),
                            mkEntry (Some (119 / 100)) (Some (sphere_volume (119 / 100))))])
                    [] [] [])
              [] (mkAtom "Pb" (Vec3 0 0 0)) 2 6)
    as [lookup [entry [Hl [_ [He _]]]]].
  - reflexivity.
  - reflexivity.
  - reflexivity.
  - lia.
  - eexists. exists lookup, entry. split; [reflexivity | split; assumption].
Defined.

(** ** Radius of gyration: invariances and degenerate inputs *)

Lemma zip_with_map_r {A B C D} (f : A -> B -> C) (g : D -> B) (l1 : list A) (l2 : list D) :
  zip_with f l1 (map g l2) = zip_with (fun a d => f a (g d)) l1 l2.
Proof.
  unfold zip_with. revert l2. induction l1 as [| a l1 IH]; intros [| d l2]; simpl;
    try reflexivity. now rewrite IH.
Qed.

Lemma zip_with_map_l {A B C D} (f : A -> B -> C) (g : D -> A) (l1 : list D) (l2 : list B) :
  zip_with f (map g l1) l2 = zip_with (fun d b => f (g d) b) l1 l2.
Proof.
  unfold zip_with. revert l2. induction l1 as [| a l1 IH]; intros [| d l2]; simpl;
    try reflexivity. now rewrite IH.
Qed.

Lemma zip_with_ext {A B C} (f g : A -> B -> C) (l1 : list A) (l2 : list B) :
  (forall a b, f a b = g a b) -> zip_with f l1 l2 = zip_with g l1 l2.
Proof. intros Hfg. unfold zip_with. apply map_ext. intros [a b]. apply Hfg. Qed.

Lemma vsum_translated (t : vec3) (ws : list R) (ps : list vec3) :
  List.length ps = List.length ws ->
  vsum (zip_with vscale ws (map (vadd t) ps))
  = vadd (vscale (Rsum ws) t) (vsum (zip_with vscale ws ps)).
Proof.
  revert ps. induction ws as [| w ws IH]; intros [| p ps] Hlen; simpl in Hlen;
    try discriminate.
  - unfold zip_with, vadd, vscale; simpl. f_equal; ring.
  - injection Hlen as Hlen. specialize (IH ps Hlen).
    unfold zip_with in *. simpl. rewrite IH.
    unfold vadd, vscale; simpl. f_equal; ring.
Qed.

Lemma vsum_scaled (k : R) (ws : list R) (ps : list vec3) :
  vsum (zip_with vscale (map (Rmult k) ws) ps) = vscale k (vsum (zip_with vscale ws ps)).
Proof.
  revert ps. induction ws as [| w ws IH]; intros [| p ps]; unfold zip_with in *; simpl;
    try (unfold vscale; simpl; f_equal; ring).
  rewrite IH. unfold vadd, vscale; simpl. f_equal; ring.
Qed.

Lemma Rsum_scaled (k : R) (l : list R) : Rsum (map (Rmult k) l) = k * Rsum l.
Proof. induction l as [| x l IH]; simpl; [ring | rewrite IH; ring]. Qed.

(** X11.  The radius of gyration does not change when every atom is moved
    by the same vector. *)
Theorem radius_of_gyration_translation_invariant (t : vec3) (positions : list vec3)
    (electron_counts : list R) :
  List.length positions = List.length electron_counts ->
  calculate_radius_of_gyration (map (vadd t) positions) electron_counts
  = calculate_radius_of_gyration positions electron_counts.
Proof.
  intros Hlen. unfold calculate_radius_of_gyration, np_average.
  rewrite length_map, Hlen, Nat.eqb_refl. cbn [negb].
  destruct (Req_dec_T (Rsum electron_counts) 0) as [Hz | Hnz]; [reflexivity |].
  cbn [bind]. rewrite vsum_translated by assumption.
  rewrite zip_with_map_r.
  set (W := Rsum electron_counts) in *.
  set (S := vsum (zip_with vscale electron_counts positions)).
  rewrite (zip_with_ext
             (fun w p => w * sqnorm (vsub (vadd t p) (vdiv (vadd (vscale W t) S) W)))
             (fun w p => w * sqnorm (vsub p (vdiv S W)))); [reflexivity |].
  intros w p. f_equal.
  replace (vsub (vadd t p) (vdiv (vadd (vscale W t) S) W)) with (vsub p (vdiv S W));
    [reflexivity |].
  unfold vsub, vadd, vdiv, vscale; simpl. f_equal; field; exact Hnz.
Qed.

Lemma radius_of_gyration_translation_invariant_witness :
  calculate_radius_of_gyration (map (vadd (Vec3 1 2 3)) [Vec3 0 0 0; Vec3 4 0 0]) [80; 80]
  = calculate_radius_of_gyration [Vec3 0 0 0; Vec3 4 0 0] [80; 80].
Proof.
  apply radius_of_gyration_translation_invariant. reflexivity.
Defined.

(** X12.  The radius of gyration does not change when every weight is
    multiplied by the same non-zero factor. *)
Theorem radius_of_gyration_weight_scale_invariant (k : R) (positions : list vec3)
    (electron_counts : list R) :
  k <> 0 ->
  calculate_radius_of_gyration positions (map (Rmult k) electron_counts)
  = calculate_radius_of_gyration positions electron_counts.
Proof.
  intros Hk. unfold calculate_radius_of_gyration, np_average.
  rewrite length_map.
  destruct (negb (List.length electron_counts =? List.length positions)%nat);
    [reflexivity |].
  rewrite Rsum_scaled, vsum_scaled.
  set (W := Rsum electron_counts).
  set (S := vsum (zip_with vscale electron_counts positions)).
  assert (Hc : W <> 0 -> vdiv (vscale k S) (k * W) = vdiv S W).
  { intros HW. unfold vdiv, vscale; simpl. f_equal; field; split; assumption. }
  destruct (Req_dec_T (k * W) 0) as [Hz | Hnz], (Req_dec_T W 0) as [Hz' | Hnz'].
  - reflexivity.
  - exfalso. apply Rmult_integral in Hz. tauto.
  - exfalso. apply Hnz. rewrite Hz'. ring.
  - cbn [bind]. rewrite Hc by assumption. rewrite zip_with_map_l.
    set (A := Rsum (zip_with (fun w p => w * sqnorm (vsub p (vdiv S W)))
                             electron_counts positions)).
    replace (Rsum (zip_with (fun d b => k * d * sqnorm (vsub b (vdiv S W)))
                            electron_counts positions)) with (k * A).
    + do 2 f_equal. field. split; assumption.
    + unfold A, zip_with. rewrite <- Rsum_scaled, map_map. f_equal.
      apply map_ext. intros [w p]. simpl. ring.
Qed.

Lemma radius_of_gyration_weight_scale_invariant_witness :
  calculate_radius_of_gyration [Vec3 0 0 0; Vec3 4 0 0] (map (Rmult 2) [80; 80])
  = calculate_radius_of_gyration [Vec3 0 0 0; Vec3 4 0 0] [80; 80].
Proof.
  apply radius_of_gyration_weight_scale_invariant. lra.
Defined.

(** X13.  A single atom has radius of gyration 0 when its weight is not
    zero; as many weights as atoms that sum to zero, as for no atom at all,
    make the computation raise [ZeroDivisionError]; a number of weights
    other than the number of atoms makes it raise [ValueError], whatever
    the weights sum to. *)
Theorem radius_of_gyration_degenerate (p : vec3) (w : R) (positions : list vec3)
    (electron_counts : list R) :
  (w <> 0 -> calculate_radius_of_gyration [p] [w] = Ok 0)
  /\ (List.length electron_counts = List.length positions ->
      Rsum electron_counts = 0 ->
      calculate_radius_of_gyration positions electron_counts = Raise ZeroDivisionError)
  /\ (List.length electron_counts <> List.length positions ->
      exists msg,
        calculate_radius_of_gyration positions electron_counts = Raise (ValueError msg))
  /\ calculate_radius_of_gyration [] [] = Raise ZeroDivisionError.
Proof.
  split; [| split; [| split]].
  - intros Hw. unfold calculate_radius_of_gyration, np_average. simpl.
    destruct (Req_dec_T (w + 0) 0) as [Hz | Hnz]; [lra |]. cbn [bind]. f_equal.
    replace (_ / _) with 0; [apply sqrt_0 |].
    unfold zip_with, sqnorm, vsub, vdiv, vadd, vscale; simpl. field. lra.
  - intros Hlen Hz. unfold calculate_radius_of_gyration, np_average.
    rewrite Hlen, Nat.eqb_refl. cbn [negb].
    destruct (Req_dec_T (Rsum electron_counts) 0); [reflexivity | contradiction].
  - intros Hlen. unfold calculate_radius_of_gyration, np_average.
    apply Nat.eqb_neq in Hlen. rewrite Hlen. eexists. reflexivity.
  - unfold calculate_radius_of_gyration, np_average. simpl.
    destruct (Req_dec_T 0 0); [reflexivity | congruence].
Qed.

Lemma radius_of_gyration_degenerate_witness :
  calculate_radius_of_gyration [Vec3 1 2 3] [80] = Ok 0
  /\ calculate_radius_of_gyration [Vec3 0 0 0; Vec3 4 0 0] [80; -80] = Raise ZeroDivisionError
  /\ exists msg,
       calculate_radius_of_gyration [Vec3 0 0 0; Vec3 4 0 0] [80] = Raise (ValueError msg).
Proof.
  split; [| split].
  - destruct (radius_of_gyration_degenerate (Vec3 1 2 3) 80 [] []) as [Hone _].
    apply Hone. lra.
  - destruct (radius_of_gyration_degenerate (Vec3 0 0 0) 0 [Vec3 0 0 0; Vec3 4 0 0] [80; -80])
      as [_ [Hzero _]].
    apply Hzero; [reflexivity | simpl; lra].
  - destruct (radius_of_gyration_degenerate (Vec3 0 0 0) 0 [Vec3 0 0 0; Vec3 4 0 0] [80])
      as [_ [_ [Hshape _]]].
    apply Hshape. simpl. lia.
Defined.

Lemma mapM_raises {A B} (f : A -> result B) (l : list A) :
  (exists a e, In a l /\ f a = Raise e) -> exists e', mapM f l = Raise e'.
Proof.
  induction l as [| x l IH]; intros [a [e [Hin Hf]]]; [destruct Hin |]. simpl.
  destruct (f x) as [y | ex] eqn:Hx; simpl; [| eauto].
  destruct Hin as [-> | Hin]; [congruence |].
  destruct IH as [e' He']; [eauto |]. rewrite He'. simpl. eauto.
Qed.

(** X14.  [estimate_volume_using_rg] returns [(4/3) pi Rg^3] for the radius
    of gyration of all core and shell atoms, each weighted by its element's
    electron count minus its formal charge, an element without charge entry
    counting with charge 0; when the element data of some atom cannot be
    fetched, it raises. *)
Theorem estimate_volume_using_rg_all_atoms
    (mendeleev_element : string -> result Mendeleev.Element)
    (charges : FormalChargeTable) (h : PDBFileHandler) (electron_count : Atom -> Z) :
  let w := fun a => IZR (electron_count a - charge_or_zero charges (element a)) in
  ((forall a, In a (all_atoms h) ->
      exists info, mendeleev_element (element a) = Ok info
                   /\ Mendeleev.electrons info = electron_count a) ->
   Rsum (map w (all_atoms h)) <> 0 ->
   estimate_volume_using_rg mendeleev_element charges h
   = Ok (4 / 3 * PI
         * radius_of_gyration (map (fun a => (w a, coordinates a)) (all_atoms h)) ^ 3))
  /\ ((exists a e, In a (all_atoms h) /\ mendeleev_element (element a) = Raise e) ->
      exists e', estimate_volume_using_rg mendeleev_element charges h = Raise e').
Proof.
  intros w. split.
  - intros Helec Hsum.
    rewrite (estimate_volume_using_rg_formula mendeleev_element charges h electron_count)
      by assumption.
    reflexivity.
  - intros [a [e [Hin He]]]. unfold estimate_volume_using_rg, get_electron_counts.
    destruct (mapM_raises
                (fun atom => elem_info <- mendeleev_element (element atom) ;;
                             Ok (IZR (Mendeleev.electrons elem_info
                                      - charge_or_zero charges (element atom))))
                (all_atoms h)) as [e' He'].
    + exists a, e. split; [assumption |]. now rewrite He.
    + rewrite He'. simpl. eauto.
Qed.

Lemma estimate_volume_using_rg_all_atoms_witness :
  estimate_volume_using_rg example_elements [("Pb"%string, (2, 6)%Z)] lead_pair
  = Ok (4 / 3 * PI
        * radius_of_gyration [(IZR (82 - 2), Vec3 0 0 0); (IZR (82 - 2), Vec3 4 0 0)] ^ 3).
Proof.
  destruct (estimate_volume_using_rg_all_atoms example_elements [("Pb"%string, (2, 6)%Z)]
              lead_pair (fun _ => 82%Z)) as [Hformula _].
  apply Hformula.
  - intros a Ha. eexists. split; reflexivity.
  - simpl. lra.
Defined.

(** ** Coherent-scattering volume *)

Section CoherentScattering.
(** [xraydb.coherent_cross_section_elam(element, energy)], in cm^2/g, and
    [xraydb.atomic_mass(element)]; both raise on an unknown element. *)
Variable coherent_cross_section_elam : string -> R -> result R.
Variable atomic_mass : string -> result R.

(** [list(set(elements))]: each element once.  The order in which a Python
    set is listed is not specified; the dictionaries built from the list are
    only read by key. *)
Definition unique_elements (elements : list string) : list string :=
  nodup string_dec elements.

(** [obtain_crossections]: the cross-sections are fetched once per unique
    element and then read per atom. *)
Definition obtain_crossections (atoms : list Atom) (energy : R)
  : result (list string * list R) :=
  let elements := map element atoms in
  element_to_cross_section <-
    mapM (fun el => cs <- coherent_cross_section_elam el energy ;; Ok (el, cs))
         (unique_elements elements) ;;
  cross_sections <-
    mapM (fun el => match PyDict.get el element_to_cross_section with
                    | Some cs => Ok cs
                    | None => Raise (KeyError el)
                    end) elements ;;
  Ok (elements, cross_sections).

(** [calculate_coherentscattering_volume] *)
Definition calculate_coherentscattering_volume (atoms : list Atom) (energy : R) : result R :=
  ec <- obtain_crossections atoms energy ;;
  let elements := fst ec in
  let cross_sections := snd ec in
  element_to_grams_per_atom <-
    mapM (fun el => m <- atomic_mass el ;; Ok (el, m / (6022 / 1000 * 10 ^ 23)))
         (unique_elements elements) ;;
  cross_sections_angstrom <-
    mapM (fun ec => match PyDict.get (fst ec) element_to_grams_per_atom with
                    | Some grams => Ok (snd ec * 10 ^ 16 * grams)
                    | None => Raise (KeyError (fst ec))
                    end) (combine elements cross_sections) ;;
  let interaction_radii := map (fun a => sqrt (a / PI)) cross_sections_angstrom in
  let interaction_volumes := map (fun r => 4 / 3 * PI * r ^ 3) interaction_radii in
  Ok (Rsum interaction_volumes).
End CoherentScattering.

Lemma get_tabulated {V} (f : string -> V) (l : list string) (k : string) :
  In k l -> PyDict.get k (map (fun el => (el, f el)) l) = Some (f k).
Proof.
  induction l as [| x l IH]; simpl; [tauto |].
  destruct (eq_dec k x) as [-> | Hne]; [reflexivity |].
  intros [-> | Hin]; [congruence | auto].
Qed.

(** X15.  When the cross-section and the atomic mass of every atom's element
    can be fetched, the coherent-scattering volume is the sum over the atoms
    of the volume of the sphere whose great-circle area is the atom's
    cross-section converted to A^2 per atom; fetching the data once per
    unique element does not change what each atom contributes.  When the
    cross-section of some atom's element cannot be fetched, it raises. *)
Theorem coherentscattering_volume_per_atom
    (coherent_cross_section_elam : string -> R -> result R)
    (atomic_mass : string -> result R)
    (atoms : list Atom) (energy : R) (cross_section mass : string -> R) :
  ((forall a, In a atoms ->
      coherent_cross_section_elam (element a) energy = Ok (cross_section (element a))
      /\ atomic_mass (element a) = Ok (mass (element a))) ->
   calculate_coherentscattering_volume coherent_cross_section_elam atomic_mass atoms energy
   = Ok (Rsum (map (fun a =>
                      let area := cross_section (element a) * 10 ^ 16
                                  * (mass (element a) / (6022 / 1000 * 10 ^ 23)) in
                      4 / 3 * PI * sqrt (area / PI) ^ 3) atoms)))
  /\ ((exists a e, In a atoms /\ coherent_cross_section_elam (element a) energy = Raise e) ->
      exists e', calculate_coherentscattering_volume coherent_cross_section_elam atomic_mass
                   atoms energy = Raise e').
Proof.
  split.
  - intros Hdata.
    assert (Hel : forall el, In el (unique_elements (map element atoms)) ->
              coherent_cross_section_elam el energy = Ok (cross_section el)
              /\ atomic_mass el = Ok (mass el)).
    { intros el Hin. apply nodup_In, in_map_iff in Hin. destruct Hin as [a [<- Ha]]. auto. }
    unfold calculate_coherentscattering_volume, obtain_crossections.
    rewrite (mapM_total _ (fun el => (el, cross_section el)))
      by (intros el Hin; destruct (Hel el Hin) as [-> _]; reflexivity).
    cbn [bind].
    rewrite (mapM_total _ cross_section).
    2:{ intros el Hin. rewrite get_tabulated; [reflexivity |]. now apply nodup_In. }
    cbn [bind fst snd].
    rewrite (mapM_total _ (fun el => (el, mass el / (6022 / 1000 * 10 ^ 23))))
      by (intros el Hin; destruct (Hel el Hin) as [_ ->]; reflexivity).
    cbn [bind].
    rewrite (mapM_total _ (fun ec => snd ec * 10 ^ 16 * (mass (fst ec) / (6022 / 1000 * 10 ^ 23)))).
    2:{ intros [el cs] Hin. cbn [fst snd].
        rewrite (get_tabulated (fun el => mass el / (6022 / 1000 * 10 ^ 23))); [reflexivity |].
        apply nodup_In. apply in_combine_l in Hin. exact Hin. }
    cbn [bind]. rewrite !map_map. rewrite combine_map, !map_map. reflexivity.
  - intros [a [e [Hin He]]].
    unfold calculate_coherentscattering_volume, obtain_crossections.
    destruct (mapM_raises
                (fun el => cs <- coherent_cross_section_elam el energy ;; Ok (el, cs))
                (unique_elements (map element atoms))) as [e' He'].
    + exists (element a), e. split; [apply nodup_In; now apply in_map | now rewrite He].
    + rewrite He'. simpl. eauto.
Qed.

Lemma coherentscattering_volume_per_atom_witness :
  calculate_coherentscattering_volume (fun _ _ => Ok 2) (fun _ => Ok 207)
                                      (all_atoms lead_pair) 17000
  = Ok (Rsum (map (fun a : Atom =>
                     4 / 3 * PI
                     * sqrt (2 * 10 ^ 16 * (207 / (6022 / 1000 * 10 ^ 23)) / PI) ^ 3)
                  (all_atoms lead_pair))).
Proof.
  destruct (coherentscattering_volume_per_atom (fun _ _ => Ok 2) (fun _ => Ok 207)
              (all_atoms lead_pair) 17000 (fun _ => 2) (fun _ => 207)) as [Hsum _].
  apply Hsum. intros a _. split; reflexivity.
Defined.

(** ** Outward-facing-point estimator: radii, center and pooled points *)

(** [f"{n}"] for an integer. *)
Definition str_of_int (n : Z) : string := NilZero.string_of_int (Z.to_int n).

(** The fixed table of typical oxidation states. *)
Definition oxidation_states : dict string Z :=
  [("Pb", 2); ("I", -1); ("S", -2); ("O", -2); ("H", 1); ("C", 4); ("N", -3)]%string%Z.

(** [calculate_geometric_center]: [np.mean(centers, axis=0)], for at least
    one center. *)
Definition calculate_geometric_center (centers : list vec3) : vec3 :=
  vdiv (vsum centers) (INR (List.length centers)).

Section OutwardFacingEstimator.
Variable mendeleev_element : string -> result Mendeleev.Element.
Variable ConvexHull : list vec3 -> result R.

(** [fetch_ionic_radius]: the first tabulated radius whose charge is the
    element's fixed oxidation state, in pm as tabulated. *)
Definition fetch_ionic_radius (element_symbol : string) : result R :=
  elem <- mendeleev_element element_symbol ;;
  match PyDict.get element_symbol oxidation_states with
  | None => Raise (ValueError ("Unknown or unsupported element " ++ element_symbol))
  | Some oxidation_state =>
      match find (fun ir => Z.eqb (Mendeleev.charge ir) oxidation_state)
                 (Mendeleev.ionic_radii elem) with
      | Some ir => Ok (Mendeleev.ionic_radius ir)
      | None =>
          Raise (ValueError ("No ionic radius found for element " ++ element_symbol
                             ++ " with oxidation state " ++ str_of_int oxidation_state))
      end
  end.

(** [estimate_connected_volume_with_outward_facing_points]: the volume of
    the hull of the pooled surface points.  [np.vstack] of no array raises. *)
Definition estimate_connected_volume_with_outward_facing_points
    (centers : list vec3) (radii : list R) : result R :=
  let geometric_center := calculate_geometric_center centers in
  all_points <-
    mapM (fun cr => generate_outward_facing_points (fst cr) (snd cr) geometric_center)
         (combine centers radii) ;;
  match all_points with
  | [] => Raise (ValueError "need at least one array to concatenate")
  | _ => connected_volume <- ConvexHull (List.concat all_points) ;; Ok connected_volume
  end.

(** [calculate_voronoi_volume] *)
Definition calculate_voronoi_volume (atoms : list Atom) : result R :=
  let centers := map coordinates atoms in
  radii <- mapM (fun atom => fetch_ionic_radius (element atom)) atoms ;;
  estimate_connected_volume_with_outward_facing_points centers radii.
End OutwardFacingEstimator.

(** X16.  [fetch_ionic_radius] returns a radius only for the seven elements
    of its oxidation-state table, and then the radius, in pm, of the first
    tabulated entry of the element whose charge is the tabulated oxidation
    state, whatever its coordination; for any other element whose data can
    be fetched it raises [ValueError]. *)
Theorem fetch_ionic_radius_behaviour
    (mendeleev_element : string -> result Mendeleev.Element) (element_symbol : string) :
  (forall r, fetch_ionic_radius mendeleev_element element_symbol = Ok r ->
     In element_symbol ["Pb"; "I"; "S"; "O"; "H"; "C"; "N"]%string
     /\ exists elem oxidation_state ir,
          mendeleev_element element_symbol = Ok elem
          /\ PyDict.get element_symbol oxidation_states = Some oxidation_state
          /\ find (fun ir => Z.eqb (Mendeleev.charge ir) oxidation_state)
                  (Mendeleev.ionic_radii elem) = Some ir
          /\ Mendeleev.charge ir = oxidation_state
          /\ r = Mendeleev.ionic_radius ir)
  /\ (forall elem, mendeleev_element element_symbol = Ok elem ->
        ~ In element_symbol ["Pb"; "I"; "S"; "O"; "H"; "C"; "N"]%string ->
        fetch_ionic_radius mendeleev_element element_symbol
        = Raise (ValueError ("Unknown or unsupported element " ++ element_symbol))).
Proof.
  assert (Hkeys : PyDict.keys oxidation_states = ["Pb"; "I"; "S"; "O"; "H"; "C"; "N"]%string)
    by reflexivity.
  unfold fetch_ionic_radius. split.
  - intros r.
    destruct (mendeleev_element element_symbol) as [elem | e]; [| discriminate]. cbn [bind].
    destruct (PyDict.get element_symbol oxidation_states) as [ox |] eqn:Hox; [| discriminate].
    destruct (find _ (Mendeleev.ionic_radii elem)) as [ir |] eqn:Hfind; [| discriminate].
    intros [= <-]. split.
    + rewrite <- Hkeys.
      destruct (in_dec eq_dec element_symbol (PyDict.keys oxidation_states)) as [Hi | Hn];
        [assumption |].
      apply PyDict.get_None_keys in Hn. congruence.
    + exists elem, ox, ir.
      destruct (find_some _ _ Hfind) as [_ Hc]. apply Z.eqb_eq in Hc.
      repeat split; try reflexivity; assumption.
  - intros elem Helem Hnot. rewrite Helem. cbn [bind].
    rewrite <- Hkeys in Hnot. apply PyDict.get_None_keys in Hnot. now rewrite Hnot.
Qed.

Lemma fetch_ionic_radius_behaviour_witness :
  fetch_ionic_radius example_elements "Cs"
  = Raise (ValueError "Unknown or unsupported element Cs").
Proof.
  destruct (fetch_ionic_radius_behaviour example_elements "Cs") as [_ Hunknown].
  apply (Hunknown (Mendeleev.mkElement 82 [Mendeleev.mkIonicRadius 2 "VI" 119] (Some 146))).
  - reflexivity.
  - simpl. intros H. repeat (destruct H as [H | H]; [discriminate |]). exact H.
Defined.

Lemma mapM_length {A B} (f : A -> result B) (l : list A) (l' : list B) :
  mapM f l = Ok l' -> List.length l' = List.length l.
Proof.
  revert l'. induction l as [| x l IH]; intros l'; simpl.
  - now intros [= <-].
  - destruct (f x) as [y | e]; simpl; [| discriminate].
    destruct (mapM f l) as [ys | e]; simpl; [| discriminate].
    intros [= <-]. simpl. f_equal. now apply IH.
Qed.

Lemma in_combine_exists {A B} (l1 : list A) (l2 : list B) (x : A) :
  List.length l2 = List.length l1 -> In x l1 -> exists y, In (x, y) (combine l1 l2).
Proof.
  revert l2. induction l1 as [| a l1 IH]; intros [| b l2] Hlen Hin; simpl in *;
    try discriminate; try tauto.
  destruct Hin as [-> | Hin].
  - exists b. now left.
  - destruct (IH l2) as [y Hy]; [congruence | assumption |]. exists y. now right.
Qed.

Lemma generate_outward_facing_points_at_center (p : vec3) (radius : R) :
  generate_outward_facing_points p radius p
  = Raise (ValueError "operands could not be broadcast together").
Proof.
  unfold generate_outward_facing_points.
  destruct (Req_dec_T (norm (vsub p p)) 0) as [Hz | Hnz]; [reflexivity |].
  exfalso. apply Hnz. now apply norm_zero_iff.
Qed.

(** X17.  [calculate_voronoi_volume] raises whenever some atom sits exactly
    at the geometric center of the atoms; in particular it raises for every
    structure of a single atom, and for no atom at all. *)
Theorem calculate_voronoi_volume_needs_off_center_atoms
    (mendeleev_element : string -> result Mendeleev.Element)
    (ConvexHull : list vec3 -> result R) (atoms : list Atom) (atom : Atom) :
  ((exists a, In a atoms
              /\ coordinates a = calculate_geometric_center (map coordinates atoms)) ->
   exists e, calculate_voronoi_volume mendeleev_element ConvexHull atoms = Raise e)
  /\ (exists e, calculate_voronoi_volume mendeleev_element ConvexHull [atom] = Raise e)
  /\ calculate_voronoi_volume mendeleev_element ConvexHull []
     = Raise (ValueError "need at least one array to concatenate").
Proof.
  assert (Hgen : forall l, (exists a, In a l
              /\ coordinates a = calculate_geometric_center (map coordinates l)) ->
            exists e, calculate_voronoi_volume mendeleev_element ConvexHull l = Raise e).
  { intros l [a [Hin Hc]]. unfold calculate_voronoi_volume.
    destruct (mapM (fun atom => fetch_ionic_radius mendeleev_element (element atom)) l)
      as [radii | e] eqn:Hr; cbn [bind]; [| eauto].
    apply mapM_length in Hr.
    unfold estimate_connected_volume_with_outward_facing_points.
    destruct (in_combine_exists (map coordinates l) radii (coordinates a)) as [r Hpair].
    { now rewrite length_map. }
    { now apply in_map. }
    destruct (mapM_raises
                (fun cr => generate_outward_facing_points (fst cr) (snd cr)
                             (calculate_geometric_center (map coordinates l)))
                (combine (map coordinates l) radii)) as [e He].
    { exists (coordinates a, r). eexists. split; [exact Hpair |]. cbn [fst snd].
      rewrite <- Hc. apply generate_outward_facing_points_at_center. }
    rewrite He. cbn [bind]. eauto. }
  split; [apply Hgen | split].
  - apply Hgen. exists atom. split; [now left |].
    unfold calculate_geometric_center, vdiv, vsum, vadd; simpl.
    destruct (coordinates atom) as [x y z]; simpl. f_equal; field.
  - reflexivity.
Qed.

Lemma calculate_voronoi_volume_needs_off_center_atoms_witness :
  exists e,
    calculate_voronoi_volume example_elements (fun _ => Ok 1)
      [mkAtom "Pb" (Vec3 0 0 0); mkAtom "Pb" (Vec3 1 0 0); mkAtom "Pb" (Vec3 (-1) 0 0)]
    = Raise e.
Proof.
  destruct (calculate_voronoi_volume_needs_off_center_atoms example_elements (fun _ => Ok 1)
              [mkAtom "Pb" (Vec3 0 0 0); mkAtom "Pb" (Vec3 1 0 0); mkAtom "Pb" (Vec3 (-1) 0 0)]
              (mkAtom "Pb" (Vec3 0 0 0))) as [Hcenter _].
  apply Hcenter. exists (mkAtom "Pb" (Vec3 0 0 0)). split; [now left |].
  unfold calculate_geometric_center, vdiv, vsum, vadd; simpl. f_equal; field.
Defined.

(** *** How many vertices face outward *)

Definition faces (direction vertex : vec3) : bool :=
  if Rlt_dec 0 (dot vertex direction) then true else false.

Definition b2n (b : bool) : nat := if b then 1%nat else 0%nat.

Lemma length_filter_b2n {A} (f : A -> bool) (l : list A) :
  List.length (filter f l) = fold_right (fun x n => (b2n (f x) + n)%nat) 0%nat l.
Proof.
  induction l as [| x l IH]; simpl; [reflexivity |].
  destruct (f x); simpl; now rewrite IH.
Qed.

(** Of two opposite vertices at most one faces a given direction. *)
Lemma opposite_vertices (direction u v : vec3) :
  dot u direction = - dot v direction ->
  (b2n (faces direction u) + b2n (faces direction v) <= 1)%nat.
Proof.
  intros Hopp. unfold faces.
  destruct (Rlt_dec 0 (dot u direction)), (Rlt_dec 0 (dot v direction)); simpl; try lia.
  lra.
Qed.

Ltac opposite_pair u v d :=
  apply (@opposite_vertices d (vdiv u (norm first_vertex)) (vdiv v (norm first_vertex)));
  unfold dot, vdiv; simpl;
  pose proof sqrt3_pos; pose proof phi_pos; pose proof norm_first_vertex as Hn0;
  field; repeat split; try rewrite Hn0; intros Hz; lra.

Lemma at_most_ten_vertices_face (direction : vec3) :
  (List.length (filter (faces direction) generate_dodecahedron_vertices) <= 10)%nat.
Proof.
  rewrite length_filter_b2n.
  unfold generate_dodecahedron_vertices, raw_vertices, other_vertices.
  cbn [map fold_right].
  set (n0 := norm first_vertex).
  assert (H1 : (b2n (faces direction (vdiv first_vertex n0))
                + b2n (faces direction (vdiv (Vec3 1 1 1) n0)) <= 1)%nat)
    by (unfold n0; opposite_pair first_vertex (Vec3 1 1 1) direction).
  assert (H2 : (b2n (faces direction (vdiv (Vec3 1 (-1) (-1)) n0))
                + b2n (faces direction (vdiv (Vec3 (-1) 1 1) n0)) <= 1)%nat)
    by (unfold n0; opposite_pair (Vec3 1 (-1) (-1)) (Vec3 (-1) 1 1) direction).
  assert (H3 : (b2n (faces direction (vdiv (Vec3 (-1) 1 (-1)) n0))
                + b2n (faces direction (vdiv (Vec3 1 (-1) 1) n0)) <= 1)%nat)
    by (unfold n0; opposite_pair (Vec3 (-1) 1 (-1)) (Vec3 1 (-1) 1) direction).
  assert (H4 : (b2n (faces direction (vdiv (Vec3 1 1 (-1)) n0))
                + b2n (faces direction (vdiv (Vec3 (-1) (-1) 1) n0)) <= 1)%nat)
    by (unfold n0; opposite_pair (Vec3 1 1 (-1)) (Vec3 (-1) (-1) 1) direction).
  assert (H5 : (b2n (faces direction (vdiv (Vec3 0 (-1 / phi) (- phi)) n0))
                + b2n (faces direction (vdiv (Vec3 0 (1 / phi) phi) n0)) <= 1)%nat)
    by (unfold n0; opposite_pair (Vec3 0 (-1 / phi) (- phi)) (Vec3 0 (1 / phi) phi) direction).
  assert (H6 : (b2n (faces direction (vdiv (Vec3 0 (1 / phi) (- phi)) n0))
                + b2n (faces direction (vdiv (Vec3 0 (-1 / phi) phi) n0)) <= 1)%nat)
    by (unfold n0; opposite_pair (Vec3 0 (1 / phi) (- phi)) (Vec3 0 (-1 / phi) phi) direction).
  assert (H7 : (b2n (faces direction (vdiv (Vec3 (-1 / phi) (- phi) 0) n0))
                + b2n (faces direction (vdiv (Vec3 (1 / phi) phi 0) n0)) <= 1)%nat)
    by (unfold n0; opposite_pair (Vec3 (-1 / phi) (- phi) 0) (Vec3 (1 / phi) phi 0) direction).
  assert (H8 : (b2n (faces direction (vdiv (Vec3 (1 / phi) (- phi) 0) n0))
                + b2n (faces direction (vdiv (Vec3 (-1 / phi) phi 0) n0)) <= 1)%nat)
    by (unfold n0; opposite_pair (Vec3 (1 / phi) (- phi) 0) (Vec3 (-1 / phi) phi 0) direction).
  assert (H9 : (b2n (faces direction (vdiv (Vec3 (- phi) 0 (-1 / phi)) n0))
                + b2n (faces direction (vdiv (Vec3 phi 0 (1 / phi)) n0)) <= 1)%nat)
    by (unfold n0; opposite_pair (Vec3 (- phi) 0 (-1 / phi)) (Vec3 phi 0 (1 / phi)) direction).
  assert (H10 : (b2n (faces direction (vdiv (Vec3 phi 0 (-1 / phi)) n0))
                 + b2n (faces direction (vdiv (Vec3 (- phi) 0 (1 / phi)) n0)) <= 1)%nat)
    by (unfold n0; opposite_pair (Vec3 phi 0 (-1 / phi)) (Vec3 (- phi) 0 (1 / phi)) direction).
  lia.
Qed.

(** X18.  Whenever the outward-facing-point generator returns, it returns
    at least one and at most ten of the twenty dodecahedron vertices as
    surface points of the atom. *)
Theorem outward_facing_points_count (position : vec3) (radius : R) (geometric_center : vec3)
    (surface_points : list vec3) :
  generate_outward_facing_points position radius geometric_center = Ok surface_points ->
  (1 <= List.length surface_points <= 10)%nat.
Proof.
  unfold generate_outward_facing_points.
  destruct (Req_dec_T (norm (vsub position geometric_center)) 0); [discriminate |].
  set (direction := vdiv (vsub position geometric_center)
                         (norm (vsub position geometric_center))).
  pose proof (at_most_ten_vertices_face direction) as Hten. unfold faces in Hten.
  destruct (filter _ generate_dodecahedron_vertices) as [| v vs] eqn:Hf; [discriminate |].
  intros [= <-]. cbn [map List.length] in *. rewrite length_map. lia.
Qed.

Lemma outward_facing_points_count_witness :
  exists surface_points,
    generate_outward_facing_points (Vec3 1 0 0) 2 (Vec3 0 0 0) = Ok surface_points
    /\ (1 <= List.length surface_points <= 10)%nat.
Proof.
  destruct (some_vertex_faces_outward (vsub (Vec3 1 0 0) (Vec3 0 0 0))) as [v [Hin Hdot]].
  { intros Hz. apply norm_zero_iff in Hz. injection Hz. lra. }
  unfold generate_outward_facing_points at 1.
  destruct (Req_dec_T (norm (vsub (Vec3 1 0 0) (Vec3 0 0 0))) 0) as [Hz | Hnz].
  { apply norm_zero_iff in Hz. injection Hz. lra. }
  destruct (filter _ generate_dodecahedron_vertices) as [| w ws] eqn:Hf.
  { exfalso. assert (Hv : In v []); [| destruct Hv].
    rewrite <- Hf. apply filter_In. split; [assumption |].
    destruct (Rlt_dec 0 _); [reflexivity | contradiction]. }
  eexists. split; [reflexivity |].
  apply (@outward_facing_points_count (Vec3 1 0 0) 2 (Vec3 0 0 0)).
  unfold generate_outward_facing_points.
  destruct (Req_dec_T (norm (vsub (Vec3 1 0 0) (Vec3 0 0 0))) 0); [contradiction |].
  rewrite Hf. reflexivity.
Defined.

(** ** Statistics aggregator: shares of the total volume *)

(** The volume percentage computed for one size. *)
Definition volume_percentage (dist : dict nat (list R)) (size : nat) : R :=
  if (0 <? List.length (bucket dist size))%nat then
    np_mean (bucket dist size) * INR (List.length (bucket dist size))
    / total_cluster_volume dist * 100
  else 0.

Lemma volume_percentages_map (dist : dict nat (list R)) :
  volume_percentages dist = map (volume_percentage dist) (sorted (PyDict.keys dist)).
Proof. reflexivity. Qed.

Lemma np_mean_times_length (l : list R) :
  l <> [] -> np_mean l * INR (List.length l) = Rsum l.
Proof.
  intros Hne. unfold np_mean. field. destruct l as [| x l]; [congruence |].
  apply not_0_INR. discriminate.
Qed.

Lemma size_distribution_facts (data : list ClusterRecord) :
  NoDup (PyDict.keys (size_distribution data))
  /\ (forall s, bucket (size_distribution data) s = volumes_of_size data s)
  /\ (forall s, In s (PyDict.keys (size_distribution data)) <-> In s (map cluster_size data)).
Proof.
  destruct (size_distribution_from data []) as [Hb [Hk Hnd]].
  fold (size_distribution data) in Hb, Hk, Hnd. split; [| split].
  - apply Hnd. constructor.
  - exact Hb.
  - intros s. rewrite Hk. simpl. tauto.
Qed.

Lemma item_is_bucket (data : list ClusterRecord) (k : nat) (vs : list R) :
  In (k, vs) (size_distribution data) -> vs = volumes_of_size data k /\ vs <> [].
Proof.
  intros Hin. destruct (size_distribution_facts data) as [Hnd [Hb Hk]].
  assert (Hvs : vs = volumes_of_size data k).
  { rewrite <- Hb. unfold bucket. now rewrite (get_of_In _ k vs Hnd Hin). }
  split; [exact Hvs |]. rewrite Hvs. apply volumes_of_size_nonempty. apply Hk.
  change k with (fst (k, vs)). now apply in_map.
Qed.

Lemma bucket_sums_set (d : dict nat (list R)) (k : nat) (l : list R) :
  Rsum (map (fun item => Rsum (snd item)) (PyDict.set k l d))
  = Rsum (map (fun item => Rsum (snd item)) d) + Rsum l
    - Rsum (match PyDict.get k d with Some old => old | None => [] end).
Proof.
  induction d as [| [k' v'] d IH]; simpl.
  - lra.
  - destruct (eq_dec k k') as [-> | Hne]; simpl; [lra | rewrite IH; lra].
Qed.

Lemma bucket_sums_total (data : list ClusterRecord) :
  Rsum (map (fun item => Rsum (snd item)) (size_distribution data)) = Rsum (map volume data).
Proof.
  unfold size_distribution.
  assert (Hgen : forall l d,
    Rsum (map (fun item => Rsum (snd item))
              (fold_left (fun d r => PyDict.update [] (fun l => l ++ [volume r])
                                                   (cluster_size r) d) l d))
    = Rsum (map (fun item : nat * list R => Rsum (snd item)) d) + Rsum (map volume l)).
  { induction l as [| r l IH]; intros d; simpl; [lra |].
    rewrite IH. unfold PyDict.update. rewrite bucket_sums_set, Rsum_app. simpl. lra. }
  rewrite Hgen. simpl. lra.
Qed.

Lemma total_cluster_volume_records (data : list ClusterRecord) :
  total_cluster_volume (size_distribution data) = Rsum (map volume data).
Proof.
  rewrite total_cluster_volume_sum, <- bucket_sums_total. f_equal.
  apply map_ext_in. intros [k vs] Hin. simpl.
  apply np_mean_times_length. now destruct (item_is_bucket data k vs Hin).
Qed.

Lemma volume_percentage_records (data : list ClusterRecord) (s : nat) :
  In s (map cluster_size data) ->
  volume_percentage (size_distribution data) s
  = Rsum (volumes_of_size data s) / Rsum (map volume data) * 100.
Proof.
  intros Hs. destruct (size_distribution_facts data) as [_ [Hb _]].
  unfold volume_percentage. rewrite Hb, total_cluster_volume_records.
  pose proof (volumes_of_size_nonempty data s Hs) as Hne.
  rewrite np_mean_times_length by assumption.
  destruct (volumes_of_size data s); [congruence | reflexivity].
Qed.

Lemma Rsum_scaled_r (f : nat -> R) (c : R) (l : list nat) :
  Rsum (map (fun s => f s / c * 100) l) = Rsum (map f l) / c * 100.
Proof.
  induction l as [| x l IH]; simpl; [unfold Rdiv; ring | rewrite IH; unfold Rdiv; ring].
Qed.

Lemma volumes_partition (data : list ClusterRecord) :
  Rsum (map (fun s => Rsum (volumes_of_size data s)) (PyDict.keys (size_distribution data)))
  = Rsum (map volume data).
Proof.
  rewrite <- bucket_sums_total. unfold PyDict.keys. rewrite map_map. f_equal.
  apply map_ext_in. intros [k vs] Hin. simpl.
  now destruct (item_is_bucket data k vs Hin) as [<- _].
Qed.

(** X19.  The sum that the volume percentages are taken of is the sum of
    the volumes of all records; the percentage of a size is the share of
    the summed volumes of the records of that size in it, in percent; and
    when that sum is not zero the percentages of all sizes add up to 100. *)
Theorem volume_percentages_are_shares (data : list ClusterRecord) :
  let dist := snd (generate_statistics data) in
  total_cluster_volume dist = Rsum (map volume data)
  /\ (forall s, In s (map cluster_size data) ->
        volume_percentage dist s
        = Rsum (volumes_of_size data s) / Rsum (map volume data) * 100)
  /\ (Rsum (map volume data) <> 0 -> Rsum (volume_percentages dist) = 100).
Proof.
  intros dist. change dist with (size_distribution data).
  split; [apply total_cluster_volume_records | split; [apply volume_percentage_records |]].
  intros Hnz. destruct (size_distribution_facts data) as [_ [_ Hk]].
  rewrite volume_percentages_map.
  rewrite (Rsum_perm (Permutation_map _ (sorted_perm _))).
  rewrite (map_ext_in _ (fun s => Rsum (volumes_of_size data s) / Rsum (map volume data) * 100)).
  - rewrite (Rsum_scaled_r (fun s => Rsum (volumes_of_size data s))).
    rewrite volumes_partition. field. exact Hnz.
  - intros s Hs. apply volume_percentage_records. now apply Hk.
Qed.

Lemma volume_percentages_are_shares_witness :
  Rsum (volume_percentages (snd (generate_statistics three_clusters))) = 100.
Proof.
  destruct (volume_percentages_are_shares three_clusters) as [_ [_ Hsum]].
  apply Hsum. simpl. lra.
Defined.

(** X20.  The mode of the volume percentages exists exactly when at least
    one record was collected: for an empty record list the computation
    raises [ValueError], for any other it returns one of the cluster sizes
    of the records. *)
Theorem mode_size_needs_a_record (data : list ClusterRecord) :
  let dist := snd (generate_statistics data) in
  (data = [] ->
   mode_size dist = Raise (ValueError "attempt to get argmax of an empty sequence"))
  /\ (data <> [] -> exists m, mode_size dist = Ok m /\ In m (map cluster_size data)).
Proof.
  intros dist. change dist with (size_distribution data). split.
  - intros ->. reflexivity.
  - intros Hne. destruct (size_distribution_facts data) as [_ [_ Hk]].
    pose proof (sorted_perm (PyDict.keys (size_distribution data))) as Hperm.
    unfold mode_size. rewrite volume_percentages_map.
    set (sizes := sorted (PyDict.keys (size_distribution data))) in *.
    assert (Hs : sizes <> []).
    { destruct data as [| r data']; [congruence |].
      assert (Hin : In (cluster_size r) sizes).
      { apply (Permutation_in _ (Permutation_sym Hperm)). apply Hk. now left. }
      intros E. rewrite E in Hin. destruct Hin. }
    destruct (@np_argmax_spec (map (volume_percentage (size_distribution data)) sizes))
      as [k [Hk1 [Hk2 _]]].
    { destruct sizes; [congruence | discriminate]. }
    rewrite Hk1. cbn [bind]. rewrite length_map in Hk2.
    eexists. split; [reflexivity |]. apply Hk. apply (Permutation_in _ Hperm).
    now apply nth_In.
Qed.

Lemma mode_size_needs_a_record_witness :
  exists m, mode_size (snd (generate_statistics three_clusters)) = Ok m
            /\ In m (map cluster_size three_clusters).
Proof.
  destruct (mode_size_needs_a_record three_clusters) as [_ Hmode].
  apply Hmode. discriminate.
Defined.

(** *** Ties of the mode *)

Lemma insert_sorted_In n m l : In m (insert_sorted n l) <-> m = n \/ In m l.
Proof.
  induction l as [| x l IH]; simpl; [intuition congruence |].
  destruct (n <=? x)%nat; simpl; [intuition congruence |].
  rewrite IH. intuition congruence.
Qed.

Lemma insert_sorted_StronglySorted n l :
  StronglySorted le l -> StronglySorted le (insert_sorted n l).
Proof.
  induction 1 as [| x l Hs IH Hall]; simpl.
  - constructor; constructor.
  - destruct (Nat.leb_spec n x) as [Hle | Hgt].
    + constructor; [constructor; assumption |].
      constructor; [assumption |]. rewrite Forall_forall in *. intros y Hy.
      specialize (Hall y Hy). lia.
    + constructor; [assumption |]. rewrite Forall_forall in *. intros y Hy.
      apply insert_sorted_In in Hy. destruct Hy as [-> | Hy]; [lia | auto].
Qed.

Lemma sorted_StronglySorted l : StronglySorted le (sorted l).
Proof.
  induction l as [| n l IH]; simpl; [constructor | now apply insert_sorted_StronglySorted].
Qed.

Lemma StronglySorted_nth (l : list nat) (i j : nat) :
  StronglySorted le l -> (i <= j < List.length l)%nat -> (nth i l 0 <= nth j l 0)%nat.
Proof.
  intros Hs. revert i j. induction Hs as [| x l Hs IH Hall]; intros i j Hij; simpl in *.
  - lia.
  - destruct i as [| i], j as [| j]; try lia.
    + rewrite Forall_forall in Hall. apply Hall. apply nth_In. lia.
    + apply IH. lia.
Qed.

(** [np.argmax] returns the first index of the largest value: every earlier
    value is strictly smaller. *)
Lemma argmax_from_first (l pre : list R) (best_index : nat) (best : R) :
  (best_index < List.length pre)%nat ->
  nth best_index pre 0 = best ->
  (forall j, (j < best_index)%nat -> nth j pre 0 < best) ->
  (forall j, (j < List.length pre)%nat -> nth j pre 0 <= best) ->
  let k := argmax_from best_index best (List.length pre) l in
  forall j, (j < k)%nat -> nth j (pre ++ l) 0 < nth k (pre ++ l) 0.
Proof.
  revert pre best_index best.
  induction l as [| x l IH]; intros pre bi b Hbi Hnth Hbefore Hall; simpl.
  - rewrite app_nil_r. intros j Hj. rewrite Hnth. now apply Hbefore.
  - assert (Hlen : List.length (pre ++ [x]) = S (List.length pre))
      by (rewrite length_app; simpl; lia).
    assert (Happ : (pre ++ [x]) ++ l = pre ++ x :: l)
      by (rewrite <- app_assoc; reflexivity).
    assert (Hold : forall j, (j < List.length pre)%nat -> nth j (pre ++ [x]) 0 = nth j pre 0)
      by (intros j Hj; now apply app_nth1).
    destruct (Rlt_dec b x) as [Hlt | Hge].
    + pose proof (IH (pre ++ [x]) (List.length pre) x) as IH'.
      rewrite Hlen, Happ in IH'. apply IH'.
      * lia.
      * apply nth_middle.
      * intros j Hj. rewrite Hold by assumption. specialize (Hall j Hj). lra.
      * intros j Hj. destruct (Nat.eq_dec j (List.length pre)) as [-> | Hne].
        -- rewrite nth_middle. lra.
        -- rewrite Hold by lia. assert (Hj' : (j < List.length pre)%nat) by lia.
           specialize (Hall j Hj'). lra.
    + pose proof (IH (pre ++ [x]) bi b) as IH'.
      rewrite Hlen, Happ in IH'. apply IH'.
      * lia.
      * now rewrite Hold.
      * intros j Hj. rewrite Hold by lia. now apply Hbefore.
      * intros j Hj. destruct (Nat.eq_dec j (List.length pre)) as [-> | Hne].
        -- rewrite nth_middle. lra.
        -- rewrite Hold by lia. apply Hall. lia.
Qed.

(** X21.  Among the sizes whose volume percentage is the largest, the mode
    is the smallest: every size below the mode has a strictly smaller
    volume percentage, and no size has a larger one. *)
Theorem mode_size_is_smallest_maximum (dist : dict nat (list R)) (m : nat) :
  mode_size dist = Ok m ->
  In m (PyDict.keys dist)
  /\ forall s, In s (PyDict.keys dist) ->
       volume_percentage dist s <= volume_percentage dist m
       /\ ((s < m)%nat -> volume_percentage dist s < volume_percentage dist m).
Proof.
  unfold mode_size. rewrite volume_percentages_map.
  pose proof (sorted_perm (PyDict.keys dist)) as Hperm.
  pose proof (sorted_StronglySorted (PyDict.keys dist)) as Hsorted.
  set (sizes := sorted (PyDict.keys dist)) in *.
  set (pct := volume_percentage dist).
  destruct sizes as [| s0 rest] eqn:Hsizes; [discriminate |]. rewrite <- Hsizes in *.
  assert (Hnth : forall j, (j < List.length sizes)%nat ->
                           nth j (map pct sizes) 0 = pct (nth j sizes 0%nat)).
  { intros j Hj. rewrite (nth_indep _ 0 (pct 0%nat)) by (now rewrite length_map).
    apply map_nth. }
  destruct (@np_argmax_spec (map pct sizes)) as [k [Hk1 [Hk2 Hk3]]].
  { rewrite Hsizes. discriminate. }
  rewrite Hk1. cbn [bind]. intros [= <-]. rewrite length_map in Hk2.
  assert (Hfirst : forall j, (j < k)%nat -> nth j (map pct sizes) 0 < nth k (map pct sizes) 0).
  { assert (Hk : Ok k = np_argmax (map pct sizes)) by (symmetry; exact Hk1).
    rewrite Hsizes in Hk |- *. cbn [map np_argmax] in Hk |- *.
    injection Hk as ->.
    apply (@argmax_from_first (map pct rest) [pct s0] 0%nat (pct s0)); simpl.
    - lia.
    - reflexivity.
    - intros j Hj. lia.
    - intros j Hj. assert (j = 0%nat) as -> by lia. lra. }
  split.
  - apply (Permutation_in _ Hperm). now apply nth_In.
  - intros s Hs. apply (Permutation_in _ (Permutation_sym Hperm)) in Hs.
    destruct (In_nth _ _ 0%nat Hs) as [j [Hj Hsj]]. split.
    + rewrite <- Hnth by assumption. apply Hk3. apply in_map. exact Hs.
    + intros Hlt. rewrite <- Hsj, <- !Hnth by assumption. apply Hfirst.
      destruct (Nat.lt_ge_cases j k) as [Hjk | Hkj]; [assumption |].
      pose proof (@StronglySorted_nth sizes k j Hsorted) as Hle. lia.
Qed.

Lemma mode_size_is_smallest_maximum_witness :
  exists m, mode_size (snd (generate_statistics three_clusters)) = Ok m
            /\ In m (PyDict.keys (snd (generate_statistics three_clusters))).
Proof.
  eexists. split; [reflexivity |].
  apply (@mode_size_is_smallest_maximum (snd (generate_statistics three_clusters))).
  reflexivity.
Defined.

(** ** The batch: what is collected and counted *)

Section BatchAccounting.
Variable load_pdb : string -> result PDBFileHandler.

Let worker := process_pdb_file load_pdb.
Let body := process_body load_pdb.
Let records := record_of load_pdb.

(** The target atoms of a structure: the core atoms of a target element. *)
Definition targets_of (cfg : Config) (h : PDBFileHandler) : list Atom :=
  filter (fun atom => mem (element atom) (target_elements cfg)) (core_atoms h).

(** The file loads and has no target atom. *)
Definition has_no_target (self : ClusterBatchAnalyzer) (file : string) : bool :=
  match load_pdb file with
  | Ok h => match targets_of (config self) h with [] => true | _ => false end
  | Raise _ => false
  end.

(** The [try] block of the worker raises on the file. *)
Definition raises_on (self : ClusterBatchAnalyzer) (shape_type file : string) : bool :=
  match fst (fst (body self shape_type file)) with Raise _ => true | Ok _ => false end.

(** The worker returns the tuple of [None]s for the file. *)
Definition gives_no_record (self : ClusterBatchAnalyzer) (shape_type file : string) : bool :=
  match w_result (worker self shape_type file) with None => true | Some _ => false end.

Lemma worker_outcome self shape_type file :
  w_unmatched (worker self shape_type file)
  = (if has_no_target self file then [file] else [])
  /\ gives_no_record self shape_type file
     = has_no_target self file || raises_on self shape_type file
  /\ (has_no_target self file = true -> raises_on self shape_type file = false).
Proof.
  unfold gives_no_record, raises_on, has_no_target, worker, body, process_pdb_file,
    process_body, targets_of.
  destruct (load_pdb file) as [h | e]; [| repeat split; reflexivity || discriminate].
  destruct (filter _ (core_atoms h)) as [| a l]; [repeat split; reflexivity |].
  destruct (cluster_volume _ _ _ _) as [[v | e] log]; repeat split;
    reflexivity || discriminate.
Qed.

Lemma collect_all_counts self shape_type order st :
  exists st',
    collect_all (map (submit load_pdb self shape_type)
                     order) st = Ok st'
    /\ all_cluster_sizes st'
       = all_cluster_sizes st ++ map cluster_size (flat_map (records self shape_type) order)
    /\ no_target_atoms_count st'
       = (no_target_atoms_count st
          + List.length (filter (gives_no_record self shape_type) order))%nat
    /\ batch_no_target_atoms_files st'
       = batch_no_target_atoms_files st
         ++ flat_map (fun f => w_unmatched (worker self shape_type f)) order
    /\ batch_size_distribution st'
       = fold_left (fun d r => PyDict.update [] (fun l => l ++ [volume r]) (cluster_size r) d)
                   (flat_map (records self shape_type) order) (batch_size_distribution st)
    /\ batch_cluster_data st'
       = batch_cluster_data st ++ flat_map (records self shape_type) order.
Proof.
  revert st. induction order as [| f order IH]; intros st.
  - exists st. simpl. rewrite !app_nil_r. repeat split; lia.
  - cbn [map collect_all flat_map filter]. unfold submit at 1, collect.
    unfold records, record_of, gives_no_record in IH |- *.
    fold worker in IH |- *. cbn [bind].
    destruct (w_result (worker self shape_type f)) as [r |]; cbn [bind];
      match goal with |- context [collect_all _ ?s] =>
        destruct (IH s) as [st' [H1 [H2 [H3 [H4 [H5 H6]]]]]] end;
      exists st'; cbn in H2, H3, H4, H5, H6;
      rewrite H1, H2, H3, H4, H5, H6, ?map_app, ?fold_left_app, <- ?app_assoc;
      cbn [map List.length app fold_left];
      repeat split; try reflexivity; lia.
Qed.

(** The analyzer after [analyze_clusters] has collected the results and
    called [generate_statistics]. *)
Definition after_batch (self : ClusterBatchAnalyzer) (st : BatchState) : ClusterBatchAnalyzer :=
  mkAnalyzer (config self) (pdb_files self) (radius_lookup self)
             (batch_cluster_data st)
             (snd (generate_statistics (batch_cluster_data st)))
             (batch_no_target_atoms_files st).

Lemma process_body_same_configuration self self' shape_type file :
  config self = config self' -> radius_lookup self = radius_lookup self' ->
  body self shape_type file = body self' shape_type file.
Proof.
  intros Hc Hl. unfold body, process_body, cluster_volume. now rewrite Hc, Hl.
Qed.
End BatchAccounting.

(** X22.  After the collection loop the new records are those of the files
    in completion order, [all_cluster_sizes] lists their sizes, and every
    file is either a new record or counted in [no_target_atoms_count]; that
    counter, printed as the number of files without target atoms, is the
    number of files that loaded without target atom plus the number of
    files whose processing raised, while [no_target_atoms_files] is extended
    by the former only. *)
Theorem batch_accounting
    (load_pdb : string -> result PDBFileHandler)
    (self : ClusterBatchAnalyzer) (shape_type : string) (completion_order : list string)
    (st : BatchState) :
  fan_out load_pdb self shape_type completion_order = Ok st ->
  let new_records :=
    flat_map (record_of load_pdb self shape_type) completion_order in
  let unmatched := filter (has_no_target load_pdb self) completion_order in
  let failed :=
    filter (raises_on load_pdb self shape_type) completion_order in
  batch_cluster_data st = cluster_data self ++ new_records
  /\ all_cluster_sizes st = map cluster_size new_records
  /\ (List.length new_records + no_target_atoms_count st = List.length completion_order)%nat
  /\ no_target_atoms_count st = (List.length unmatched + List.length failed)%nat
  /\ batch_no_target_atoms_files st = no_target_atoms_files self ++ unmatched.
Proof.
  intros Hfan new_records unmatched failed. unfold fan_out in Hfan.
  destruct (collect_all_counts load_pdb self shape_type completion_order
              (mkBatch [] [] 0 (cluster_data self) (cluster_size_distribution self)
                       (no_target_atoms_files self) []))
    as [st' [Hst [Hsizes [Hcount [Hfiles [_ Hdata]]]]]].
  rewrite Hfan in Hst. injection Hst as <-. cbn in Hsizes, Hcount, Hfiles, Hdata.
  assert (Hsplit : forall l,
    (List.length (flat_map (record_of load_pdb self shape_type) l)
     + List.length (filter (gives_no_record load_pdb self shape_type) l)
     = List.length l)%nat
    /\ List.length (filter (gives_no_record load_pdb self shape_type) l)
       = (List.length (filter (has_no_target load_pdb self) l)
          + List.length (filter (raises_on load_pdb self shape_type) l))%nat
    /\ flat_map (fun f => w_unmatched (process_pdb_file load_pdb self shape_type f)) l
       = filter (has_no_target load_pdb self) l).
  { induction l as [| f l [IH1 [IH2 IH3]]]; [repeat split; reflexivity |].
    destruct (worker_outcome load_pdb self shape_type f)
      as [Hu [Hg Hx]].
    cbn [flat_map filter]. rewrite Hu, Hg, IH3.
    assert (Hrec : List.length (record_of load_pdb self shape_type f)
                   = if has_no_target load_pdb self f
                        || raises_on load_pdb self shape_type f
                     then 0%nat else 1%nat).
    { rewrite <- Hg. unfold gives_no_record, record_of.
      destruct (w_result _); reflexivity. }
    rewrite length_app, Hrec.
    destruct (has_no_target load_pdb self f) eqn:Hn.
    - rewrite (Hx eq_refl). cbn. repeat split; lia.
    - destruct (raises_on _ _ _ f); cbn; repeat split; lia. }
  destruct (Hsplit completion_order) as [H1 [H2 H3]].
  unfold new_records, unmatched, failed.
  rewrite Hdata, Hsizes, Hcount, Hfiles, H3. repeat split; lia.
Qed.

Lemma batch_accounting_witness :
  let self := mkAnalyzer (example_config "ionic_radius") ["good.pdb"; "broken.pdb"]%string
                         (Some []) [] [] [] in
  exists st,
    fan_out example_loader self "sphere" ["good.pdb"; "broken.pdb"]%string = Ok st
    /\ no_target_atoms_count st
       = (List.length (filter (has_no_target example_loader self)
                              ["good.pdb"; "broken.pdb"]%string)
          + List.length (filter (raises_on example_loader self "sphere")
                                ["good.pdb"; "broken.pdb"]%string))%nat.
Proof.
  intros self. eexists. split; [reflexivity |].
  apply (@batch_accounting example_loader self "sphere" ["good.pdb"; "broken.pdb"]%string).
  reflexivity.
Defined.

(** X23.  If the analyzer's size distribution agrees with its record list
    before the batch, as after construction or after [generate_statistics],
    then the distribution accumulated by the collection loop is the one
    [generate_statistics] rebuilds from the records afterwards. *)
Theorem loop_distribution_matches_statistics
    (load_pdb : string -> result PDBFileHandler)
    (self : ClusterBatchAnalyzer) (shape_type : string) (completion_order : list string)
    (st : BatchState) :
  cluster_size_distribution self = snd (generate_statistics (cluster_data self)) ->
  fan_out load_pdb self shape_type completion_order = Ok st ->
  batch_size_distribution st = snd (generate_statistics (batch_cluster_data st)).
Proof.
  intros Hdist Hfan. unfold fan_out in Hfan.
  destruct (collect_all_counts load_pdb self shape_type completion_order
              (mkBatch [] [] 0 (cluster_data self) (cluster_size_distribution self)
                       (no_target_atoms_files self) []))
    as [st' [Hst [_ [_ [_ [Hd Hdata]]]]]].
  rewrite Hfan in Hst. injection Hst as <-. cbn in Hd, Hdata.
  rewrite Hd, Hdata, Hdist. cbn [generate_statistics snd]. unfold size_distribution.
  now rewrite fold_left_app.
Qed.

Lemma loop_distribution_matches_statistics_witness :
  let self := mkAnalyzer (example_config "ionic_radius") ["good.pdb"; "broken.pdb"]%string
                         (Some []) [] [] [] in
  exists st,
    fan_out example_loader self "sphere" ["good.pdb"; "broken.pdb"]%string = Ok st
    /\ batch_size_distribution st = snd (generate_statistics (batch_cluster_data st)).
Proof.
  intros self. eexists. split; [reflexivity |].
  apply (@loop_distribution_matches_statistics example_loader self "sphere"
           ["good.pdb"; "broken.pdb"]%string); reflexivity.
Defined.

(** X24.  A record returned by the worker belongs to a file that loaded;
    its size is the number of core atoms of a target element, at least 1,
    atoms of the shell not counting; its statistics, volume and charge are
    those of that structure; and the file is not listed as unmatched. *)
Theorem worker_record_postcondition
    (load_pdb : string -> result PDBFileHandler)
    (self : ClusterBatchAnalyzer) (shape_type file : string) (r : ClusterRecord) :
  let out := process_pdb_file load_pdb self shape_type file in
  w_result out = Some r ->
  exists h,
    load_pdb file = Ok h
    /\ pdb_file r = file
    /\ cluster_size r = List.length (targets_of (config self) h)
    /\ (1 <= cluster_size r <= List.length (core_atoms h))%nat
    /\ coordination_stats r
       = calculate_coordination_numbers (config self) h (targets_of (config self) h)
    /\ fst (cluster_volume self shape_type h
                           (targets_of (config self) h)) = Ok (volume r)
    /\ charge r = calculate_cluster_charge (charges (config self)) h
    /\ w_unmatched out = [].
Proof.
  intros out. unfold out, process_pdb_file, process_body.
  destruct (load_pdb file) as [h | e]; [| discriminate].
  fold (targets_of (config self) h). intros Hres. exists h.
  pose proof (filter_length_le (fun atom => mem (element atom) (target_elements (config self)))
                               (fun _ => true) (core_atoms h) (fun _ _ _ => eq_refl)) as Hle.
  fold (targets_of (config self) h) in Hle.
  replace (filter (fun _ => true) (core_atoms h)) with (core_atoms h) in Hle
    by (clear; induction (core_atoms h) as [| a l IH]; simpl; congruence).
  destruct (targets_of (config self) h) as [| a l] eqn:Ht; [discriminate |].
  destruct (cluster_volume self shape_type h (a :: l))
    as [[v | e] log]; cbn in Hres; [| discriminate].
  injection Hres as <-. cbn in *.
  repeat (split; [reflexivity || lia |]). reflexivity.
Qed.

Lemma worker_record_postcondition_witness :
  let self := mkAnalyzer (example_config "ionic_radius") ["good.pdb"%string]
                         (Some []) [] [] [] in
  exists r h,
    w_result (process_pdb_file example_loader self "sphere" "good.pdb") = Some r
    /\ example_loader "good.pdb" = Ok h
    /\ cluster_size r = List.length (targets_of (config self) h).
Proof.
  intros self. eexists.
  destruct (@worker_record_postcondition example_loader self "sphere" "good.pdb" _ eq_refl)
    as [h [Hload [_ [Hsize _]]]].
  exists h. split; [reflexivity | split; assumption].
Defined.

(** X25.  The analyzer keeps its records between batch runs: a second run
    over the same files on the analyzer left by a first run appends the
    records and the unmatched files of these files once more, so each
    appears twice. *)
Theorem second_run_appends_again
    (load_pdb : string -> result PDBFileHandler)
    (self : ClusterBatchAnalyzer) (shape_type : string) (completion_order : list string)
    (st : BatchState) :
  fan_out load_pdb self shape_type completion_order = Ok st ->
  let new_records :=
    flat_map (record_of load_pdb self shape_type) completion_order in
  let unmatched := filter (has_no_target load_pdb self) completion_order in
  exists st2,
    fan_out load_pdb (after_batch self st) shape_type completion_order = Ok st2
    /\ batch_cluster_data st2 = cluster_data self ++ new_records ++ new_records
    /\ batch_no_target_atoms_files st2
       = no_target_atoms_files self ++ unmatched ++ unmatched.
Proof.
  intros Hfan new_records unmatched.
  assert (Hworker : forall f,
    process_pdb_file load_pdb (after_batch self st) shape_type f
    = process_pdb_file load_pdb self shape_type f).
  { intros f. unfold process_pdb_file.
    now rewrite (process_body_same_configuration load_pdb (after_batch self st) self). }
  assert (Hrecords : forall l,
    flat_map (record_of load_pdb (after_batch self st) shape_type) l
    = flat_map (record_of load_pdb self shape_type) l).
  { intros l. apply flat_map_ext. intros f. unfold record_of. now rewrite Hworker. }
  assert (Hunm : forall l,
    flat_map (fun f => w_unmatched (process_pdb_file load_pdb (after_batch self st) shape_type f)) l
    = filter (has_no_target load_pdb self) l).
  { induction l as [| f l IH]; [reflexivity |]. cbn [flat_map filter].
    rewrite IH, Hworker.
    destruct (worker_outcome load_pdb self shape_type f)
      as [Hu _].
    rewrite Hu. destruct (has_no_target load_pdb self f); reflexivity. }
  assert (Hunm1 : forall l,
    flat_map (fun f => w_unmatched (process_pdb_file load_pdb self shape_type f)) l
    = filter (has_no_target load_pdb self) l).
  { induction l as [| f l IH]; [reflexivity |]. cbn [flat_map filter]. rewrite IH.
    destruct (worker_outcome load_pdb self shape_type f)
      as [Hu _].
    rewrite Hu. destruct (has_no_target load_pdb self f); reflexivity. }
  unfold fan_out in Hfan |- *.
  destruct (collect_all_counts load_pdb self shape_type completion_order
              (mkBatch [] [] 0 (cluster_data self) (cluster_size_distribution self)
                       (no_target_atoms_files self) []))
    as [st' [Hst [_ [_ [Hfiles [_ Hdata]]]]]].
  rewrite Hfan in Hst. injection Hst as <-. cbn in Hfiles, Hdata.
  destruct (collect_all_counts load_pdb
              (after_batch self st) shape_type completion_order
              (mkBatch [] [] 0 (cluster_data (after_batch self st))
                       (cluster_size_distribution (after_batch self st))
                       (no_target_atoms_files (after_batch self st)) []))
    as [st2 [Hst2 [_ [_ [Hfiles2 [_ Hdata2]]]]]].
  exists st2. split; [exact Hst2 |]. cbn in Hfiles2, Hdata2.
  rewrite Hdata2, Hfiles2, Hrecords, Hunm, Hdata, Hfiles, Hunm1, <- !app_assoc.
  split; reflexivity.
Qed.

Lemma second_run_appends_again_witness :
  let self := mkAnalyzer (example_config "ionic_radius") ["good.pdb"%string]
                         (Some []) [] [] [] in
  exists st st2,
    fan_out example_loader self "sphere" ["good.pdb"%string]
    = Ok st
    /\ fan_out example_loader (after_batch self st) "sphere"
               ["good.pdb"%string] = Ok st2
    /\ List.length (batch_cluster_data st2) = 2%nat.
Proof.
  intros self. eexists.
  destruct (@second_run_appends_again example_loader self
              "sphere" ["good.pdb"%string] _ eq_refl) as [st2 [Hst2 [Hdata _]]].
  exists st2. split; [reflexivity | split; [exact Hst2 |]].
  rewrite Hdata. reflexivity.
Defined.

(** ** Periodic table, thread count and import path *)

(** The table of [get_atomic_number]. *)
Definition periodic_table : dict string Z :=
  [("H", 1); ("He", 2); ("Li", 3); ("Be", 4); ("B", 5); ("C", 6); ("N", 7); ("O", 8);
   ("F", 9); ("Ne", 10); ("Na", 11); ("Mg", 12); ("Al", 13); ("Si", 14); ("P", 15);
   ("S", 16); ("Cl", 17); ("Ar", 18); ("K", 19); ("Ca", 20); ("Sc", 21); ("Ti", 22);
   ("V", 23); ("Cr", 24); ("Mn", 25); ("Fe", 26); ("Co", 27); ("Ni", 28); ("Cu", 29);
   ("Zn", 30); ("Ga", 31); ("Ge", 32); ("As", 33); ("Se", 34); ("Br", 35); ("Kr", 36);
   ("Rb", 37); ("Sr", 38); ("Y", 39); ("Zr", 40); ("Nb", 41); ("Mo", 42); ("Tc", 43);
   ("Ru", 44); ("Rh", 45); ("Pd", 46); ("Ag", 47); ("Cd", 48); ("In", 49); ("Sn", 50);
   ("Sb", 51); ("Te", 52); ("I", 53); ("Xe", 54); ("Cs", 55); ("Ba", 56); ("La", 57);
   ("Ce", 58); ("Pr", 59); ("Nd", 60); ("Pm", 61); ("Sm", 62); ("Eu", 63); ("Gd", 64);
   ("Tb", 65); ("Dy", 66); ("Ho", 67); ("Er", 68); ("Tm", 69); ("Yb", 70); ("Lu", 71);
   ("Hf", 72); ("Ta", 73); ("W", 74); ("Re", 75); ("Os", 76); ("Ir", 77); ("Pt", 78);
   ("Au", 79); ("Hg", 80); ("Tl", 81); ("Pb", 82); ("Bi", 83); ("Po", 84); ("At", 85);
   ("Rn", 86); ("Fr", 87); ("Ra", 88); ("Ac", 89); ("Th", 90); ("Pa", 91); ("U", 92);
   ("Np", 93); ("Pu", 94); ("Am", 95); ("Cm", 96); ("Bk", 97); ("Cf", 98); ("Es", 99);
   ("Fm", 100); ("Md", 101); ("No", 102); ("Lr", 103); ("Rf", 104); ("Db", 105);
   ("Sg", 106); ("Bh", 107); ("Hs", 108); ("Mt", 109); ("Ds", 110); ("Rg", 111);
   ("Cn", 112); ("Nh", 113); ("Fl", 114); ("Mc", 115); ("Lv", 116); ("Ts", 117);
   ("Og", 118)]%string%Z.

(** [get_atomic_number]: [periodic_table[element]] *)
Definition get_atomic_number (el : string) : result Z :=
  match PyDict.get el periodic_table with
  | Some atomic_number => Ok atomic_number
  | None => Raise (KeyError el)
  end.

(** [determine_safe_thread_count]; [cpu_count] is what [os.cpu_count()]
    returns. *)
Definition determine_safe_thread_count (cpu_count : option Z) (task_type : string)
    (max_factor : Z) : result Z :=
  let num_cores :=
    match cpu_count with
    | Some n => if Z.eqb n 0 then 1%Z else n      (* [os.cpu_count() or 1] *)
    | None => 1%Z
    end in
  if String.eqb task_type "cpu" then Ok (Z.max 1 (num_cores - 1))
  else if String.eqb task_type "io" then Ok (Z.max 1 (num_cores * max_factor))
  else Raise (ValueError "task_type must be 'cpu' or 'io'").

(** [setup_paths] of [setup_env.py], on the value of [sys.path]; [scripts_dir]
    is the absolute path it computes. *)
Definition setup_paths (scripts_dir : string) (sys_path : list string) : list string :=
  if mem scripts_dir sys_path then sys_path else sys_path ++ [scripts_dir].

Lemma get_of_In_keys {K V} `{EqDec K} (d : dict K V) (k : K) (v : V) :
  NoDup (PyDict.keys d) -> In (k, v) d -> PyDict.get k d = Some v.
Proof.
  induction d as [| [k' v'] d IH]; simpl; [tauto |].
  intros Hnd [[= -> ->] | Hin].
  - destruct (eq_dec k k); congruence.
  - inversion Hnd as [| ? ? Hnotin Hnd']; subst.
    destruct (eq_dec k k') as [-> | Hne]; [| auto].
    exfalso. apply Hnotin. change k' with (fst (k', v)). now apply in_map.
Qed.

Lemma values_injective {K V} (d : dict K V) (a b : K) (v : V) :
  NoDup (map snd d) -> In (a, v) d -> In (b, v) d -> a = b.
Proof.
  induction d as [| [k w] d IH]; simpl; [tauto |].
  intros Hnd Ha Hb. inversion Hnd as [| ? ? Hnotin Hnd']; subst.
  destruct Ha as [Ha | Ha], Hb as [Hb | Hb].
  - congruence.
  - injection Ha as -> ->. exfalso. apply Hnotin.
    change v with (snd (b, v)). now apply in_map.
  - injection Hb as -> ->. exfalso. apply Hnotin.
    change v with (snd (a, v)). now apply in_map.
  - auto.
Qed.

(** X26.  [get_atomic_number] maps the 118 element symbols of its table
    one-to-one onto the atomic numbers 1 to 118, and raises [KeyError] on
    any other string. *)
Theorem get_atomic_number_table (el : string) (z : Z) :
  (get_atomic_number el = Ok z -> (1 <= z <= 118)%Z)
  /\ (forall other, get_atomic_number el = Ok z -> get_atomic_number other = Ok z ->
                    other = el)
  /\ ((1 <= z <= 118)%Z -> exists symbol, get_atomic_number symbol = Ok z)
  /\ (~ In el (PyDict.keys periodic_table) -> get_atomic_number el = Raise (KeyError el)).
Proof.
  assert (Hvalues : map snd periodic_table = map Z.of_nat (seq 1 118))
    by (vm_compute; reflexivity).
  assert (Hkeys : NoDup (PyDict.keys periodic_table)).
  { assert (Hfix : nodup string_dec (PyDict.keys periodic_table) = PyDict.keys periodic_table)
      by (vm_compute; reflexivity).
    rewrite <- Hfix. apply NoDup_nodup. }
  assert (Hnd : NoDup (map snd periodic_table)).
  { assert (Hfix : nodup Z.eq_dec (map snd periodic_table) = map snd periodic_table)
      by (vm_compute; reflexivity).
    rewrite <- Hfix. apply NoDup_nodup. }
  assert (Hin : forall s n, get_atomic_number s = Ok n -> In (s, n) periodic_table).
  { intros s n. unfold get_atomic_number.
    destruct (PyDict.get s periodic_table) as [m |] eqn:Hg; [| discriminate].
    intros [= <-]. now apply PyDict.get_In. }
  split; [| split; [| split]].
  - intros Hget. apply Hin in Hget.
    assert (Hz : In z (map snd periodic_table))
      by (change z with (snd (el, z)); now apply in_map).
    rewrite Hvalues in Hz. apply in_map_iff in Hz. destruct Hz as [n [<- Hn]].
    apply in_seq in Hn. lia.
  - intros other H1 H2. apply Hin in H1, H2.
    exact (values_injective periodic_table other el z Hnd H2 H1).
  - intros Hz.
    assert (Hv : In z (map snd periodic_table)).
    { rewrite Hvalues. apply in_map_iff. exists (Z.to_nat z). split; [lia |].
      apply in_seq. lia. }
    apply in_map_iff in Hv. destruct Hv as [[symbol n] [Hn Hpair]]. simpl in Hn. subst n.
    exists symbol. unfold get_atomic_number.
    now rewrite (get_of_In_keys periodic_table symbol z Hkeys Hpair).
  - intros Hnot. unfold get_atomic_number.
    apply PyDict.get_None_keys in Hnot. now rewrite Hnot.
Qed.

Lemma get_atomic_number_table_witness : get_atomic_number "Pb" = Ok 82%Z /\ (1 <= 82 <= 118)%Z.
Proof.
  split; [reflexivity |].
  destruct (get_atomic_number_table "Pb" 82) as [Hrange _]. apply Hrange. reflexivity.
Defined.

(** X27.  [determine_safe_thread_count] returns at least 1 whenever it
    returns; for CPU-bound work it is one less than the number of cores when
    there are two or more, and 1 when the count is unknown or below two; for
    I/O-bound work with a factor of at least 1 it is the number of cores
    times the factor; and it raises exactly for a task type other than
    ['cpu'] and ['io']. *)
Theorem determine_safe_thread_count_bounds (cpu_count : option Z) (task_type : string)
    (max_factor : Z) :
  (forall t, determine_safe_thread_count cpu_count task_type max_factor = Ok t -> (1 <= t)%Z)
  /\ (forall n, cpu_count = Some n -> (2 <= n)%Z ->
        determine_safe_thread_count cpu_count "cpu" max_factor = Ok (n - 1)%Z)
  /\ ((cpu_count = None \/ exists n, cpu_count = Some n /\ (n <= 1)%Z) ->
        determine_safe_thread_count cpu_count "cpu" max_factor = Ok 1%Z)
  /\ (forall n, cpu_count = Some n -> (1 <= n)%Z -> (1 <= max_factor)%Z ->
        determine_safe_thread_count cpu_count "io" max_factor = Ok (n * max_factor)%Z)
  /\ ((exists e, determine_safe_thread_count cpu_count task_type max_factor = Raise e)
      <-> task_type <> "cpu"%string /\ task_type <> "io"%string).
Proof.
  unfold determine_safe_thread_count. split; [| split; [| split; [| split]]].
  - intros t. destruct (String.eqb task_type "cpu"); [intros [= <-]; lia |].
    destruct (String.eqb task_type "io"); [intros [= <-]; lia | discriminate].
  - intros n -> Hn. cbn. destruct (Z.eqb_spec n 0); [lia |]. f_equal. lia.
  - intros [-> | [n [-> Hn]]]; cbn; [reflexivity |].
    destruct (Z.eqb_spec n 0); f_equal; lia.
  - intros n -> Hn Hf. cbn. destruct (Z.eqb_spec n 0); [lia |]. f_equal. nia.
  - destruct (String.eqb_spec task_type "cpu") as [-> | Hc].
    + split; [intros [e He]; discriminate | intros [H _]; congruence].
    + destruct (String.eqb_spec task_type "io") as [-> | Hi].
      * split; [intros [e He]; discriminate | intros [_ H]; congruence].
      * split; [tauto | intros _; eauto].
Qed.

Lemma determine_safe_thread_count_bounds_witness :
  determine_safe_thread_count (Some 8%Z) "cpu" 2 = Ok 7%Z.
Proof.
  destruct (determine_safe_thread_count_bounds (Some 8%Z) "cpu" 2) as [_ [Hcpu _]].
  apply (Hcpu 8%Z); [reflexivity | lia].
Defined.

(** X28.  [setup_paths] leaves the scripts directory on the path, keeps the
    entries that were there in their places, adds the directory at most once
    at the end, introduces no duplicate, and run a second time changes
    nothing. *)
Theorem setup_paths_idempotent (scripts_dir : string) (sys_path : list string) :
  In scripts_dir (setup_paths scripts_dir sys_path)
  /\ (exists added, setup_paths scripts_dir sys_path = sys_path ++ added
                    /\ (added = [] \/ added = [scripts_dir]))
  /\ (NoDup sys_path -> NoDup (setup_paths scripts_dir sys_path))
  /\ setup_paths scripts_dir (setup_paths scripts_dir sys_path)
     = setup_paths scripts_dir sys_path.
Proof.
  unfold setup_paths. destruct (mem scripts_dir sys_path) eqn:Hm.
  - rewrite Hm. apply mem_In in Hm. split; [assumption | split; [| split]]; try tauto.
    exists []. rewrite app_nil_r. tauto.
  - assert (Hnot : ~ In scripts_dir sys_path).
    { intros Hin. apply mem_In in Hin. congruence. }
    assert (Hin : In scripts_dir (sys_path ++ [scripts_dir]))
      by (apply in_or_app; right; now left).
    split; [assumption | split; [| split]].
    + exists [scripts_dir]. tauto.
    + intros Hnd. apply NoDup_app; [assumption | repeat constructor; simpl; tauto |].
      intros x Hx [<- | []]. contradiction.
    + apply mem_In in Hin. now rewrite Hin.
Qed.

Lemma setup_paths_idempotent_witness :
  NoDup (setup_paths "/work/scripts" ["/usr/lib/python3"%string]).
Proof.
  destruct (setup_paths_idempotent "/work/scripts" ["/usr/lib/python3"%string])
    as [_ [_ [Hnd _]]].
  apply Hnd. repeat constructor; simpl; tauto.
Defined.

(** ** The value returned by [analyze_clusters] *)

(** [coordination_stats_per_size[size][pair]] read without inserting. *)
Definition per_size_entries (per_size : dict nat (dict (string * string) (list R)))
    (size : nat) (pair_key : string * string) : list R :=
  entries (match PyDict.get size per_size with Some d => d | None => [] end) pair_key.

(** The means a record reports for one pair. *)
Definition means_of_pair (stats : dict (string * string) (R * R)) (pair_key : string * string)
  : list R :=
  map (fun item => fst (snd item)) (filter (fun item => eqb (fst item) pair_key) stats).

Lemma append_coordination_entries (cluster_size s : nat)
    (stats : dict (string * string) (R * R))
    (per_size : dict nat (dict (string * string) (list R))) (k : string * string) :
  per_size_entries (append_coordination cluster_size stats per_size) s k
  = per_size_entries per_size s k
    ++ (if Nat.eqb cluster_size s then means_of_pair stats k else []).
Proof.
  unfold append_coordination. revert per_size.
  induction stats as [| [pair_key [avg sd]] stats IH]; intros per_size.
  - simpl. destruct (Nat.eqb cluster_size s); now rewrite app_nil_r.
  - cbn [fold_left fst snd]. rewrite IH. unfold means_of_pair. cbn [filter fst snd].
    unfold per_size_entries at 1, PyDict.update at 1.
    destruct (Nat.eqb_spec cluster_size s) as [-> | Hne].
    + rewrite PyDict.get_set_eq. unfold entries at 1, PyDict.update.
      unfold eqb. destruct (eq_dec pair_key k) as [-> | Hk].
      * rewrite PyDict.get_set_eq. cbn [map fst snd]. rewrite <- app_assoc. reflexivity.
      * rewrite PyDict.get_set_ne by assumption. reflexivity.
    + rewrite PyDict.get_set_ne by assumption. now rewrite !app_nil_r.
Qed.

Lemma collect_all_coordination
    (load_pdb : string -> result PDBFileHandler)
    (self : ClusterBatchAnalyzer) (shape_type : string) (order : list string)
    (st : BatchState) (s : nat) (k : string * string) :
  exists st',
    collect_all (map (submit load_pdb self shape_type)
                     order) st = Ok st'
    /\ per_size_entries (coordination_stats_per_size st') s k
       = per_size_entries (coordination_stats_per_size st) s k
         ++ flat_map (fun r => if Nat.eqb (cluster_size r) s
                               then means_of_pair (coordination_stats r) k else [])
                     (flat_map (record_of load_pdb self shape_type) order).
Proof.
  revert st. induction order as [| f order IH]; intros st.
  - exists st. simpl. now rewrite app_nil_r.
  - cbn [map collect_all flat_map]. unfold submit at 1, collect, record_of at 1. cbn [bind].
    destruct (w_result (process_pdb_file load_pdb self shape_type f)) as [r |]; cbn [bind];
      match goal with |- context [collect_all _ ?st0] =>
        destruct (IH st0) as [st' [H1 H2]] end;
      exists st'; cbn in H2; rewrite H1, H2; (split; [reflexivity |]).
    + rewrite append_coordination_entries. cbn [flat_map app].
      rewrite <- app_assoc. reflexivity.
    + reflexivity.
Qed.

(** X29.  In the dictionary that [analyze_clusters] returns, the list under
    a cluster size and a pair holds the mean coordination numbers of that
    pair reported by the records of that size collected in the run, in
    completion order. *)
Theorem coordination_stats_per_size_content
    (load_pdb : string -> result PDBFileHandler)
    (self : ClusterBatchAnalyzer) (shape_type : string) (completion_order : list string)
    (st : BatchState) (size : nat) (pair_key : string * string) :
  fan_out load_pdb self shape_type completion_order = Ok st ->
  per_size_entries (coordination_stats_per_size st) size pair_key
  = flat_map (fun r => if Nat.eqb (cluster_size r) size
                       then means_of_pair (coordination_stats r) pair_key else [])
             (flat_map (record_of load_pdb self shape_type) completion_order).
Proof.
  intros Hfan. unfold fan_out in Hfan.
  destruct (collect_all_coordination load_pdb self shape_type completion_order
              (mkBatch [] [] 0 (cluster_data self) (cluster_size_distribution self)
                       (no_target_atoms_files self) []) size pair_key)
    as [st' [Hst Hentries]].
  rewrite Hfan in Hst. injection Hst as <-. exact Hentries.
Qed.

Lemma lead_iodide_connected :
  are_connected (mkAtom "Pb" (Vec3 0 0 0)) (mkAtom "I" (Vec3 3 0 0)) (35 / 10) = true.
Proof.
  unfold are_connected. cbn [coordinates].
  destruct (Rle_dec _ _) as [H | H]; [reflexivity |]. exfalso. apply H.
  unfold norm, sqnorm, vsub; cbn [vx vy vz].
  replace ((0 - 3) ^ 2 + (0 - 0) ^ 2 + (0 - 0) ^ 2) with (3 ^ 2) by ring.
  rewrite sqrt_pow2 by lra. lra.
Qed.

(** The lead atom of [lead_iodide] has its one iodine within 3.5 A. *)
Lemma lead_iodide_statistics :
  calculate_coordination_numbers lead_iodide_config lead_iodide [mkAtom "Pb" (Vec3 0 0 0)]
  = [(("Pb"%string, "I"%string), (np_mean [1], np_std [1]))].
Proof.
  unfold calculate_coordination_numbers, coordination_numbers, neighbor_counts.
  cbn -[are_connected np_mean np_std INR].
  rewrite lead_iodide_connected. reflexivity.
Qed.

Lemma coordination_stats_per_size_content_witness :
  let self := mkAnalyzer lead_iodide_config ["good.pdb"; "other.pdb"]%string
                         (Some lead_iodide_lookup) [] [] [] in
  exists st,
    fan_out example_loader self "sphere" ["other.pdb"; "good.pdb"]%string = Ok st
    /\ per_size_entries (coordination_stats_per_size st) 1 ("Pb"%string, "I"%string)
       = [1; 1].
Proof.
  intros self.
  assert (Hfan : exists st,
    fan_out example_loader self "sphere" ["other.pdb"; "good.pdb"]%string = Ok st)
    by (eexists; reflexivity).
  destruct Hfan as [st Hfan]. exists st. split; [exact Hfan |].
  rewrite (@coordination_stats_per_size_content example_loader self "sphere"
             ["other.pdb"; "good.pdb"]%string st 1%nat ("Pb"%string, "I"%string) Hfan).
  assert (Hrecord : forall file,
    String.eqb file "broken.pdb" = false ->
    exists v q,
      record_of example_loader self "sphere" file
      = [mkRecord file 1
           (calculate_coordination_numbers lead_iodide_config lead_iodide
              [mkAtom "Pb" (Vec3 0 0 0)]) v q]).
  { intros file Hfile. unfold record_of, process_pdb_file, process_body, example_loader.
    rewrite Hfile. eexists. eexists. reflexivity. }
  destruct (Hrecord "other.pdb"%string eq_refl) as [v1 [q1 H1]].
  destruct (Hrecord "good.pdb"%string eq_refl) as [v2 [q2 H2]].
  cbn [flat_map]. rewrite H1, H2, lead_iodide_statistics.
  cbn [flat_map app cluster_size Nat.eqb coordination_stats].
  unfold means_of_pair. cbn [filter fst snd map app].
  rewrite eqb_refl. cbn [map fst snd app].
  assert (Hmean : np_mean [1] = 1) by (unfold np_mean; simpl; field).
  now rewrite Hmean.
Defined.

(** ** The files of a batch *)

(** [s.endswith(suffix)] *)
Fixpoint ends_with (suffix s : string) : bool :=
  String.eqb s suffix
  || match s with
     | EmptyString => false
     | String _ s' => ends_with suffix s'
     end.

(** [os.path.join(a, p)] for two components, with POSIX separators. *)
Definition os_path_join (a p : string) : string :=
  if String.prefix "/" p then p
  else if String.eqb a "" || ends_with "/" a then a ++ p
  else a ++ "/" ++ p.

(** [_load_pdb_files]; [listing] is what [os.listdir(self.pdb_directory)]
    returns. *)
Definition _load_pdb_files (pdb_directory : string) (listing : list string) : list string :=
  map (os_path_join pdb_directory) (filter (ends_with ".pdb") listing).

Lemma ends_with_append (suffix a s : string) :
  ends_with suffix s = true -> ends_with suffix (a ++ s) = true.
Proof.
  intros Hs. induction a as [| c a IH]; simpl; [assumption |].
  rewrite IH. apply orb_true_r.
Qed.

(** X30.  The files of a batch are the names of the directory listing that
    end in [.pdb], in listing order, each joined to the directory: every
    path of the batch ends in [.pdb] and comes from such a name, and there
    are as many paths as such names. *)
Theorem load_pdb_files_only_pdb (pdb_directory : string) (listing : list string) :
  (forall path, In path (_load_pdb_files pdb_directory listing) ->
     ends_with ".pdb" path = true
     /\ exists name, In name listing /\ ends_with ".pdb" name = true
                     /\ path = os_path_join pdb_directory name)
  /\ List.length (_load_pdb_files pdb_directory listing)
     = List.length (filter (ends_with ".pdb") listing)
  /\ (List.length (_load_pdb_files pdb_directory listing) <= List.length listing)%nat
  /\ ((forall name, In name listing -> ends_with ".pdb" name = false) ->
      _load_pdb_files pdb_directory listing = []).
Proof.
  unfold _load_pdb_files. split; [| split; [| split]].
  - intros path Hin. apply in_map_iff in Hin. destruct Hin as [name [<- Hname]].
    apply filter_In in Hname. destruct Hname as [Hin Hpdb]. split.
    + unfold os_path_join. destruct (String.prefix "/" name); [assumption |].
      destruct (String.eqb pdb_directory "" || ends_with "/" pdb_directory).
      * now apply ends_with_append.
      * apply ends_with_append. now apply (ends_with_append ".pdb" "/" name).
    + exists name. repeat split; assumption.
  - apply length_map.
  - rewrite length_map. apply List.filter_length_le.
  - intros Hnone. induction listing as [| name listing IH]; [reflexivity |]. simpl.
    rewrite (Hnone name) by now left. apply IH. intros n Hn. apply Hnone. now right.
Qed.

Lemma load_pdb_files_only_pdb_witness :
  ends_with ".pdb" "clusters/a.pdb" = true.
Proof.
  destruct (load_pdb_files_only_pdb "clusters" ["a.pdb"; "notes.txt"; "b.PDB"]%string)
    as [Hpaths _].
  apply Hpaths. simpl. tauto.
Defined.
